(** * Mensonge et Vérité: the game server (shared schema, MemStorage, routes)

    A shallow embedding of [shared/schema.ts], [server/storage.ts] and
    [server/routes.ts].  The server keeps every game in one in-memory map and
    mutates the stored object in place; [randomUUID], [Math.random] and
    [Date.now] are read from an oracle, one value per call. *)

From stdpp Require Import gmap strings list fin_maps pretty.
From Stdlib Require Import ZArith NArith Lia.
From Stdlib Require Import Floats.SpecFloat.

Local Open Scope string_scope.
Local Open Scope nat_scope.
Local Open Scope list_scope.

(** ** shared/schema.ts *)

Inductive CardType := truth | lie.

Record Card := { c_id : string; c_type : CardType }.

Record Player := {
  p_id : string;
  p_name : string;
  cardCount : nat;
  cards : list Card;
  avatar : string;
  isOnline : bool
}.

Inductive GamePhase := waiting | playing | accusation | revelation | finished.

Inductive EventType :=
  | card_played | ev_accusation | ev_revelation | penalty | join | leave | game_start.

Record GameEvent := {
  e_id : string;
  e_type : EventType;
  e_playerId : string;
  e_playerName : string;
  targetId : option string;
  targetName : option string;
  cardType : option CardType;
  timestamp : Z;
  message : string
}.

Record GameState := {
  g_id : string;
  phase : GamePhase;
  players : list Player;
  currentPlayerId : string;
  centerPile : list Card;
  lastPlayedCard : option Card;
  lastPlayerId : option string;
  accusingPlayerId : option string;
  revealedCard : option Card;
  events : list GameEvent;
  turnTimer : nat;
  maxPlayers : nat;
  minPlayers : nat
}.

(** The [type] field of a [WebSocketMessage]. *)
Inductive MessageType :=
  | msg_game_state | msg_player_joined | msg_player_left | msg_card_played
  | msg_accusation | msg_revelation | msg_error.

#[global] Instance CardType_eq_dec : EqDecision CardType.
Proof. solve_decision. Defined.
#[global] Instance GamePhase_eq_dec : EqDecision GamePhase.
Proof. solve_decision. Defined.
#[global] Instance EventType_eq_dec : EqDecision EventType.
Proof. solve_decision. Defined.
#[global] Instance Card_eq_dec : EqDecision Card.
Proof. solve_decision. Defined.

(** ** The server state and its effects *)

(** What the runtime hands out: the k-th call of [randomUUID()], the 53-bit
    numerator of the k-th [Math.random()] and the k-th [Date.now()]; and the
    case table of its Unicode version, [String.prototype.toUpperCase] on a
    text that is not all ASCII. *)
Record Oracle := {
  uuid_at : nat → string;
  random_at : nat → N;
  now_at : nat → Z;
  unicode_upper : string → string
}.

(** [games] is the map of [MemStorage]; the three counters say how many values
    of each kind were consumed; [sent] logs the calls of [broadcastToGame]. *)
Record Server := {
  games : gmap string GameState;
  uuid_calls : nat;
  random_calls : nat;
  now_calls : nat;
  sent : list (string * MessageType)
}.

Definition init : Server :=
  {| games := ∅; uuid_calls := 0; random_calls := 0; now_calls := 0; sent := [] |}.

(** Field updates, one per assignment the server makes. *)
Definition with_cards (cs : list Card) (p : Player) : Player :=
  {| p_id := p_id p; p_name := p_name p; cardCount := cardCount p; cards := cs;
     avatar := avatar p; isOnline := isOnline p |}.

Definition with_cardCount (n : nat) (p : Player) : Player :=
  {| p_id := p_id p; p_name := p_name p; cardCount := n; cards := cards p;
     avatar := avatar p; isOnline := isOnline p |}.

Definition with_phase (ph : GamePhase) (g : GameState) : GameState :=
  {| g_id := g_id g; phase := ph; players := players g;
     currentPlayerId := currentPlayerId g; centerPile := centerPile g;
     lastPlayedCard := lastPlayedCard g; lastPlayerId := lastPlayerId g;
     accusingPlayerId := accusingPlayerId g; revealedCard := revealedCard g;
     events := events g; turnTimer := turnTimer g; maxPlayers := maxPlayers g;
     minPlayers := minPlayers g |}.

Definition with_players (ps : list Player) (g : GameState) : GameState :=
  {| g_id := g_id g; phase := phase g; players := ps;
     currentPlayerId := currentPlayerId g; centerPile := centerPile g;
     lastPlayedCard := lastPlayedCard g; lastPlayerId := lastPlayerId g;
     accusingPlayerId := accusingPlayerId g; revealedCard := revealedCard g;
     events := events g; turnTimer := turnTimer g; maxPlayers := maxPlayers g;
     minPlayers := minPlayers g |}.

Definition with_currentPlayerId (pid : string) (g : GameState) : GameState :=
  {| g_id := g_id g; phase := phase g; players := players g;
     currentPlayerId := pid; centerPile := centerPile g;
     lastPlayedCard := lastPlayedCard g; lastPlayerId := lastPlayerId g;
     accusingPlayerId := accusingPlayerId g; revealedCard := revealedCard g;
     events := events g; turnTimer := turnTimer g; maxPlayers := maxPlayers g;
     minPlayers := minPlayers g |}.

Definition with_centerPile (pile : list Card) (g : GameState) : GameState :=
  {| g_id := g_id g; phase := phase g; players := players g;
     currentPlayerId := currentPlayerId g; centerPile := pile;
     lastPlayedCard := lastPlayedCard g; lastPlayerId := lastPlayerId g;
     accusingPlayerId := accusingPlayerId g; revealedCard := revealedCard g;
     events := events g; turnTimer := turnTimer g; maxPlayers := maxPlayers g;
     minPlayers := minPlayers g |}.

Definition with_lastPlayedCard (c : option Card) (g : GameState) : GameState :=
  {| g_id := g_id g; phase := phase g; players := players g;
     currentPlayerId := currentPlayerId g; centerPile := centerPile g;
     lastPlayedCard := c; lastPlayerId := lastPlayerId g;
     accusingPlayerId := accusingPlayerId g; revealedCard := revealedCard g;
     events := events g; turnTimer := turnTimer g; maxPlayers := maxPlayers g;
     minPlayers := minPlayers g |}.

Definition with_lastPlayerId (pid : option string) (g : GameState) : GameState :=
  {| g_id := g_id g; phase := phase g; players := players g;
     currentPlayerId := currentPlayerId g; centerPile := centerPile g;
     lastPlayedCard := lastPlayedCard g; lastPlayerId := pid;
     accusingPlayerId := accusingPlayerId g; revealedCard := revealedCard g;
     events := events g; turnTimer := turnTimer g; maxPlayers := maxPlayers g;
     minPlayers := minPlayers g |}.

Definition with_accusingPlayerId (pid : option string) (g : GameState) : GameState :=
  {| g_id := g_id g; phase := phase g; players := players g;
     currentPlayerId := currentPlayerId g; centerPile := centerPile g;
     lastPlayedCard := lastPlayedCard g; lastPlayerId := lastPlayerId g;
     accusingPlayerId := pid; revealedCard := revealedCard g;
     events := events g; turnTimer := turnTimer g; maxPlayers := maxPlayers g;
     minPlayers := minPlayers g |}.

Definition with_revealedCard (c : option Card) (g : GameState) : GameState :=
  {| g_id := g_id g; phase := phase g; players := players g;
     currentPlayerId := currentPlayerId g; centerPile := centerPile g;
     lastPlayedCard := lastPlayedCard g; lastPlayerId := lastPlayerId g;
     accusingPlayerId := accusingPlayerId g; revealedCard := c;
     events := events g; turnTimer := turnTimer g; maxPlayers := maxPlayers g;
     minPlayers := minPlayers g |}.

(** [game.events.push(e)] *)
Definition push_event (e : GameEvent) (g : GameState) : GameState :=
  {| g_id := g_id g; phase := phase g; players := players g;
     currentPlayerId := currentPlayerId g; centerPile := centerPile g;
     lastPlayedCard := lastPlayedCard g; lastPlayerId := lastPlayerId g;
     accusingPlayerId := accusingPlayerId g; revealedCard := revealedCard g;
     events := events g ++ [e]; turnTimer := turnTimer g; maxPlayers := maxPlayers g;
     minPlayers := minPlayers g |}.

(** What a route answers: [res.json(game)], [res.json({ game, playerId })] or
    [res.status(status).json({ message })]. *)
Inductive Response :=
  | json_game (g : GameState)
  | json_joined (g : GameState) (playerId : string)
  | json_message (status : nat) (msg : string).

(** A computation either returns or throws [new Error(message)]; the state
    reached so far is kept in both cases. *)
Inductive Result (A : Type) :=
  | Ret (a : A)
  | Throw (msg : string).
Arguments Ret {A} a.
Arguments Throw {A} msg.

Definition M (A : Type) : Type := Server → Result A * Server.

#[global] Instance M_ret : MRet M := λ A a s, (Ret a, s).
#[global] Instance M_bind : MBind M := λ A B f m s,
  match m s with
  | (Ret a, s') => f a s'
  | (Throw msg, s') => (Throw msg, s')
  end.
#[global] Instance M_fmap : FMap M := λ A B f m s,
  match m s with
  | (Ret a, s') => (Ret (f a), s')
  | (Throw msg, s') => (Throw msg, s')
  end.

Definition throw {A} (msg : string) : M A := λ s, (Throw msg, s).

(** [try { m } catch (error) { h error.message }] *)
Definition try_catch {A} (m : M A) (h : string → M A) : M A :=
  λ s, match m s with
       | (Ret a, s') => (Ret a, s')
       | (Throw msg, s') => h msg s'
       end.

Definition two53 : N := 9007199254740992.

(** ** Numbers

    A JavaScript number is an IEEE 754 binary64 value, a [spec_float] with
    53 digits and exponents up to 1024. *)

(** The double nearest to [z * 2^e]. *)
Definition double_of (z e : Z) : spec_float := binary_normalize 53 1024 z e false.

(** [Math.floor] of a finite double, as an integer. *)
Definition Math_floor (x : spec_float) : Z :=
  match x with
  | S754_finite s m e =>
      let v := if s then Z.neg m else Z.pos m in
      if (0 <=? e)%Z then (v * 2 ^ e)%Z else (v / 2 ^ (- e))%Z
  | _ => 0%Z
  end.

(** ** Strings

    A JavaScript string is a sequence of UTF-16 code units.  The model keeps
    the UTF-8 bytes of the text, and for a surrogate that stands alone the
    three bytes the same scheme gives its code unit. *)

Definition bytes (s : string) : list N :=
  Ascii.N_of_ascii <$> String.list_ascii_of_string s.

Definition of_bytes (bs : list N) : string :=
  String.string_of_list_ascii (Ascii.ascii_of_N <$> bs).

(** The code units of the text: one for a sequence of one, two or three
    bytes, the two surrogates for a sequence of four.  A byte that starts no
    sequence is passed on as it is. *)
Fixpoint code_units (bs : list N) : list N :=
  match bs with
  | [] => []
  | b0 :: bs1 =>
      if (b0 <? 192)%N then b0 :: code_units bs1
      else
        match bs1 with
        | [] => [b0]
        | b1 :: bs2 =>
            if (b0 <? 224)%N then ((b0 mod 32) * 64 + b1 mod 64)%N :: code_units bs2
            else
              match bs2 with
              | [] => [b0; b1]
              | b2 :: bs3 =>
                  if (b0 <? 240)%N then
                    ((b0 mod 16) * 4096 + (b1 mod 64) * 64 + b2 mod 64)%N :: code_units bs3
                  else
                    match bs3 with
                    | [] => [b0; b1; b2]
                    | b3 :: bs4 =>
                        let v := ((b0 mod 8) * 262144 + (b1 mod 64) * 4096
                                  + (b2 mod 64) * 64 + b3 mod 64 - 65536)%N in
                        (55296 + v / 1024)%N :: (56320 + v mod 1024)%N :: code_units bs4
                    end
              end
        end
  end.

(** The string of one code unit. *)
Definition unit_string (u : N) : string :=
  of_bytes (if (u <? 128)%N then [u]
            else if (u <? 2048)%N then [192 + u / 64; 128 + u mod 64]%N
            else [224 + u / 4096; 128 + (u / 64) mod 64; 128 + u mod 64]%N).

(** [s.charAt(j)]: the string of the [j]-th code unit, empty when there is
    none. *)
Definition charAt (j : nat) (s : string) : string :=
  match code_units (bytes s) !! j with
  | Some u => unit_string u
  | None => ""
  end.

(** [s.length]: the number of code units. *)
Definition str_length (s : string) : nat := length (code_units (bytes s)).

Definition is_ascii (s : string) : bool := forallb (λ b, b <? 128)%N (bytes s).

Definition upper_ascii (c : Ascii.ascii) : Ascii.ascii :=
  let n := Ascii.nat_of_ascii c in
  if (97 <=? n) && (n <=? 122) then Ascii.ascii_of_nat (n - 32) else c.

(** [toUpperCase] on a text that is all ASCII: the letters a to z change. *)
Fixpoint toUpperCase_ascii (s : string) : string :=
  match s with
  | EmptyString => EmptyString
  | String c s' => String (upper_ascii c) (toUpperCase_ascii s')
  end.

Section Runtime.
Variable env : Oracle.

Definition randomUUID : M string := λ s,
  (Ret (uuid_at env (uuid_calls s)),
   {| games := games s; uuid_calls := S (uuid_calls s); random_calls := random_calls s;
      now_calls := now_calls s; sent := sent s |}).

(** [Math.random()] is [m / 2^53] for an integer [0 <= m < 2^53]; the
    computation returns the numerator [m]. *)
Definition Math_random : M N := λ s,
  (Ret (random_at env (random_calls s) mod two53)%N,
   {| games := games s; uuid_calls := uuid_calls s; random_calls := S (random_calls s);
      now_calls := now_calls s; sent := sent s |}).

Definition Date_now : M Z := λ s,
  (Ret (now_at env (now_calls s)),
   {| games := games s; uuid_calls := uuid_calls s; random_calls := random_calls s;
      now_calls := S (now_calls s); sent := sent s |}).

(** [Math.floor(Math.random() * n)] when [Math.random()] is [m / 2^53]: the
    product is the double that [SFmul] rounds it to, which is floored. *)
Definition floor_times (m : N) (n : nat) : nat :=
  let random := double_of (Z.of_N m) (-53) in
  Z.to_nat (Math_floor (SFmul 53 1024 random (double_of (Z.of_nat n) 0))).

(** [m/2^53 > 0.5] *)
Definition above_half (m : N) : bool := (4503599627370496 <? m)%N.

(** [this.games.set(id, g)]; also stands for the in-place change of the
    object stored under [id], which is the one the caller holds. *)
Definition games_set (id : string) (g : GameState) : M unit := λ s,
  (Ret (),
   {| games := <[id := g]> (games s); uuid_calls := uuid_calls s;
      random_calls := random_calls s; now_calls := now_calls s; sent := sent s |}).

Definition broadcastToGame (gameId : string) (ty : MessageType) : M unit := λ s,
  (Ret (),
   {| games := games s; uuid_calls := uuid_calls s; random_calls := random_calls s;
      now_calls := now_calls s; sent := sent s ++ [(gameId, ty)] |}).

(** ** server/storage.ts *)

Definition chars : string := "ABCDEFGHIJKLMNOPQRSTUVWXYZ0123456789".

Fixpoint generateGameId_loop (n : nat) (result : string) : M string :=
  match n with
  | 0 => mret result
  | S n' =>
      m ← Math_random;
      generateGameId_loop n' (result +:+ charAt (floor_times m (str_length chars)) chars)
  end.

Definition generateGameId : M string := generateGameId_loop 6 "".

(** [for (let i = 0; i < n; i++) deck.push({ id: randomUUID(), type: ty })] *)
Fixpoint push_cards (n : nat) (ty : CardType) (deck : list Card) : M (list Card) :=
  match n with
  | 0 => mret deck
  | S n' =>
      id ← randomUUID;
      push_cards n' ty (deck ++ [{| c_id := id; c_type := ty |}])
  end.

(** [[deck[i], deck[j]] = [deck[j], deck[i]]].  Both indices are inside the
    deck whenever the shuffle calls it: [j <= i] by [floor_times_lt] and
    [i < deck.length] (see [shuffle_index_in_range]).  Outside, the
    assignment would store [undefined], which no [list Card] holds; the model
    leaves the deck alone there. *)
Definition swap (i j : nat) (deck : list Card) : list Card :=
  match deck !! i, deck !! j with
  | Some di, Some dj => <[j := di]> (<[i := dj]> deck)
  | _, _ => deck
  end.

(** [for (let i = k; i > 0; i--) { const j = floor(random() * (i + 1)); swap }] *)
Fixpoint shuffle_from (k : nat) (deck : list Card) : M (list Card) :=
  match k with
  | 0 => mret deck
  | S k' =>
      m ← Math_random;
      shuffle_from k' (swap k (floor_times m (k + 1)) deck)
  end.

Definition createDeck : M (list Card) :=
  deck ← push_cards 30 truth [];
  deck ← push_cards 30 lie deck;
  shuffle_from (length deck - 1) deck.

(** [String.prototype.toUpperCase]: on other than ASCII text the result is
    read from the runtime's table. *)
Definition toUpperCase (s : string) : string :=
  if is_ascii s then toUpperCase_ascii s else unicode_upper env s.

Definition createGame (hostPlayer : Player) : M GameState :=
  gameId ← generateGameId;
  deck ← createDeck;
  let playerCards := take 7 deck in
  evId ← randomUUID;
  now ← Date_now;
  let gameState :=
    {| g_id := gameId;
       phase := waiting;
       players := [ with_cardCount (length playerCards) (with_cards playerCards hostPlayer) ];
       currentPlayerId := p_id hostPlayer;
       centerPile := [];
       lastPlayedCard := None;
       lastPlayerId := None;
       accusingPlayerId := None;
       revealedCard := None;
       events := [ {| e_id := evId; e_type := join; e_playerId := p_id hostPlayer;
                      e_playerName := p_name hostPlayer; targetId := None;
                      targetName := None; cardType := None; timestamp := now;
                      message := p_name hostPlayer +:+ " a créé la partie" |} ];
       turnTimer := 45;
       maxPlayers := 6;
       minPlayers := 2 |} in
  games_set gameId gameState;;
  mret gameState.

Definition getGame (id : string) : M (option GameState) := λ s, (Ret (games s !! id), s).

Definition updateGame (gameState : GameState) : M GameState :=
  games_set (g_id gameState) gameState;;
  mret gameState.

(** The two automatic-start tests at the end of [addPlayerToGame]. *)
Definition start_with_event (game : GameState) : M GameState :=
  if bool_decide (minPlayers game ≤ length (players game)) && bool_decide (phase game = waiting)
  then
    evId ← randomUUID;
    now ← Date_now;
    mret (push_event
            {| e_id := evId; e_type := game_start; e_playerId := ""; e_playerName := "";
               targetId := None; targetName := None; cardType := None; timestamp := now;
               message := "La partie commence avec " +:+ pretty (length (players game))
                          +:+ " joueurs !" |}
            (with_phase playing game))
  else mret game.

Definition start_silently (game : GameState) : GameState :=
  if bool_decide (minPlayers game ≤ length (players game)) && bool_decide (phase game = waiting)
  then with_phase playing game
  else game.

Definition addPlayerToGame (gameId : string) (player : Player) : M GameState :=
  game ← getGame gameId;
  match game with
  | None => throw "Game not found"
  | Some game =>
      if bool_decide (maxPlayers game ≤ length (players game)) then throw "Game is full"
      else
        deck ← createDeck;
        let playerCards := take 7 deck in
        let newPlayer := with_cardCount (length playerCards) (with_cards playerCards player) in
        let game := with_players (players game ++ [newPlayer]) game in
        evId ← randomUUID;
        now ← Date_now;
        let game :=
          push_event
            {| e_id := evId; e_type := join; e_playerId := p_id player;
               e_playerName := p_name player; targetId := None; targetName := None;
               cardType := None; timestamp := now;
               message := p_name player +:+ " a rejoint la partie" |} game in
        game ← start_with_event game;
        let game := start_silently game in
        games_set gameId game;;
        mret game
  end.

Definition removePlayerFromGame (gameId playerId : string) : M GameState :=
  game ← getGame gameId;
  match game with
  | None => throw "Game not found"
  | Some game =>
      match list_find (λ p, p_id p = playerId) (players game) with
      | None => throw "Player not found in game"
      | Some (playerIndex, player) =>
          let game := with_players (delete playerIndex (players game)) game in
          evId ← randomUUID;
          now ← Date_now;
          let game :=
            push_event
              {| e_id := evId; e_type := leave; e_playerId := p_id player;
                 e_playerName := p_name player; targetId := None; targetName := None;
                 cardType := None; timestamp := now;
                 message := p_name player +:+ " a quitté la partie" |} game in
          let game :=
            if bool_decide (length (players game) < minPlayers game)
            then with_phase finished game else game in
          games_set gameId game;;
          mret game
      end
  end.

(** ** server/routes.ts *)

(** The [Player] both [POST /api/games] and [POST /api/games/join] build. *)
Definition new_player (playerName : string) : M Player :=
  id ← randomUUID;
  mret {| p_id := id; p_name := playerName; cardCount := 0; cards := [];
          avatar := toUpperCase (charAt 0 playerName); isOnline := true |}.

(** [POST /api/games], after [CreateGameRequest.parse]. *)
Definition handleCreate (playerName : string) : M Response :=
  try_catch
    (player ← new_player playerName;
     game ← createGame player;
     mret (json_joined game (p_id player)))
    (λ msg, mret (json_message 400 msg)).

(** [POST /api/games/join], after [JoinGameRequest.parse]. *)
Definition handleJoin (gameId playerName : string) : M Response :=
  try_catch
    (game ← getGame gameId;
     match game with
     | None => mret (json_message 404 "Game not found")
     | Some _ =>
         player ← new_player playerName;
         updatedGame ← addPlayerToGame gameId player;
         broadcastToGame gameId msg_player_joined;;
         mret (json_joined updatedGame (p_id player))
     end)
    (λ msg, mret (json_message 400 msg)).

(** [GET /api/games/:gameId] *)
Definition handleGet (gameId : string) : M Response :=
  try_catch
    (game ← getGame gameId;
     match game with
     | None => mret (json_message 404 "Game not found")
     | Some game => mret (json_game game)
     end)
    (λ _, mret (json_message 500 "Failed to get game")).

(** The event of a played card, with the text of [message] after the name. *)
Definition played_event (player : Player) (text : string) : M GameEvent :=
  evId ← randomUUID;
  now ← Date_now;
  mret {| e_id := evId; e_type := card_played; e_playerId := p_id player;
          e_playerName := p_name player; targetId := None; targetName := None;
          cardType := None; timestamp := now; message := p_name player +:+ text |}.

(** [POST /api/games/:gameId/play], after [PlayCardRequest.parse]. *)
Definition handlePlay (gameId playerId cardId : string) : M Response :=
  try_catch
    (game ← getGame gameId;
     match game with
     | None => mret (json_message 404 "Game not found")
     | Some game =>
         match list_find (λ p, p_id p = playerId) (players game) with
         | None => mret (json_message 404 "Player not found")
         | Some (playerIndex, player) =>
             if bool_decide (currentPlayerId game ≠ playerId)
             then mret (json_message 400 "Not your turn")
             else
               match list_find (λ c, c_id c = cardId) (cards player) with
               | None => mret (json_message 400 "Card not found")
               | Some (cardIndex, playedCard) =>
                   let player := with_cards (delete cardIndex (cards player)) player in
                   let player := with_cardCount (length (cards player)) player in
                   let game := with_players (<[playerIndex := player]> (players game)) game in
                   let game := with_centerPile (centerPile game ++ [playedCard]) game in
                   let game := with_lastPlayedCard (Some playedCard) game in
                   let game := with_lastPlayerId (Some playerId) game in
                   if bool_decide (length (cards player) = 0)
                   then
                     let game := with_phase finished game in
                     event ← played_event player " a gagné la partie !";
                     let game := push_event event game in
                     games_set gameId game;;
                     updatedGame ← updateGame game;
                     broadcastToGame gameId msg_card_played;;
                     mret (json_game updatedGame)
                   else
                     let next :=
                       match list_find (λ p, p_id p = playerId) (players game) with
                       | Some (currentIndex, _) => currentIndex + 1
                       | None => 0
                       end in
                     let nextIndex := next mod length (players game) in
                     match players game !! nextIndex with
                     | None =>
                         games_set gameId game;;
                         throw "Cannot read properties of undefined (reading 'id')"
                     | Some nextPlayer =>
                         let game := with_currentPlayerId (p_id nextPlayer) game in
                         event ← played_event player " a joué une carte";
                         let game := push_event event game in
                         games_set gameId game;;
                         updatedGame ← updateGame game;
                         broadcastToGame gameId msg_card_played;;
                         mret (json_game updatedGame)
                     end
               end
         end
     end)
    (λ msg, mret (json_message 400 msg)).

(** [for (let i = 0; i < n; i++) cards.push({ id: randomUUID(),
    type: Math.random() > 0.5 ? "truth" : "lie" })] *)
Fixpoint penalty_loop (n : nat) (cs : list Card) : M (list Card) :=
  match n with
  | 0 => mret cs
  | S n' =>
      id ← randomUUID;
      m ← Math_random;
      penalty_loop n' (cs ++ [{| c_id := id; c_type := if above_half m then truth else lie |}])
  end.

Definition createPenaltyCards : M (list Card) := penalty_loop 10 [].

(** [!game.lastPlayerId]: the field is missing or the empty string. *)
Definition falsy (x : option string) : bool :=
  match x with
  | None => true
  | Some v => bool_decide (v = "")
  end.

(** [POST /api/games/:gameId/accuse], after [AccusePlayerRequest.parse]. *)
Definition handleAccuse (gameId accusingPlayerId' accusedPlayerId : string) : M Response :=
  try_catch
    (game ← getGame gameId;
     match game with
     | None => mret (json_message 404 "Game not found")
     | Some game =>
         match lastPlayedCard game with
         | None => mret (json_message 400 "No card to accuse")
         | Some lastCard =>
             if falsy (lastPlayerId game) then mret (json_message 400 "No card to accuse")
             else
               match list_find (λ p, p_id p = accusingPlayerId') (players game),
                     list_find (λ p, p_id p = accusedPlayerId) (players game) with
               | Some (accusingIndex, accusingPlayer), Some (accusedIndex, accusedPlayer) =>
                   let game := with_phase revelation game in
                   let game := with_revealedCard (Some lastCard) game in
                   let game := with_accusingPlayerId (Some accusingPlayerId') game in
                   let wasLie := bool_decide (c_type lastCard = lie) in
                   let '(penaltyIndex, penaltyPlayer) :=
                     if wasLie then (accusedIndex, accusedPlayer)
                     else (accusingIndex, accusingPlayer) in
                   deck ← createPenaltyCards;
                   let penaltyCards := take 3 deck in
                   let penaltyPlayer := with_cards (cards penaltyPlayer ++ penaltyCards) penaltyPlayer in
                   let penaltyPlayer := with_cardCount (length (cards penaltyPlayer)) penaltyPlayer in
                   let game := with_players (<[penaltyIndex := penaltyPlayer]> (players game)) game in
                   evId ← randomUUID;
                   now ← Date_now;
                   let event :=
                     {| e_id := evId; e_type := ev_accusation;
                        e_playerId := p_id accusingPlayer; e_playerName := p_name accusingPlayer;
                        targetId := Some (p_id accusedPlayer);
                        targetName := Some (p_name accusedPlayer);
                        cardType := Some (c_type lastCard); timestamp := now;
                        message := p_name accusingPlayer +:+ " a accusé " +:+ p_name accusedPlayer
                                   +:+ " - " +:+ (if wasLie then "Mensonge révélé!"
                                                  else "Vérité révélée!") |} in
                   let game := push_event event game in
                   games_set gameId game;;
                   updatedGame ← updateGame game;
                   broadcastToGame gameId msg_accusation;;
                   mret (json_game updatedGame)
               | _, _ => mret (json_message 404 "Player not found")
               end
         end
     end)
    (λ msg, mret (json_message 400 msg)).

(** [POST /api/games/:gameId/continue] *)
Definition handleContinue (gameId : string) : M Response :=
  try_catch
    (game ← getGame gameId;
     match game with
     | None => mret (json_message 404 "Game not found")
     | Some game =>
         let game := with_phase playing game in
         let game := with_revealedCard None game in
         let game := with_accusingPlayerId None game in
         games_set gameId game;;
         updatedGame ← updateGame game;
         broadcastToGame gameId msg_game_state;;
         mret (json_game updatedGame)
     end)
    (λ _, mret (json_message 500 "Could not continue game")).

(** [ws.on('close')] of a client that announced [gameId] and [playerId]. *)
Definition wsClose (gameId playerId : string) : M unit :=
  if bool_decide (gameId ≠ "") && bool_decide (playerId ≠ "") then
    try_catch
      (removePlayerFromGame gameId playerId;;
       broadcastToGame gameId msg_player_left)
      (λ _, mret ())
  else mret ().

End Runtime.

(** ** Vocabulary of the statements *)

(** The state after [u] more calls of [randomUUID], [r] of [Math.random] and
    [t] of [Date.now]. *)
Definition tick (u r t : nat) (s : Server) : Server :=
  {| games := games s; uuid_calls := uuid_calls s + u; random_calls := random_calls s + r;
     now_calls := now_calls s + t; sent := sent s |}.

(** The cards [push_cards] makes from the [n] identifiers drawn from call [k] on. *)
Definition fresh_cards (env : Oracle) (ty : CardType) (k n : nat) : list Card :=
  (λ i, {| c_id := uuid_at env i; c_type := ty |}) <$> seq k n.

Definition count_type (ty : CardType) (deck : list Card) : nat :=
  length (filter (λ c, c_type c = ty) deck).

(** ** A sample run *)

(** The upper case of a letter of the Latin-1 supplement, from its two bytes:
    à to þ move down by 32 (÷ does not), ß becomes SS, ÿ and µ leave the
    block. *)
Definition upper_latin1_pair (b0 b1 : N) : option (list N) :=
  if (b0 =? 195)%N then
    if (160 <=? b1)%N && (b1 <=? 190)%N && negb (b1 =? 183)%N then Some [195; b1 - 32]%N
    else if (b1 =? 159)%N then Some [83; 83]%N
    else if (b1 =? 191)%N then Some [197; 184]%N
    else None
  else if (b0 =? 194)%N && (b1 =? 181)%N then Some [206; 156]%N
  else None.

(** [toUpperCase] on a text of ASCII and Latin-1 characters. *)
Fixpoint upper_latin1 (bs : list N) : list N :=
  match bs with
  | [] => []
  | b0 :: bs1 =>
      let single := (if (97 <=? b0)%N && (b0 <=? 122)%N then b0 - 32 else b0)%N in
      match bs1 with
      | [] => [single]
      | b1 :: bs2 =>
          match upper_latin1_pair b0 b1 with
          | Some up => up ++ upper_latin1 bs2
          | None => single :: upper_latin1 bs1
          end
      end
  end.

Definition sample_env : Oracle :=
  {| uuid_at := λ k, "uuid-" +:+ pretty k;
     random_at := λ k, (N.of_nat k * 6364136223846793005 + 1442695040888963407)%N;
     now_at := λ k, (1700000000000 + Z.of_nat k)%Z;
     unicode_upper := λ s, of_bytes (upper_latin1 (bytes s)) |}.


(** The state a route leaves when it succeeds on the game stored under
    [gameId]: the changed object [g] sits under [gameId], [updateGame] stores it
    under its own id as well, [u] identifiers and [r] random numbers and [t]
    clock readings were consumed, and one broadcast of type [ty] was made. *)
Definition commit (gameId : string) (g : GameState) (ty : MessageType) (u r t : nat)
    (s : Server) : Server :=
  {| games := <[g_id g := g]> (<[gameId := g]> (games s));
     uuid_calls := uuid_calls s + u; random_calls := random_calls s + r;
     now_calls := now_calls s + t; sent := sent s ++ [(gameId, ty)] |}.

(** [players' hands + centerPile] *)
Definition total_cards (g : GameState) : nat :=
  sum_list (length ∘ cards <$> players g) + length (centerPile g).

(** [cardCount == cards.length] *)
Definition hand_synced (p : Player) : Prop := cardCount p = length (cards p).

Definition game_synced (g : GameState) : Prop := Forall hand_synced (players g).

(** ** Commands *)

(** The requests the server takes, after their schema was checked, and the
    closing of a WebSocket whose client announced a game and a player. *)
Inductive Command :=
  | CreateGame (playerName : string)
  | JoinGame (gameId playerName : string)
  | GetGame (gameId : string)
  | PlayCard (gameId playerId cardId : string)
  | AccusePlayer (gameId accusingPlayerId' accusedPlayerId : string)
  | ContinueAfterRevelation (gameId : string)
  | Disconnect (gameId playerId : string).

(** The HTTP answer, if the command is a request. *)
Definition exec (env : Oracle) (c : Command) : M (option Response) :=
  match c with
  | CreateGame playerName => Some <$> handleCreate env playerName
  | JoinGame gameId playerName => Some <$> handleJoin env gameId playerName
  | GetGame gameId => Some <$> handleGet gameId
  | PlayCard gameId playerId cardId => Some <$> handlePlay env gameId playerId cardId
  | AccusePlayer gameId accusing accused => Some <$> handleAccuse env gameId accusing accused
  | ContinueAfterRevelation gameId => Some <$> handleContinue gameId
  | Disconnect gameId playerId => wsClose env gameId playerId ;; mret None
  end.

(** The server after a sequence of commands. *)
Definition run (env : Oracle) (cmds : list Command) (s : Server) : Server :=
  foldl (λ s c, (exec env c s).2) s cmds.

(** The session a command is addressed to. *)
Definition target (c : Command) : option string :=
  match c with
  | CreateGame _ => None
  | JoinGame gameId _ | GetGame gameId | PlayCard gameId _ _ | AccusePlayer gameId _ _
  | ContinueAfterRevelation gameId | Disconnect gameId _ => Some gameId
  end.

(** The session a request answers with. *)
Definition answered (r : Result (option Response)) : option GameState :=
  match r with
  | Ret (Some (json_game g)) | Ret (Some (json_joined g _)) => Some g
  | _ => None
  end.

Definition phase_at (gameId : string) (s : Server) : option GamePhase :=
  phase <$> games s !! gameId.

(** The server with session [g] stored under [gameId]. *)
Definition put_game (gameId : string) (g : GameState) (s : Server) : Server :=
  {| games := <[gameId := g]> (games s); uuid_calls := uuid_calls s;
     random_calls := random_calls s; now_calls := now_calls s; sent := sent s |}.

(** The hand of the first player with the given id. *)
Definition hand_of (playerId : string) (g : GameState) : option (list Card) :=
  (cards ∘ snd) <$> list_find (λ p, p_id p = playerId) (players g).

(** ** A small session, written out *)

Definition tiny_player (id name : string) (hand : list Card) : Player :=
  {| p_id := id; p_name := name; cardCount := length hand; cards := hand;
     avatar := toUpperCase sample_env (charAt 0 name); isOnline := true |}.

(** Alice, Bob and Carol; Alice has just played the lie ["k0"] and it is Bob's
    turn. *)
Definition tiny_game : GameState :=
  {| g_id := "ROOM01";
     phase := playing;
     players := [ tiny_player "a" "Alice" [ {| c_id := "k1"; c_type := truth |} ];
                  tiny_player "b" "Bob" [ {| c_id := "k2"; c_type := truth |};
                                          {| c_id := "k3"; c_type := lie |} ];
                  tiny_player "c" "Carol" [ {| c_id := "k4"; c_type := lie |} ] ];
     currentPlayerId := "b";
     centerPile := [ {| c_id := "k0"; c_type := lie |} ];
     lastPlayedCard := Some {| c_id := "k0"; c_type := lie |};
     lastPlayerId := Some "a";
     accusingPlayerId := None;
     revealedCard := None;
     events := [];
     turnTimer := 45;
     maxPlayers := 6;
     minPlayers := 2 |}.

Definition tiny_server : Server := put_game "ROOM01" tiny_game init.

(** The same session once the game is over. *)
Definition tiny_over : Server := put_game "ROOM01" (with_phase finished tiny_game) init.

(** The same session before anything was played. *)
Definition tiny_fresh : Server :=
  put_game "ROOM01" (with_lastPlayerId None (with_lastPlayedCard None tiny_game)) init.

(** A lobby with its host alone. *)
Definition tiny_lobby_game : GameState :=
  with_players [ tiny_player "a" "Alice" [ {| c_id := "k1"; c_type := truth |} ] ]
    (with_currentPlayerId "a" (with_phase waiting
       (with_centerPile [] (with_lastPlayerId None (with_lastPlayedCard None tiny_game))))).

Definition tiny_lobby : Server := put_game "ROOM01" tiny_lobby_game init.

(** Every stored session has every player's [cardCount] equal to the length of
    the hand. *)
Definition store_synced (s : Server) : Prop :=
  map_Forall (λ _ g, game_synced g) (games s).

Definition answer_synced (r : Result (option Response)) : Prop :=
  match answered r with
  | Some g => game_synced g
  | None => True
  end.

(** Every session is stored under its own id. *)
Definition well_keyed (s : Server) : Prop :=
  map_Forall (λ k g, g_id g = k) (games s).

(** ** client helpers (getPlayerById, getNextPlayer, canPlayerAccuse, ...) *)

Definition getPlayerById (game : GameState) (playerId : string) : option Player :=
  snd <$> list_find (λ p, p_id p = playerId) (players game).

Definition getOtherPlayers (game : GameState) (currentPlayerId' : string) : list Player :=
  filter (λ p, p_id p ≠ currentPlayerId') (players game).

Definition getNextPlayer (game : GameState) (currentPlayerId' : string) : option Player :=
  match list_find (λ p, p_id p = currentPlayerId') (players game) with
  | None => None
  | Some (currentIndex, _) =>
      let nextIndex := (currentIndex + 1) mod length (players game) in
      players game !! nextIndex
  end.

(** [!!(game.lastPlayerId && game.lastPlayerId !== playerId &&
        game.phase === "playing" && game.lastPlayedCard)] *)
Definition canPlayerAccuse (game : GameState) (playerId : string) : bool :=
  negb (falsy (lastPlayerId game))
  && bool_decide (lastPlayerId game ≠ Some playerId)
  && bool_decide (phase game = playing)
  && bool_decide (is_Some (lastPlayedCard game)).

Definition isPlayerTurn (game : GameState) (playerId : string) : bool :=
  bool_decide (currentPlayerId game = playerId) && bool_decide (phase game = playing).

(** A template literal prints a missing field as [undefined]. *)
Definition shown (x : option string) : string := default "undefined" x.

(** The event has no [penaltyCards] field, so [event.penaltyCards || 3] is 3. *)
Definition formatGameEvent (event : GameEvent) : string :=
  match e_type event with
  | card_played => e_playerName event +:+ " a joué une carte"
  | ev_accusation =>
      e_playerName event +:+ " a accusé " +:+ shown (targetName event) +:+ " - "
      +:+ (if bool_decide (cardType event = Some lie) then "Mensonge révélé!"
           else "Vérité révélée!")
  | join => e_playerName event +:+ " a rejoint la partie"
  | leave => e_playerName event +:+ " a quitté la partie"
  | penalty => e_playerName event +:+ " pioche " +:+ "3" +:+ " cartes"
  | _ => message event
  end.

(** ** client/src/pages/lobby: the game code a player types *)

(** The white space and the line terminators of ECMAScript, as UTF-8 bytes:
    U+0009 to U+000D, U+0020, U+00A0, U+1680, U+2000 to U+200A, U+2028,
    U+2029, U+202F, U+205F, U+3000 and U+FEFF. *)
Definition white_space : list (list N) :=
  [ [9]; [10]; [11]; [12]; [13]; [32];
    [194; 160];
    [225; 154; 128];
    [226; 128; 128]; [226; 128; 129]; [226; 128; 130]; [226; 128; 131];
    [226; 128; 132]; [226; 128; 133]; [226; 128; 134]; [226; 128; 135];
    [226; 128; 136]; [226; 128; 137]; [226; 128; 138];
    [226; 128; 168]; [226; 128; 169];
    [226; 128; 175];
    [226; 129; 159];
    [227; 128; 128];
    [239; 187; 191] ]%N.

(** What follows the prefix [p] in [bs], if [bs] starts with it. *)
Fixpoint after_prefix (p bs : list N) : option (list N) :=
  match p, bs with
  | [], _ => Some bs
  | a :: p', b :: bs' => if (a =? b)%N then after_prefix p' bs' else None
  | _ :: _, [] => None
  end.

(** [bs] without the sequence of [table] it starts with, if there is one. *)
Definition skip_one (table : list (list N)) (bs : list N) : option (list N) :=
  foldr (λ p rest, match after_prefix p bs with Some bs' => Some bs' | None => rest end)
        None table.

(** [bs] without the sequences of [table] it starts with; every step drops a
    byte at least, so [length bs] steps are enough. *)
Fixpoint skip_all (table : list (list N)) (steps : nat) (bs : list N) : list N :=
  match steps with
  | 0 => bs
  | S steps' =>
      match skip_one table bs with
      | Some bs' => skip_all table steps' bs'
      | None => bs
      end
  end.

Definition trim_start (bs : list N) : list N := skip_all white_space (length bs) bs.

Definition trim_end (bs : list N) : list N :=
  reverse (skip_all (reverse <$> white_space) (length bs) (reverse bs)).

(** [String.prototype.trim] *)
Definition trim (s : string) : string := of_bytes (trim_end (trim_start (bytes s))).

(** [gameId.trim().toUpperCase()] of [handleJoinGame]. *)
Definition typed_game_code (env : Oracle) (gameId : string) : string :=
  toUpperCase env (trim gameId).

(** ** client/src/hooks: reconnecting the WebSocket *)

Definition maxReconnectAttempts : nat := 5.

(** [ws.onclose]: from the number of attempts so far, the new number and the
    delay in milliseconds after which [connect] is called again, if it is. *)
Definition onclose (reconnectAttempts : nat) : nat * option N :=
  if reconnectAttempts <? maxReconnectAttempts then
    let attempts := reconnectAttempts + 1 in
    (attempts, Some (N.min (1000 * 2 ^ N.of_nat attempts) 10000)%N)
  else (reconnectAttempts, None).

(** [ws.onopen] *)
Definition onopen (reconnectAttempts : nat) : nat := 0.

(** The delays of the reconnections scheduled while the socket closes [n]
    times in a row. *)
Fixpoint closes (n : nat) (reconnectAttempts : nat) : list N :=
  match n with
  | 0 => []
  | S n' =>
      match onclose reconnectAttempts with
      | (attempts, Some delay) => delay :: closes n' attempts
      | (attempts, None) => []
      end
  end.

(** ** server/storage.ts: the users *)

Record User := { u_id : string; username : string; password : string }.

Record InsertUser := { ins_username : string; ins_password : string }.

(** [Map.prototype.set] on a map kept in insertion order: a present key keeps
    its place. *)
Fixpoint users_set (id : string) (user : User) (users : list (string * User))
    : list (string * User) :=
  match users with
  | [] => [(id, user)]
  | (id', user') :: rest =>
      if decide (id' = id) then (id, user) :: rest
      else (id', user') :: users_set id user rest
  end.

Definition getUser (users : list (string * User)) (id : string) : option User :=
  snd <$> (snd <$> list_find (λ entry, entry.1 = id) users).

(** [Array.from(this.users.values()).find(user => user.username === username)] *)
Definition getUserByUsername (users : list (string * User)) (name : string) : option User :=
  snd <$> list_find (λ user, username user = name) (snd <$> users).

Definition createUser (env : Oracle) (insertUser : InsertUser) (users : list (string * User))
    : M (User * list (string * User)) :=
  id ← randomUUID env;
  let user := {| u_id := id; username := ins_username insertUser;
                 password := ins_password insertUser |} in
  mret (user, users_set id user users).

(** ** What a command does to a session *)

(** The fields no route assigns. *)
Definition same_settings (g g' : GameState) : Prop :=
  g_id g' = g_id g ∧ turnTimer g' = turnTimer g ∧
  maxPlayers g' = maxPlayers g ∧ minPlayers g' = minPlayers g.

(** The pile and the last play, which only [PlayCard] touches. *)
Definition same_pile (g g' : GameState) : Prop :=
  centerPile g' = centerPile g ∧ lastPlayedCard g' = lastPlayedCard g ∧
  lastPlayerId g' = lastPlayerId g.

(** The session [createGame] stores. *)
Record Created (g : GameState) : Prop := {
  created_phase : phase g = waiting;
  created_players : ∃ host, players g = [host] ∧ length (cards host) = 7 ∧
                            currentPlayerId g = p_id host;
  created_pile : centerPile g = [] ∧ lastPlayedCard g = None ∧ lastPlayerId g = None;
  created_events : ∃ e, events g = [e] ∧ e_type e = join;
  created_settings : turnTimer g = 45 ∧ maxPlayers g = 6 ∧ minPlayers g = 2
}.

(** The change a successful operation makes to the session it addresses. *)
Inductive Transition (g g' : GameState) : Prop :=
  | tr_play (pi ci : nat) (player : Player) (card : Card) :
      players g !! pi = Some player →
      cards player !! ci = Some card →
      same_settings g g' →
      players g' = <[pi := with_cardCount (length (delete ci (cards player)))
                             (with_cards (delete ci (cards player)) player)]> (players g) →
      phase g' = (if bool_decide (length (delete ci (cards player)) = 0)
                  then finished else phase g) →
      centerPile g' = centerPile g ++ [card] →
      lastPlayedCard g' = Some card →
      lastPlayerId g' = Some (p_id player) →
      (∃ e, events g' = events g ++ [e] ∧ e_type e = card_played) →
      Transition g g'
  | tr_accuse (i : nat) (p : Player) (penaltyCards : list Card) :
      players g !! i = Some p →
      length penaltyCards = 3 →
      same_settings g g' →
      players g' = <[i := with_cardCount (length (cards p ++ penaltyCards))
                            (with_cards (cards p ++ penaltyCards) p)]> (players g) →
      phase g' = revelation →
      same_pile g g' →
      currentPlayerId g' = currentPlayerId g →
      (∃ e, events g' = events g ++ [e] ∧ e_type e = ev_accusation) →
      Transition g g'
  | tr_join (newPlayer : Player) :
      length (players g) < maxPlayers g →
      length (cards newPlayer) = 7 →
      same_settings g g' →
      players g' = players g ++ [newPlayer] →
      phase g' = (if bool_decide (minPlayers g ≤ length (players g) + 1)
                     && bool_decide (phase g = waiting)
                  then playing else phase g) →
      same_pile g g' →
      currentPlayerId g' = currentPlayerId g →
      (∃ es, events g' = events g ++ es ∧
             e_type <$> es = if bool_decide (minPlayers g ≤ length (players g) + 1)
                                && bool_decide (phase g = waiting)
                             then [join; game_start] else [join]) →
      Transition g g'
  | tr_leave (pi : nat) (player : Player) :
      players g !! pi = Some player →
      same_settings g g' →
      players g' = delete pi (players g) →
      phase g' = (if bool_decide (length (delete pi (players g)) < minPlayers g)
                  then finished else phase g) →
      same_pile g g' →
      currentPlayerId g' = currentPlayerId g →
      (∃ e, events g' = events g ++ [e] ∧ e_type e = leave) →
      Transition g g'
  | tr_continue :
      g' = with_accusingPlayerId None (with_revealedCard None (with_phase playing g)) →
      Transition g g'.

(** A runtime whose [Math.random] returns 0 every time, so that every game
    gets the id AAAAAA. *)
Definition colliding_env : Oracle :=
  {| uuid_at := uuid_at sample_env;
     random_at := λ _, 0%N;
     now_at := now_at sample_env;
     unicode_upper := unicode_upper sample_env |}.

(** The turn of the session under [gameId] is with [playerId], who is not
    among its players. *)
Definition turn_lost (gameId playerId : string) (s : Server) : Prop :=
  ∃ g, games s !! gameId = Some g ∧
       currentPlayerId g = playerId ∧
       playerId ∉ p_id <$> players g.

(** The settings [createGame] writes, and the room they leave. *)
Definition within_capacity (g : GameState) : Prop :=
  turnTimer g = 45 ∧ maxPlayers g = 6 ∧ minPlayers g = 2 ∧ length (players g) ≤ 6.

(** The last play is the top of the pile, and it has a player exactly when it
    has a card. *)
Definition last_play_on_top (g : GameState) : Prop :=
  lastPlayedCard g = last (centerPile g) ∧
  (is_Some (lastPlayerId g) ↔ is_Some (lastPlayedCard g)).

(** The broadcast a request makes when it succeeds. *)
Definition broadcast_of (c : Command) : list (string * MessageType) :=
  match c with
  | JoinGame gameId _ => [(gameId, msg_player_joined)]
  | PlayCard gameId _ _ => [(gameId, msg_card_played)]
  | AccusePlayer gameId _ _ => [(gameId, msg_accusation)]
  | ContinueAfterRevelation gameId => [(gameId, msg_game_state)]
  | CreateGame _ | GetGame _ | Disconnect _ _ => []
  end.

(** The small session in a room for three. *)
Definition tiny_full_game : GameState :=
  {| g_id := "ROOM01"; phase := playing; players := players tiny_game;
     currentPlayerId := "b"; centerPile := centerPile tiny_game;
     lastPlayedCard := lastPlayedCard tiny_game; lastPlayerId := lastPlayerId tiny_game;
     accusingPlayerId := None; revealedCard := None; events := [];
     turnTimer := 45; maxPlayers := 3; minPlayers := 2 |}.

Definition tiny_full : Server := put_game "ROOM01" tiny_full_game init.

(** An upper-case letter or a digit. *)
Definition code_char (c : Ascii.ascii) : bool :=
  let n := Ascii.nat_of_ascii c in
  ((65 <=? n) && (n <=? 90)) || ((48 <=? n) && (n <=? 57)).

(** The byte of an upper-case letter or a digit. *)
Definition code_byte (b : N) : Prop := ∃ c, b = Ascii.N_of_ascii c ∧ code_char c = true.

Fixpoint string_forall (P : Ascii.ascii → bool) (s : string) : bool :=
  match s with
  | EmptyString => true
  | String c s' => P c && string_forall P s'
  end.

(** The [k]-th card [createPenaltyCards] makes, counted from the calls of
    [randomUUID] and [Math.random] made before it. *)
Definition penalty_card (env : Oracle) (s : Server) (k : nat) : Card :=
  {| c_id := uuid_at env (uuid_calls s + k);
     c_type := if above_half (random_at env (random_calls s + k) mod two53)
               then truth else lie |}.

(** The players of a session have pairwise distinct ids, each a value
    [randomUUID] has already returned. *)
Definition ids_drawn (env : Oracle) (s : Server) (g : GameState) : Prop :=
  NoDup (p_id <$> players g) ∧
  Forall (λ id, ∃ i, i < uuid_calls s ∧ id = uuid_at env i) (p_id <$> players g).
(** ** Reasoning about computations *)

Lemma bind_ret {A B} (m : M A) (f : A → M B) (s s' : Server) (a : A) :
  m s = (Ret a, s') → (m ≫= f) s = f a s'.
Proof. unfold mbind, M_bind. by intros ->. Qed.

Lemma bind_throw {A B} (m : M A) (f : A → M B) (s s' : Server) (msg : string) :
  m s = (Throw msg, s') → (m ≫= f) s = (Throw msg, s').
Proof. unfold mbind, M_bind. by intros ->. Qed.

Lemma server_eq (a b : Server) :
  games a = games b → uuid_calls a = uuid_calls b → random_calls a = random_calls b →
  now_calls a = now_calls b → sent a = sent b → a = b.
Proof. destruct a, b; simpl; by intros -> -> -> -> ->. Qed.

(** Closes [(Ret x, s) = (Ret ?y, s')] where the states differ by counter arithmetic. *)
Ltac same_outcome :=
  apply pair_equal_spec; split;
  [ reflexivity
  | apply server_eq; cbn; [ reflexivity | lia | lia | lia | reflexivity ] ].

Lemma getGame_eq (id : string) (s : Server) :
  getGame id s = (Ret (games s !! id), s).
Proof. done. Qed.

Lemma find_player_member (playerId : string) (ps : list Player) :
  playerId ∈ p_id <$> ps →
  ∃ i p, list_find (λ p, p_id p = playerId) ps = Some (i, p).
Proof.
  intros Hin. apply list_elem_of_fmap in Hin as (p & -> & Hp).
  destruct (list_find_elem_of (λ q, p_id q = p_id p) ps p Hp eq_refl) as [[i q] Hiq].
  by exists i, q.
Qed.

(** ** Rejected commands *)

(** C3: a [PlayCard] by a member of [players] who is not [currentPlayerId] is
    answered with status 400, "Not your turn", and the whole server state (the
    stored session with all its fields, the oracle counters and the broadcast
    log) stays as it was. *)
Theorem play_not_your_turn (env : Oracle) (s : Server) (gameId playerId cardId : string)
    (game : GameState) :
  games s !! gameId = Some game →
  playerId ∈ p_id <$> players game →
  currentPlayerId game ≠ playerId →
  handlePlay env gameId playerId cardId s = (Ret (json_message 400 "Not your turn"), s).
Proof.
  intros Hg Hin Hcur.
  destruct (find_player_member _ _ Hin) as (i & p & Hfind).
  unfold handlePlay, try_catch.
  rewrite (bind_ret _ _ _ _ _ (getGame_eq gameId s)), Hg, Hfind.
  by rewrite bool_decide_eq_true_2.
Qed.

(** C4: when the session has no [lastPlayedCard] or no [lastPlayerId],
    [AccusePlayer] is answered with status 400, "No card to accuse", and the
    server state stays as it was. *)
Theorem accuse_no_card (env : Oracle) (s : Server) (gameId accusing accused : string)
    (game : GameState) :
  games s !! gameId = Some game →
  lastPlayedCard game = None ∨ lastPlayerId game = None →
  handleAccuse env gameId accusing accused s = (Ret (json_message 400 "No card to accuse"), s).
Proof.
  intros Hg Hunset.
  unfold handleAccuse, try_catch.
  rewrite (bind_ret _ _ _ _ _ (getGame_eq gameId s)), Hg.
  destruct (lastPlayedCard game) as [c|]; [|done].
  destruct Hunset as [|Hl]; [done|]. by rewrite Hl.
Qed.

(** ** The deck generator *)

Lemma tick_tick (u r t u' r' t' : nat) (s : Server) :
  tick u r t (tick u' r' t' s) = tick (u' + u) (r' + r) (t' + t) s.
Proof. unfold tick; simpl. f_equal; lia. Qed.

Lemma tick_zero (s : Server) : tick 0 0 0 s = s.
Proof. destruct s; unfold tick; simpl. f_equal; lia. Qed.

Lemma randomUUID_eq (env : Oracle) (s : Server) :
  randomUUID env s = (Ret (uuid_at env (uuid_calls s)), tick 1 0 0 s).
Proof. unfold randomUUID, tick. do 2 f_equal; lia. Qed.

Lemma Math_random_eq (env : Oracle) (s : Server) :
  Math_random env s = (Ret (random_at env (random_calls s) mod two53)%N, tick 0 1 0 s).
Proof. unfold Math_random, tick. do 2 f_equal; lia. Qed.

Lemma Date_now_eq (env : Oracle) (s : Server) :
  Date_now env s = (Ret (now_at env (now_calls s)), tick 0 0 1 s).
Proof. unfold Date_now, tick. do 2 f_equal; lia. Qed.

(** ** Doubles: the product [Math.random() * n] *)

Section Doubles.
Local Open Scope Z_scope.

Lemma digits2_pos_bounds (p : positive) :
  2 ^ (Z.pos (digits2_pos p) - 1) ≤ Z.pos p < 2 ^ Z.pos (digits2_pos p).
Proof.
  induction p as [p IH|p IH|]; cbn [digits2_pos].
  - rewrite Pos2Z.inj_succ.
    replace (Z.succ (Z.pos (digits2_pos p)) - 1) with (Z.succ (Z.pos (digits2_pos p) - 1)) by lia.
    rewrite !Z.pow_succ_r by lia. lia.
  - rewrite Pos2Z.inj_succ.
    replace (Z.succ (Z.pos (digits2_pos p)) - 1) with (Z.succ (Z.pos (digits2_pos p) - 1)) by lia.
    rewrite !Z.pow_succ_r by lia. lia.
  - cbn. lia.
Qed.

Lemma digits2_pos_unique (p : positive) (d : Z) :
  2 ^ (d - 1) ≤ Z.pos p < 2 ^ d → Z.pos (digits2_pos p) = d.
Proof.
  intros [Hlo Hhi]. pose proof (digits2_pos_bounds p) as [Hlo' Hhi'].
  assert (0 < d).
  { destruct (decide (0 < d)); [done|]. exfalso.
    assert (2 ^ d ≤ 2 ^ 0) by (apply Z.pow_le_mono_r; lia). cbn in *. lia. }
  destruct (Z.lt_trichotomy (Z.pos (digits2_pos p)) d) as [Hlt|[Heq|Hgt]]; [|done|].
  - exfalso. assert (2 ^ Z.pos (digits2_pos p) ≤ 2 ^ (d - 1)) by (apply Z.pow_le_mono_r; lia). lia.
  - exfalso. assert (2 ^ d ≤ 2 ^ (Z.pos (digits2_pos p) - 1)) by (apply Z.pow_le_mono_r; lia). lia.
Qed.

Lemma iter_xO_value (p k : positive) : Z.pos (Pos.iter xO p k) = Z.pos p * 2 ^ Z.pos k.
Proof.
  revert p. induction k as [|k IH] using Pos.peano_ind; intros p.
  - cbn. lia.
  - rewrite Pos.iter_succ, Pos2Z.inj_succ, Z.pow_succ_r by lia.
    rewrite Pos2Z.inj_xO, IH. lia.
Qed.

Lemma iter_pos_iter {A} (f : A → A) (k : positive) (x : A) : iter_pos f k x = Pos.iter f x k.
Proof.
  revert x. induction k as [k IH|k IH|]; intros x; cbn [iter_pos Pos.iter].
  - by rewrite !IH, <-!Pos.iter_swap.
  - by rewrite !IH.
  - done.
Qed.

Lemma shr_1_m (x : shr_record) : 0 ≤ shr_m x → shr_m (shr_1 x) = shr_m x / 2.
Proof.
  destruct x as [[|[p|p|]|p] r s]; cbn [shr_m shr_1]; intros H; try reflexivity; try lia.
  - rewrite Pos2Z.inj_xI. Z.div_mod_to_equations. lia.
  - rewrite Pos2Z.inj_xO. Z.div_mod_to_equations. lia.
Qed.

Lemma shr_1_r (x : shr_record) : 0 ≤ shr_m x → shr_r (shr_1 x) = Z.odd (shr_m x).
Proof. destruct x as [[|[p|p|]|p] r s]; cbn; intros H; try done; lia. Qed.

Lemma iter_shr_1 (k : positive) (x : shr_record) :
  0 ≤ shr_m x →
  shr_m (iter_pos shr_1 k x) = shr_m x / 2 ^ Z.pos k ∧
  shr_r (iter_pos shr_1 k x) = Z.testbit (shr_m x) (Z.pos k - 1).
Proof.
  intros Hx. rewrite iter_pos_iter.
  induction k as [|k IH] using Pos.peano_ind.
  - cbn [Pos.iter]. rewrite shr_1_m, shr_1_r by done. split; [done|].
    by rewrite Z.bit0_odd.
  - destruct IH as [IHm IHr].
    assert (0 ≤ shr_m (Pos.iter shr_1 x k)) as Hpos.
    { rewrite IHm. apply Z.div_pos; lia. }
    rewrite Pos.iter_succ, shr_1_m, shr_1_r, IHm by done.
    rewrite Pos2Z.inj_succ, Z.pow_succ_r by lia. split.
    + assert (0 < 2 ^ Z.pos k) by (apply Z.pow_pos_nonneg; lia).
      rewrite Z.div_div by lia. f_equal. lia.
    + rewrite Z.testbit_odd, Z.shiftr_div_pow2 by lia.
      by replace (Z.succ (Z.pos k) - 1) with (Z.pos k) by lia.
Qed.

Lemma digits2_iter_xO (p k : positive) :
  Z.pos (digits2_pos (Pos.iter xO p k)) = Z.pos (digits2_pos p) + Z.pos k.
Proof.
  apply digits2_pos_unique. rewrite iter_xO_value.
  pose proof (digits2_pos_bounds p) as [Hlo Hhi].
  assert (0 < 2 ^ Z.pos k) by (apply Z.pow_pos_nonneg; lia).
  replace (Z.pos (digits2_pos p) + Z.pos k - 1) with (Z.pos (digits2_pos p) - 1 + Z.pos k) by lia.
  rewrite !Z.pow_add_r by lia. nia.
Qed.

(** A mantissa of 53 digits is kept as it is. *)
Lemma binary_round_aux_exact (sx : bool) (mx : positive) (ex : Z) :
  Z.pos (digits2_pos mx) = 53 → -1074 ≤ ex ≤ 971 →
  binary_round_aux 53 1024 sx (Z.pos mx) ex loc_Exact = S754_finite sx mx ex.
Proof.
  intros Hd He. unfold binary_round_aux, shr_fexp, fexp, emin. cbn [Zdigits2 shr_record_of_loc].
  rewrite Hd. replace (Z.max (53 + ex - 53) (3 - 1024 - 53) - ex) with 0 by lia.
  cbn [shr shr_m loc_of_shr_record round_nearest_even Zdigits2].
  rewrite Hd. replace (Z.max (53 + ex - 53) (3 - 1024 - 53) - ex) with 0 by lia.
  cbn [shr shr_m]. by replace (ex <=? 1024 - 53) with true by lia.
Qed.

(** [double_of] on a positive integer of at most 53 digits: the mantissa is
    shifted to 53 digits and the value is kept. *)
Lemma double_of_pos (p : positive) (e : Z) :
  let d := Z.pos (digits2_pos p) in
  d ≤ 53 → -1074 ≤ d + e - 53 ≤ 971 →
  ∃ M, double_of (Z.pos p) e = S754_finite false M (d + e - 53) ∧
       Z.pos (digits2_pos M) = 53 ∧
       Z.pos M = Z.pos p * 2 ^ (53 - d).
Proof.
  intros d Hd He. unfold double_of, binary_normalize, binary_round, fexp, emin.
  fold d. replace (Z.max (d + e - 53) (3 - 1024 - 53)) with (d + e - 53) by lia.
  unfold shl_align. destruct (d + e - 53 - e) as [|k|k] eqn:Hk; [|lia|].
  - exists p. assert (d = 53) as Hd53 by lia.
    replace (d + e - 53) with e by lia.
    rewrite binary_round_aux_exact by (done || lia).
    rewrite Hd53. cbn. split; [done|]. split; [done|]. lia.
  - exists (Pos.iter xO p k).
    assert (Z.pos (digits2_pos (Pos.iter xO p k)) = 53) as Hd53.
    { rewrite digits2_iter_xO. fold d. lia. }
    rewrite binary_round_aux_exact by (done || lia).
    split; [done|]. split; [done|]. rewrite iter_xO_value. do 2 f_equal. lia.
Qed.

Lemma round_nearest_even_le (x : shr_record) :
  shr_m x ≤ round_nearest_even (shr_m x) (loc_of_shr_record x) ≤ shr_m x + 1 ∧
  (shr_r x = false → round_nearest_even (shr_m x) (loc_of_shr_record x) = shr_m x).
Proof.
  destruct x as [m [|] [|]]; cbn; try destruct (Z.even m); split; (lia || done).
Qed.

(** The product of two doubles is rounded to 53 digits, by at most half a unit
    of the digit that is dropped. *)
Lemma binary_round_aux_le (mx : positive) (ex : Z) :
  let k := Z.pos (digits2_pos mx) - 53 in
  1 ≤ k → -1074 ≤ ex + k ≤ 970 →
  ∃ q e, binary_round_aux 53 1024 false (Z.pos mx) ex loc_Exact = S754_finite false q e ∧
         ex + k ≤ e ≤ ex + k + 1 ∧
         Z.pos q * 2 ^ (e - ex) ≤ Z.pos mx + 2 ^ (k - 1).
Proof.
  intros k Hk He.
  pose proof (digits2_pos_bounds mx) as [Hlo Hhi].
  replace (Z.pos (digits2_pos mx)) with (k + 53) in Hlo, Hhi by lia.
  replace (k + 53 - 1) with (52 + k) in Hlo by lia.
  rewrite Z.pow_add_r in Hlo, Hhi by lia.
  assert (0 < 2 ^ k) as Hk2 by (apply Z.pow_pos_nonneg; lia).
  unfold binary_round_aux, shr_fexp, fexp, emin. cbn [Zdigits2 shr_record_of_loc].
  replace (Z.max (Z.pos (digits2_pos mx) + ex - 53) (3 - 1024 - 53) - ex) with k by lia.
  destruct k as [|kp|kp] eqn:Hkp; [lia| |lia]. cbn [shr].
  set (x := iter_pos shr_1 kp _).
  destruct (iter_shr_1 kp {| shr_m := Z.pos mx; shr_r := false; shr_s := false |}) as [Hm Hr];
    [cbn; lia|].
  fold x in Hm, Hr. cbn [shr_m] in Hm, Hr.
  destruct (round_nearest_even_le x) as [Hq Hq0].
  set (q := round_nearest_even (shr_m x) (loc_of_shr_record x)) in *.
  assert (2 ^ 52 ≤ shr_m x < 2 ^ 53) as Hx.
  { rewrite Hm. split.
    - apply Z.div_le_lower_bound; lia.
    - apply Z.div_lt_upper_bound; lia. }
  (* the rounded mantissa times 2^k is within half a unit of the product *)
  assert (q * 2 ^ Z.pos kp ≤ Z.pos mx + 2 ^ (Z.pos kp - 1)) as Hclose.
  { assert (0 < 2 ^ (Z.pos kp - 1)) as Hh by (apply Z.pow_pos_nonneg; lia).
    assert (2 ^ Z.pos kp = 2 * 2 ^ (Z.pos kp - 1)) as Hsplit.
    { rewrite <-Z.pow_succ_r by lia. f_equal. lia. }
    pose proof (Z.div_mod (Z.pos mx) (2 ^ Z.pos kp) ltac:(lia)) as Hdm.
    pose proof (Z.mod_pos_bound (Z.pos mx) (2 ^ Z.pos kp) ltac:(lia)) as Hmod.
    destruct (shr_r x) eqn:Hrx.
    - (* the dropped part is at least half a unit *)
      assert (2 ^ (Z.pos kp - 1) ≤ Z.pos mx mod 2 ^ Z.pos kp) as Hhalf.
      { symmetry in Hr. apply Z.testbit_true in Hr; [|lia].
        destruct (decide (2 ^ (Z.pos kp - 1) ≤ Z.pos mx mod 2 ^ Z.pos kp)) as [|Hsmall]; [done|].
        exfalso.
        assert (Z.pos mx / 2 ^ (Z.pos kp - 1) = 2 * (Z.pos mx / 2 ^ Z.pos kp)) as Heven.
        { symmetry. apply Z.div_unique_pos with (r := Z.pos mx mod 2 ^ Z.pos kp); [lia|].
          rewrite Hdm at 1. rewrite Hsplit. lia. }
        rewrite Heven, Z.mul_comm, Z.mod_mul in Hr by lia. done. }
      rewrite <-Hm in Hdm. nia.
    - rewrite (Hq0 eq_refl) in *. rewrite <-Hm in Hdm. nia. }
  assert (2 ^ 52 ≤ q ≤ 2 ^ 53) as Hqr by lia.
  destruct q as [|qp|qp] eqn:Hqp; [lia| |lia].
  cbn [Zdigits2 shr_record_of_loc].
  destruct (decide (Z.pos qp < 2 ^ 53)) as [Hlt|Hge].
  - (* no carry *)
    rewrite (digits2_pos_unique qp 53) by (split; [exact (proj1 Hqr)|exact Hlt]).
    replace (Z.max (53 + (ex + Z.pos kp) - 53) (3 - 1024 - 53) - (ex + Z.pos kp)) with 0 by lia.
    cbn [shr shr_m]. replace (ex + Z.pos kp <=? 1024 - 53) with true by lia.
    exists qp, (ex + Z.pos kp). split; [done|]. split; [lia|].
    by replace (ex + Z.pos kp - ex) with (Z.pos kp) by lia.
  - (* the rounding carried to 2^53 *)
    assert (Z.pos qp = 2 ^ 53) as Hq53 by lia.
    rewrite (digits2_pos_unique qp 54) by (rewrite Hq53; cbn; lia).
    replace (Z.max (54 + (ex + Z.pos kp) - 53) (3 - 1024 - 53) - (ex + Z.pos kp)) with 1 by lia.
    cbn [shr iter_pos]. injection Hq53 as ->. cbn [shr_1 shr_m].
    replace (ex + Z.pos kp + 1 <=? 1024 - 53) with true by lia.
    eexists _, _. split; [done|]. split; [lia|].
    replace (ex + Z.pos kp + 1 - ex) with (Z.succ (Z.pos kp)) by lia.
    rewrite Z.pow_succ_r by lia. cbn in Hclose |- *. lia.
Qed.

Lemma digits2_pos_le (p : positive) (d : Z) :
  0 ≤ d → Z.pos p < 2 ^ d → Z.pos (digits2_pos p) ≤ d.
Proof.
  intros Hd Hp. pose proof (digits2_pos_bounds p) as [Hlo _].
  destruct (decide (Z.pos (digits2_pos p) ≤ d)) as [|Hgt]; [done|]. exfalso.
  assert (2 ^ d ≤ 2 ^ (Z.pos (digits2_pos p) - 1)) by (apply Z.pow_le_mono_r; lia). lia.
Qed.

(** [Math.floor(Math.random() * n)] is an index below [n]: the product of a
    double below 1 and [n] is rounded to a double below [n]. *)
Lemma floor_times_lt (m : N) (n : nat) :
  (m < two53)%N → (0 < n)%nat → (N.of_nat n < two53)%N → (floor_times m n < n)%nat.
Proof.
  intros Hm Hn Hn53. unfold floor_times, two53 in *.
  destruct (Z.of_nat n) as [|pn|pn] eqn:Hpn; [lia| |lia].
  assert (Z.pos pn < 2 ^ 53) as HpnB by (cbn; lia).
  pose proof (digits2_pos_le pn 53 ltac:(lia) HpnB) as Hdn.
  pose proof (digits2_pos_bounds pn) as [_ Hdn'].
  destruct (double_of_pos pn 0 Hdn ltac:(lia)) as (Nn & -> & HdN & HN).
  destruct m as [|pm]; [cbn; lia|]. cbn [Z.of_N].
  assert (Z.pos pm < 2 ^ 53) as HpmB by (cbn; lia).
  pose proof (digits2_pos_le pm 53 ltac:(lia) HpmB) as Hdm.
  destruct (double_of_pos pm (-53) Hdm ltac:(lia)) as (M & -> & HdM & HM).
  set (dm := Z.pos (digits2_pos pm)) in *. set (dn := Z.pos (digits2_pos pn)) in *.
  cbn [SFmul xorb].
  pose proof (digits2_pos_bounds M) as HMb. rewrite HdM in HMb.
  pose proof (digits2_pos_bounds Nn) as HNb. rewrite HdN in HNb.
  change (2 ^ (53 - 1)) with 4503599627370496 in HMb, HNb.
  change (2 ^ 53) with 9007199254740992 in HMb, HNb, HpmB, HpnB.
  pose proof (digits2_pos_bounds (M * Nn)) as [Hlo Hhi].
  assert (105 ≤ Z.pos (digits2_pos (M * Nn)) ≤ 106) as Hd.
  { split.
    - destruct (decide (105 ≤ Z.pos (digits2_pos (M * Nn)))) as [|Hlt]; [done|]. exfalso.
      assert (2 ^ Z.pos (digits2_pos (M * Nn)) ≤ 2 ^ 104) by (apply Z.pow_le_mono_r; lia).
      change (2 ^ 104) with (4503599627370496 * 4503599627370496) in *. nia.
    - apply digits2_pos_le; [lia|].
      change (2 ^ 106) with (9007199254740992 * 9007199254740992). nia. }
  destruct (binary_round_aux_le (M * Nn) (dm + -53 - 53 + (dn + 0 - 53)) ltac:(lia) ltac:(lia))
    as (q & e & -> & He & Hq).
  set (k := Z.pos (digits2_pos (M * Nn)) - 53) in *.
  set (ex := dm + -53 - 53 + (dn + 0 - 53)) in *.
  (* the product is below [n] by more than half a unit *)
  assert (Z.pos (M * Nn) + 2 ^ (k - 1) < Z.pos pn * 2 ^ (- ex)) as Hbelow.
  { replace (- ex) with ((53 - dn) + (53 - dm) + 53) by lia.
    rewrite !Z.pow_add_r by lia. rewrite Z.mul_assoc, Z.mul_assoc, <-HN.
    assert (0 < 2 ^ (53 - dm)) as Ha by (apply Z.pow_pos_nonneg; lia).
    assert (0 < 2 ^ (k - 1)) as Hh by (apply Z.pow_pos_nonneg; lia).
    assert (2 ^ (k - 1) < Z.pos Nn) as Hhalf.
    { replace (Z.pos (digits2_pos (M * Nn)) - 1) with (53 + (k - 1)) in Hlo by lia.
      rewrite Z.pow_add_r in Hlo by lia. change (2 ^ 53) with 9007199254740992 in Hlo.
      rewrite Pos2Z.inj_mul in Hlo.
      apply Z.nle_gt. intros Hle.
      assert (Z.pos M * Z.pos Nn ≤ Z.pos M * 2 ^ (k - 1))
        by (apply Z.mul_le_mono_nonneg_l; lia).
      assert (Z.pos M * 2 ^ (k - 1) < 9007199254740992 * 2 ^ (k - 1))
        by (apply Z.mul_lt_mono_pos_r; lia).
      lia. }
    rewrite Pos2Z.inj_mul, HM. change (2 ^ 53) with 9007199254740992.
    set (P := Z.pos Nn * 2 ^ (53 - dm)).
    replace (Z.pos pm * 2 ^ (53 - dm) * Z.pos Nn) with (Z.pos pm * P) by (unfold P; lia).
    assert (Z.pos Nn ≤ P).
    { unfold P. rewrite <-(Z.mul_1_r (Z.pos Nn)) at 1.
      apply Z.mul_le_mono_nonneg_l; lia. }
    assert (Z.pos pm * P ≤ 9007199254740991 * P)
      by (apply Z.mul_le_mono_nonneg_r; lia).
    lia. }
  assert (Math_floor (S754_finite false q e) < Z.pos pn); [|lia].
  assert (0 < 2 ^ (e - ex)) as HT by (apply Z.pow_pos_nonneg; lia).
  unfold Math_floor. destruct (0 <=? e) eqn:Hsign.
  - apply Z.leb_le in Hsign.
    replace (e - ex) with (e + - ex) in Hq by lia.
    rewrite Z.pow_add_r in Hq by lia.
    assert (0 < 2 ^ (- ex)) as HF by (apply Z.pow_pos_nonneg; lia).
    apply (Z.mul_lt_mono_pos_r (2 ^ (- ex))); [exact HF|].
    rewrite <-Z.mul_assoc. lia.
  - apply Z.leb_gt in Hsign.
    replace (- ex) with (- e + (e - ex)) in Hbelow by lia.
    rewrite Z.pow_add_r in Hbelow by lia.
    assert (0 < 2 ^ (- e)) by (apply Z.pow_pos_nonneg; lia).
    apply Z.div_lt_upper_bound; [done|].
    apply (Z.mul_lt_mono_pos_r (2 ^ (e - ex))); [exact HT|].
    replace (2 ^ (- e) * Z.pos pn * 2 ^ (e - ex))
      with (Z.pos pn * (2 ^ (- e) * 2 ^ (e - ex))) by lia.
    lia.
Qed.

End Doubles.

(** The rounding shows: the exact product is just below 35, the double is 35. *)
Example floor_times_rounds :
  floor_times 8756999275442631 36 = 35 ∧
  (8756999275442631 * 36 / two53 = 34)%N.
Proof. split; reflexivity. Qed.

Lemma random_in_range (env : Oracle) (k : nat) : (random_at env k mod two53 < two53)%N.
Proof. by apply N.mod_lt. Qed.

Lemma swap_Permutation (i j : nat) (deck : list Card) : swap i j deck ≡ₚ deck.
Proof.
  unfold swap.
  destruct (deck !! i) as [di|] eqn:Hi; [|done].
  destruct (deck !! j) as [dj|] eqn:Hj; [|done].
  destruct (decide (i = j)) as [->|Hne].
  - assert (di = dj) as -> by congruence.
    by rewrite !list_insert_id by (by rewrite ?list_insert_id).
  - assert (<[i:=dj]> deck !! j = Some dj) as Hj' by (by rewrite list_lookup_insert_ne).
    rewrite (insert_take_drop (<[i:=dj]> deck) j di) by (by eapply lookup_lt_Some).
    rewrite <-Permutation_middle, <-delete_take_drop.
    etrans; [|symmetry; apply (delete_Permutation deck i di Hi)]. constructor.
    apply (Permutation_cons_inv (a := dj)).
    etrans; [symmetry; apply (delete_Permutation _ j dj Hj')|].
    rewrite (insert_take_drop deck i dj) by (by eapply lookup_lt_Some).
    by rewrite <-Permutation_middle, <-delete_take_drop.
Qed.

Lemma push_cards_eq (env : Oracle) (n : nat) (ty : CardType) (deck : list Card) (s : Server) :
  push_cards env n ty deck s
  = (Ret (deck ++ fresh_cards env ty (uuid_calls s) n), tick n 0 0 s).
Proof.
  revert deck s. induction n as [|n IH]; intros deck s; simpl.
  - unfold fresh_cards. simpl. by rewrite app_nil_r, tick_zero.
  - rewrite (bind_ret _ _ _ _ _ (randomUUID_eq env s)), IH, tick_tick.
    unfold fresh_cards. simpl. rewrite <-app_assoc. simpl.
    by replace (uuid_calls s + 1) with (S (uuid_calls s)) by lia.
Qed.

Lemma shuffle_from_eq (env : Oracle) (k : nat) (deck : list Card) (s : Server) :
  ∃ deck', shuffle_from env k deck s = (Ret deck', tick 0 k 0 s) ∧ deck' ≡ₚ deck.
Proof.
  revert deck s. induction k as [|k IH]; intros deck s; cbn [shuffle_from].
  - exists deck. by rewrite tick_zero.
  - rewrite (bind_ret _ _ _ _ _ (Math_random_eq env s)).
    edestruct IH as (deck' & Heq & Hperm). rewrite Heq.
    exists deck'. rewrite tick_tick. split; [done|].
    by rewrite Hperm, swap_Permutation.
Qed.

(** Every index the shuffle swaps lies inside the deck. *)
Lemma shuffle_index_in_range (m : N) (k : nat) (deck : list Card) :
  (m < two53)%N → k < length deck → length deck ≤ 60 →
  floor_times m (k + 1) ≤ k ∧
  is_Some (deck !! k) ∧ is_Some (deck !! floor_times m (k + 1)).
Proof.
  intros Hm Hk Hlen.
  pose proof (floor_times_lt m (k + 1) Hm ltac:(lia) ltac:(unfold two53; lia)).
  split; [lia|]. split; apply lookup_lt_is_Some; lia.
Qed.

Lemma createDeck_eq (env : Oracle) (s : Server) :
  ∃ deck, createDeck env s = (Ret deck, tick 60 59 0 s) ∧
          deck ≡ₚ fresh_cards env truth (uuid_calls s) 30
                  ++ fresh_cards env lie (uuid_calls s + 30) 30.
Proof.
  unfold createDeck.
  rewrite (bind_ret _ _ _ _ _ (push_cards_eq env 30 truth [] s)).
  rewrite (bind_ret _ _ _ _ _ (push_cards_eq env 30 lie _ _)).
  match goal with |- context [shuffle_from env ?k ?d ?t] =>
    destruct (shuffle_from_eq env k d t) as (deck & Heq & Hperm) end.
  exists deck. split; [|done].
  rewrite Heq, tick_tick, tick_tick. do 2 f_equal.
Qed.

Lemma count_type_fresh (env : Oracle) (ty ty' : CardType) (k n : nat) :
  count_type ty (fresh_cards env ty' k n) = if decide (ty' = ty) then n else 0.
Proof.
  unfold count_type, fresh_cards. revert k.
  induction n as [|n IH]; intros k.
  - by case_decide.
  - cbn [seq fmap list_fmap]. rewrite filter_cons. cbn [c_type].
    specialize (IH (S k)). cbn [fmap] in IH.
    destruct (decide (ty' = ty)); cbn [length]; by rewrite IH.
Qed.

Lemma fresh_cards_ids (env : Oracle) (ty : CardType) (k n : nat) :
  c_id <$> fresh_cards env ty k n = uuid_at env <$> seq k n.
Proof. unfold fresh_cards. rewrite <-list_fmap_compose. done. Qed.

(** Size and balance of the deck hold whatever the oracle hands out. *)
Lemma createDeck_counts (env : Oracle) (s : Server) :
  ∃ deck, createDeck env s = (Ret deck, tick 60 59 0 s) ∧
          length deck = 60 ∧
          count_type truth deck = 30 ∧
          count_type lie deck = 30 ∧
          c_id <$> deck ≡ₚ uuid_at env <$> seq (uuid_calls s) 60.
Proof.
  destruct (createDeck_eq env s) as (deck & Heq & Hperm).
  exists deck. split; [exact Heq|].
  unfold count_type. rewrite !Hperm, !filter_app, !length_app.
  fold (count_type truth (fresh_cards env truth (uuid_calls s) 30)).
  fold (count_type truth (fresh_cards env lie (uuid_calls s + 30) 30)).
  fold (count_type lie (fresh_cards env truth (uuid_calls s) 30)).
  fold (count_type lie (fresh_cards env lie (uuid_calls s + 30) 30)).
  rewrite !count_type_fresh.
  split; [|split; [|split]].
  - unfold fresh_cards. rewrite !length_fmap, !length_seq. reflexivity.
  - reflexivity.
  - reflexivity.
  - rewrite fmap_app, !fresh_cards_ids, <-fmap_app, <-(seq_app 30 30). reflexivity.
Qed.




(** ** [PlayCard] *)

Lemma list_find_insert_same {A} (P : A → Prop) `{!∀ x, Decision (P x)}
    (l : list A) (i : nat) (x y : A) :
  list_find P l = Some (i, x) → P y → list_find P (<[i:=y]> l) = Some (i, y).
Proof.
  intros Hfind Hy. apply list_find_Some in Hfind as (Hi & _ & Hbefore).
  apply list_find_Some. split_and!.
  - apply list_lookup_insert_eq. by eapply lookup_lt_Some.
  - done.
  - intros j z Hj Hlt. rewrite list_lookup_insert_ne in Hj by lia. eauto.
Qed.

Lemma next_index_some (ps : list Player) (i : nat) (p : Player) :
  ps !! i = Some p → is_Some (ps !! ((i + 1) mod length ps)).
Proof.
  intros Hi. apply lookup_lt_is_Some. apply lookup_lt_Some in Hi.
  apply Nat.mod_upper_bound. lia.
Qed.

Lemma handlePlay_ok (env : Oracle) (s : Server) (gameId playerId cardId : string)
    (game : GameState) (pi ci : nat) (player : Player) (card : Card) :
  games s !! gameId = Some game →
  list_find (λ p, p_id p = playerId) (players game) = Some (pi, player) →
  currentPlayerId game = playerId →
  list_find (λ c, c_id c = cardId) (cards player) = Some (ci, card) →
  let hand := delete ci (cards player) in
  let player' := with_cardCount (length hand) (with_cards hand player) in
  let ps := <[pi := player']> (players game) in
  ∃ g' nextPlayer,
    handlePlay env gameId playerId cardId s
      = (Ret (json_game g'), commit gameId g' msg_card_played 1 0 1 s) ∧
    ps !! ((pi + 1) mod length ps) = Some nextPlayer ∧
    g_id g' = g_id game ∧
    phase g' = (if bool_decide (length hand = 0) then finished else phase game) ∧
    players g' = ps ∧
    currentPlayerId g' = (if bool_decide (length hand = 0) then currentPlayerId game
                          else p_id nextPlayer) ∧
    centerPile g' = centerPile game ++ [card] ∧
    lastPlayedCard g' = Some card ∧
    lastPlayerId g' = Some playerId ∧
    accusingPlayerId g' = accusingPlayerId game ∧
    revealedCard g' = revealedCard game ∧
    events g' = events game ++
      [ {| e_id := uuid_at env (uuid_calls s); e_type := card_played;
           e_playerId := p_id player; e_playerName := p_name player;
           targetId := None; targetName := None; cardType := None;
           timestamp := now_at env (now_calls s);
           message := p_name player +:+
                      (if bool_decide (length hand = 0) then " a gagné la partie !"
                       else " a joué une carte") |} ] ∧
    turnTimer g' = turnTimer game ∧
    maxPlayers g' = maxPlayers game ∧
    minPlayers g' = minPlayers game.
Proof.
  intros Hg Hp Hcur Hc hand player' ps.
  assert (Hp' : list_find (λ p, p_id p = playerId) ps = Some (pi, player')).
  { apply (list_find_insert_same _ _ _ player); [done|].
    apply list_find_Some in Hp as (_ & Hid & _). done. }
  destruct (next_index_some ps pi player') as [nextPlayer Hnext].
  { by apply list_find_Some in Hp' as (? & _). }
  unfold handlePlay, try_catch.
  rewrite (bind_ret _ _ _ _ _ (getGame_eq gameId s)), Hg, Hp.
  rewrite bool_decide_eq_false_2 by (intros ?; congruence).
  rewrite Hc. cbn [cards with_cards with_cardCount].
  fold hand. fold player'. cbn [players with_players with_centerPile with_lastPlayedCard
    with_lastPlayerId]. fold ps.
  destruct (bool_decide (length hand = 0)) eqn:Hwon.
  - eexists _, nextPlayer. split.
    { cbv [mbind M_bind mret M_ret played_event randomUUID Date_now games_set updateGame
           broadcastToGame commit]. cbn.
      same_outcome. }
    split_and!; reflexivity || assumption.
  - rewrite Hp', Hnext.
    eexists _, nextPlayer. split.
    { cbv [mbind M_bind mret M_ret played_event randomUUID Date_now games_set updateGame
           broadcastToGame commit]. cbn.
      same_outcome. }
    split_and!; reflexivity || assumption.
Qed.

Lemma handlePlay_cases (env : Oracle) (s : Server) (gameId playerId cardId : string) :
  (∃ status msg,
      handlePlay env gameId playerId cardId s = (Ret (json_message status msg), s)) ∨
  (∃ game pi player ci card,
      games s !! gameId = Some game ∧
      list_find (λ p, p_id p = playerId) (players game) = Some (pi, player) ∧
      currentPlayerId game = playerId ∧
      list_find (λ c, c_id c = cardId) (cards player) = Some (ci, card)).
Proof.
  destruct (games s !! gameId) as [game|] eqn:Hg.
  2: { left. eexists _, _. unfold handlePlay, try_catch.
       by rewrite (bind_ret _ _ _ _ _ (getGame_eq gameId s)), Hg. }
  destruct (list_find (λ p, p_id p = playerId) (players game)) as [[pi player]|] eqn:Hp.
  2: { left. eexists _, _. unfold handlePlay, try_catch.
       by rewrite (bind_ret _ _ _ _ _ (getGame_eq gameId s)), Hg, Hp. }
  destruct (decide (currentPlayerId game = playerId)) as [Hcur|Hcur].
  2: { left. eexists _, _. unfold handlePlay, try_catch.
       rewrite (bind_ret _ _ _ _ _ (getGame_eq gameId s)), Hg, Hp.
       by rewrite bool_decide_eq_true_2. }
  destruct (list_find (λ c, c_id c = cardId) (cards player)) as [[ci card]|] eqn:Hc.
  2: { left. eexists _, _. unfold handlePlay, try_catch.
       rewrite (bind_ret _ _ _ _ _ (getGame_eq gameId s)), Hg, Hp.
       rewrite bool_decide_eq_false_2 by (intros ?; congruence).
       by rewrite Hc. }
  right. by exists game, pi, player, ci, card.
Qed.

Lemma commit_lookup (gameId : string) (g : GameState) (ty : MessageType) (u r t : nat)
    (s : Server) :
  games (commit gameId g ty u r t s) !! gameId = Some g.
Proof.
  unfold commit. cbn [games].
  destruct (decide (g_id g = gameId)) as [->|Hne].
  - by rewrite lookup_insert_eq.
  - by rewrite lookup_insert_ne, lookup_insert_eq.
Qed.

(** C5: when [PlayCard] succeeds, the first card of the player's hand with the
    given id has left the hand and is the new last element of [centerPile],
    [lastPlayedCard] and [lastPlayerId] name it and the player; with an empty
    hand the phase is finished and [currentPlayerId] is as before, otherwise
    [currentPlayerId] is the id of the player at the next index of [players],
    wrapping around, and the phase is as before. *)
Theorem play_success (env : Oracle) (s s' : Server) (gameId playerId cardId : string)
    (g' : GameState) :
  handlePlay env gameId playerId cardId s = (Ret (json_game g'), s') →
  ∃ game pi player ci card,
    games s !! gameId = Some game ∧
    games s' !! gameId = Some g' ∧
    list_find (λ p, p_id p = playerId) (players game) = Some (pi, player) ∧
    list_find (λ c, c_id c = cardId) (cards player) = Some (ci, card) ∧
    let hand := delete ci (cards player) in
    players g' = <[pi := with_cardCount (length hand) (with_cards hand player)]> (players game) ∧
    centerPile g' = centerPile game ++ [card] ∧
    lastPlayedCard g' = Some card ∧
    lastPlayerId g' = Some playerId ∧
    if bool_decide (length hand = 0)
    then phase g' = finished ∧ currentPlayerId g' = currentPlayerId game
    else phase g' = phase game ∧
         p_id <$> players g' !! ((pi + 1) mod length (players g')) = Some (currentPlayerId g').
Proof.
  intros Hrun.
  destruct (handlePlay_cases env s gameId playerId cardId)
    as [(status & msg & Hfail)|(game & pi & player & ci & card & Hg & Hp & Hcur & Hc)].
  { rewrite Hfail in Hrun. discriminate. }
  destruct (handlePlay_ok env s gameId playerId cardId game pi ci player card Hg Hp Hcur Hc)
    as (g'' & nextPlayer & Heq & Hnext & _ & Hphase & Hps & Hcurrent & Hpile & Hcard & Hlast & _).
  rewrite Heq in Hrun. injection Hrun as -> <-.
  exists game, pi, player, ci, card. cbv zeta in *.
  split_and!; try done.
  - apply commit_lookup.
  - rewrite Hps.
    destruct (bool_decide (length (delete ci (cards player)) = 0)); [done|].
    split; [done|]. by rewrite Hnext, Hcurrent.
Qed.

(** ** [AccusePlayer] *)

Lemma penalty_loop_eq (env : Oracle) (n : nat) (cs : list Card) (s : Server) :
  ∃ cs', penalty_loop env n cs s = (Ret (cs ++ cs'), tick n n 0 s) ∧ length cs' = n.
Proof.
  revert cs s. induction n as [|n IH]; intros cs s; cbn [penalty_loop].
  - exists []. by rewrite app_nil_r, tick_zero.
  - rewrite (bind_ret _ _ _ _ _ (randomUUID_eq env s)).
    rewrite (bind_ret _ _ _ _ _ (Math_random_eq env _)).
    edestruct IH as (cs' & Heq & Hlen). rewrite Heq.
    eexists (_ :: cs'). rewrite <-app_assoc, !tick_tick. cbn [app length].
    split; [reflexivity|]. by rewrite Hlen.
Qed.

Lemma createPenaltyCards_eq (env : Oracle) (s : Server) :
  ∃ deck, createPenaltyCards env s = (Ret deck, tick 10 10 0 s) ∧ length deck = 10.
Proof.
  destruct (penalty_loop_eq env 10 [] s) as (cs' & Heq & Hlen).
  exists cs'. by split.
Qed.

Lemma handleAccuse_ok (env : Oracle) (s : Server) (gameId accusing accused : string)
    (game : GameState) (lastCard : Card) (ai di : nat) (ap dp : Player) :
  games s !! gameId = Some game →
  lastPlayedCard game = Some lastCard →
  falsy (lastPlayerId game) = false →
  list_find (λ p, p_id p = accusing) (players game) = Some (ai, ap) →
  list_find (λ p, p_id p = accused) (players game) = Some (di, dp) →
  let wasLie := bool_decide (c_type lastCard = lie) in
  let penaltyIndex := if wasLie then di else ai in
  let penaltyPlayer := if wasLie then dp else ap in
  ∃ g' deck,
    handleAccuse env gameId accusing accused s
      = (Ret (json_game g'), commit gameId g' msg_accusation 11 10 1 s) ∧
    createPenaltyCards env s = (Ret deck, tick 10 10 0 s) ∧
    length deck = 10 ∧
    let hand := cards penaltyPlayer ++ take 3 deck in
    g_id g' = g_id game ∧
    phase g' = revelation ∧
    players g' = <[penaltyIndex := with_cardCount (length hand) (with_cards hand penaltyPlayer)]>
                   (players game) ∧
    currentPlayerId g' = currentPlayerId game ∧
    centerPile g' = centerPile game ∧
    lastPlayedCard g' = Some lastCard ∧
    lastPlayerId g' = lastPlayerId game ∧
    accusingPlayerId g' = Some accusing ∧
    revealedCard g' = Some lastCard ∧
    events g' = events game ++
      [ {| e_id := uuid_at env (uuid_calls s + 10); e_type := ev_accusation;
           e_playerId := p_id ap; e_playerName := p_name ap;
           targetId := Some (p_id dp); targetName := Some (p_name dp);
           cardType := Some (c_type lastCard);
           timestamp := now_at env (now_calls s);
           message := p_name ap +:+ " a accusé " +:+ p_name dp +:+ " - " +:+
                      (if wasLie then "Mensonge révélé!" else "Vérité révélée!") |} ] ∧
    turnTimer g' = turnTimer game ∧
    maxPlayers g' = maxPlayers game ∧
    minPlayers g' = minPlayers game.
Proof.
  intros Hg Hcard Hlast Ha Hd wasLie penaltyIndex penaltyPlayer.
  destruct (createPenaltyCards_eq env s) as (deck & Hdeck & Hlen).
  unfold handleAccuse, try_catch.
  rewrite (bind_ret _ _ _ _ _ (getGame_eq gameId s)), Hg, Hcard, Hlast, Ha, Hd.
  fold wasLie.
  assert ((if wasLie then (di, dp) else (ai, ap)) = (penaltyIndex, penaltyPlayer)) as ->.
  { unfold penaltyIndex, penaltyPlayer. by destruct wasLie. }
  rewrite (bind_ret _ _ _ _ _ Hdeck).
  eexists _, deck. split.
  { cbv [mbind M_bind mret M_ret randomUUID Date_now games_set updateGame
         broadcastToGame commit tick]. cbn. rewrite !Nat.add_0_r.
    same_outcome. }
  split_and!; reflexivity || assumption.
Qed.

Lemma handleAccuse_cases (env : Oracle) (s : Server) (gameId accusing accused : string) :
  (∃ status msg,
      handleAccuse env gameId accusing accused s = (Ret (json_message status msg), s)) ∨
  (∃ game lastCard ai ap di dp,
      games s !! gameId = Some game ∧
      lastPlayedCard game = Some lastCard ∧
      falsy (lastPlayerId game) = false ∧
      list_find (λ p, p_id p = accusing) (players game) = Some (ai, ap) ∧
      list_find (λ p, p_id p = accused) (players game) = Some (di, dp)).
Proof.
  unfold handleAccuse, try_catch.
  rewrite (bind_ret _ _ _ _ _ (getGame_eq gameId s)).
  destruct (games s !! gameId) as [game|] eqn:Hg; [|left; by eexists _, _].
  destruct (lastPlayedCard game) as [lastCard|] eqn:Hcard; [|left; by eexists _, _].
  destruct (falsy (lastPlayerId game)) eqn:Hlast; [left; by eexists _, _|].
  destruct (list_find (λ p, p_id p = accusing) (players game)) as [[ai ap]|] eqn:Ha;
    [|left; by eexists _, _].
  destruct (list_find (λ p, p_id p = accused) (players game)) as [[di dp]|] eqn:Hd;
    [|left; by eexists _, _].
  right. by exists game, lastCard, ai, ap, di, dp.
Qed.

(** C1 (as amended): with a last played card and a non-empty [lastPlayerId] in
    the session and both ids naming members, [AccusePlayer] succeeds and gives
    three penalty cards to the first player whose id is [accusedPlayerId] when
    the card is a lie, and to the accusing player otherwise; no other hand
    changes, and the value of [lastPlayerId] plays no part in the choice. *)
Theorem accuse_penalty (env : Oracle) (s : Server) (gameId accusing accused lastId : string)
    (game : GameState) (lastCard : Card) (ai di : nat) (ap dp : Player) :
  games s !! gameId = Some game →
  lastPlayedCard game = Some lastCard →
  lastPlayerId game = Some lastId →
  lastId ≠ "" →
  list_find (λ p, p_id p = accusing) (players game) = Some (ai, ap) →
  list_find (λ p, p_id p = accused) (players game) = Some (di, dp) →
  ∃ g' penaltyCards,
    (handleAccuse env gameId accusing accused s).1 = Ret (json_game g') ∧
    length penaltyCards = 3 ∧
    players g' =
      if bool_decide (c_type lastCard = lie)
      then <[di := with_cardCount (length (cards dp ++ penaltyCards))
                     (with_cards (cards dp ++ penaltyCards) dp)]> (players game)
      else <[ai := with_cardCount (length (cards ap ++ penaltyCards))
                     (with_cards (cards ap ++ penaltyCards) ap)]> (players game).
Proof.
  intros Hg Hcard Hlast Hne Ha Hd.
  assert (Hfalsy : falsy (lastPlayerId game) = false).
  { rewrite Hlast. cbn. by apply bool_decide_eq_false_2. }
  destruct (handleAccuse_ok env s gameId accusing accused game lastCard ai di ap dp
              Hg Hcard Hfalsy Ha Hd)
    as (g' & deck & Heq & _ & Hlen & _ & _ & Hps & _).
  exists g', (take 3 deck). rewrite Heq. split_and!.
  - done.
  - rewrite length_take. lia.
  - rewrite Hps. by destruct (bool_decide (c_type lastCard = lie)).
Qed.

Lemma accuse_penalty_witness :
  ∃ g' penaltyCards,
    (handleAccuse sample_env "ROOM01" "b" "c" tiny_server).1 = Ret (json_game g') ∧
    length penaltyCards = 3 ∧
    players g' =
      <[2 := with_cardCount (length ([ {| c_id := "k4"; c_type := lie |} ] ++ penaltyCards))
               (with_cards ([ {| c_id := "k4"; c_type := lie |} ] ++ penaltyCards)
                  (tiny_player "c" "Carol" [ {| c_id := "k4"; c_type := lie |} ]))]>
        (players tiny_game).
Proof.
  apply (accuse_penalty sample_env tiny_server "ROOM01" "b" "c" "a" tiny_game
           {| c_id := "k0"; c_type := lie |} 1 2
           (tiny_player "b" "Bob" [ {| c_id := "k2"; c_type := truth |};
                                    {| c_id := "k3"; c_type := lie |} ])
           (tiny_player "c" "Carol" [ {| c_id := "k4"; c_type := lie |} ]));
    [reflexivity | reflexivity | reflexivity | discriminate | reflexivity | reflexivity].
Defined.

(** C1 as stated fails: Alice played the lie last ([lastPlayerId] is hers),
    Bob accuses naming Carol; the three penalty cards land in Carol's hand and
    Alice's hand is what it was. *)
Lemma accuse_penalty_ignores_last_player :
  ∃ g', (handleAccuse sample_env "ROOM01" "b" "c" tiny_server).1 = Ret (json_game g') ∧
        c_type <$> lastPlayedCard tiny_game = Some lie ∧
        lastPlayerId tiny_game = Some "a" ∧
        hand_of "a" g' = hand_of "a" tiny_game ∧
        length <$> hand_of "c" tiny_game = Some 1 ∧
        length <$> hand_of "c" g' = Some 4.
Proof. eexists. split; [vm_compute; reflexivity|]. by vm_compute. Qed.

(** ** Counting cards *)

Lemma sum_list_insert (l : list nat) (i x y : nat) :
  l !! i = Some x → sum_list (<[i:=y]> l) + x = sum_list l + y.
Proof.
  revert i. induction l as [|z l IH]; intros [|i] Hi; simplify_eq/=.
  - lia.
  - specialize (IH i Hi). lia.
Qed.

Lemma total_cards_insert (g g' : GameState) (i : nat) (p p' : Player) :
  players g !! i = Some p →
  players g' = <[i := p']> (players g) →
  total_cards g' + length (cards p) + length (centerPile g)
  = total_cards g + length (cards p') + length (centerPile g').
Proof.
  intros Hi Hps. unfold total_cards. rewrite Hps, list_fmap_insert.
  pose proof (sum_list_insert (length ∘ cards <$> players g) i
                (length (cards p)) (length (cards p'))) as Hsum.
  rewrite list_lookup_fmap, Hi in Hsum. specialize (Hsum eq_refl).
  cbn [compose] in *. lia.
Qed.

Lemma fmap_some_ret (m : M Response) (s s' : Server) (r : option Response) :
  (Some <$> m) s = (Ret r, s') → ∃ r', r = Some r' ∧ m s = (Ret r', s').
Proof.
  unfold fmap, M_fmap. destruct (m s) as [[r'|msg] s'']; intros [= <- <-]. eauto.
Qed.

(** C6: a [PlayCard] that succeeds leaves the number of cards of the session
    (all hands plus [centerPile]) as it was, and an [AccusePlayer] that
    succeeds raises it by 3. *)
Theorem card_count_conservation (env : Oracle) (s s' : Server) (c : Command)
    (gameId : string) (game g' : GameState) :
  target c = Some gameId →
  games s !! gameId = Some game →
  exec env c s = (Ret (Some (json_game g')), s') →
  match c with
  | PlayCard _ _ _ => total_cards g' = total_cards game
  | AccusePlayer _ _ _ => total_cards g' = total_cards game + 3
  | _ => True
  end.
Proof.
  intros Htarget Hg Hrun. destruct c as [| | |gid playerId cardId|gid accusing accused| |];
    try exact I; cbn in Htarget; simplify_eq; cbn [exec] in Hrun;
    apply fmap_some_ret in Hrun as (r & [= <-] & Hrun).
  - destruct (handlePlay_cases env s gameId playerId cardId)
      as [(status & msg & Hfail)|(game' & pi & player & ci & card & Hg' & Hp & Hcur & Hc)].
    { rewrite Hfail in Hrun. discriminate. }
    assert (game' = game) as -> by congruence.
    destruct (handlePlay_ok env s gameId _ cardId game pi ci player card Hg Hp Hcur Hc)
      as (g'' & _ & Heq & _ & _ & _ & Hps & _ & Hpile & _).
    rewrite Heq in Hrun. injection Hrun as -> <-.
    apply list_find_Some in Hp as (Hpi & _). apply list_find_Some in Hc as (Hci & _).
    pose proof (total_cards_insert game g' pi player _ Hpi Hps) as Htotal.
    cbn [cards with_cards with_cardCount] in Htotal.
    rewrite Hpile, length_app, length_delete in Htotal by eauto.
    apply lookup_lt_Some in Hci. cbn [length] in Htotal. lia.
  - destruct (handleAccuse_cases env s gameId accusing accused)
      as [(status & msg & Hfail)
         |(game' & lastCard & ai & ap & di & dp & Hg' & Hcard & Hlast & Ha & Hd)].
    { rewrite Hfail in Hrun. discriminate. }
    assert (game' = game) as -> by congruence.
    destruct (handleAccuse_ok env s gameId accusing accused game lastCard ai di ap dp
                Hg Hcard Hlast Ha Hd)
      as (g'' & deck & Heq & _ & Hlen & _ & _ & Hps & _ & Hpile & _).
    rewrite Heq in Hrun. injection Hrun as -> <-.
    apply list_find_Some in Ha as (Hai & _). apply list_find_Some in Hd as (Hdi & _).
    destruct (bool_decide (c_type lastCard = lie)).
    + pose proof (total_cards_insert game g' di dp _ Hdi Hps) as Htotal.
      cbn [cards with_cards with_cardCount] in Htotal.
      rewrite Hpile, length_app, length_take in Htotal. lia.
    + pose proof (total_cards_insert game g' ai ap _ Hai Hps) as Htotal.
      cbn [cards with_cards with_cardCount] in Htotal.
      rewrite Hpile, length_app, length_take in Htotal. lia.
Qed.

Lemma card_count_conservation_witness :
  ∃ g' s',
    exec sample_env (AccusePlayer "ROOM01" "b" "c") tiny_server
      = (Ret (Some (json_game g')), s') ∧
    total_cards g' = total_cards tiny_game + 3.
Proof.
  eexists _, _. split; [vm_compute; reflexivity|].
  eapply (card_count_conservation sample_env tiny_server _
            (AccusePlayer "ROOM01" "b" "c") "ROOM01" tiny_game);
    [reflexivity | reflexivity | vm_compute; reflexivity].
Defined.

(** ** [PlayCard] looks at no phase *)

Lemma GameState_ext (a b : GameState) :
  g_id a = g_id b → phase a = phase b → players a = players b →
  currentPlayerId a = currentPlayerId b → centerPile a = centerPile b →
  lastPlayedCard a = lastPlayedCard b → lastPlayerId a = lastPlayerId b →
  accusingPlayerId a = accusingPlayerId b → revealedCard a = revealedCard b →
  events a = events b → turnTimer a = turnTimer b → maxPlayers a = maxPlayers b →
  minPlayers a = minPlayers b → a = b.
Proof. destruct a, b; cbn; intros; by simplify_eq. Qed.

Lemma find_card_member (cardId : string) (hand : list Card) :
  cardId ∈ c_id <$> hand →
  ∃ i c, list_find (λ c, c_id c = cardId) hand = Some (i, c).
Proof.
  intros Hin. apply list_elem_of_fmap in Hin as (c & -> & Hc).
  destruct (list_find_elem_of (λ d, c_id d = c_id c) hand c Hc eq_refl) as [[i d] Hid].
  by exists i, d.
Qed.

(** C10: in whatever phase the session is, a [PlayCard] by [currentPlayerId]
    with a card of that player's hand succeeds: the card leaves the hand and
    goes on top of [centerPile], it becomes the last played card and the
    player the last player, and the phase turns to finished when the hand is
    empty and is kept otherwise.  The session this produces is the one the
    same call produces when the phase is playing, except that a play that
    does not end the game keeps the phase the session had. *)
Theorem play_ignores_phase (env : Oracle) (s : Server) (gameId playerId cardId : string)
    (game : GameState) (pi : nat) (player : Player) :
  games s !! gameId = Some game →
  list_find (λ p, p_id p = playerId) (players game) = Some (pi, player) →
  currentPlayerId game = playerId →
  cardId ∈ c_id <$> cards player →
  ∃ ci card g' gp,
    list_find (λ c, c_id c = cardId) (cards player) = Some (ci, card) ∧
    (handlePlay env gameId playerId cardId s).1 = Ret (json_game g') ∧
    games (handlePlay env gameId playerId cardId s).2 !! gameId = Some g' ∧
    players g' = <[pi := with_cardCount (length (delete ci (cards player)))
                           (with_cards (delete ci (cards player)) player)]> (players game) ∧
    centerPile g' = centerPile game ++ [card] ∧
    lastPlayedCard g' = Some card ∧
    lastPlayerId g' = Some playerId ∧
    phase g' = (if bool_decide (length (delete ci (cards player)) = 0)
                then finished else phase game) ∧
    (handlePlay env gameId playerId cardId (put_game gameId (with_phase playing game) s)).1
      = Ret (json_game gp) ∧
    g' = if bool_decide (phase gp = finished) then gp else with_phase (phase game) gp.
Proof.
  intros Hg Hp Hcur Hin.
  destruct (find_card_member _ _ Hin) as (ci & card & Hc).
  destruct (handlePlay_ok env s gameId playerId cardId game pi ci player card Hg Hp Hcur Hc)
    as (g' & next & Heq & Hnext & H1 & H2 & H3 & H4 & H5 & H6 & H7 & H8 & H9 & H10
        & H11 & H12 & H13).
  assert (Hg2 : games (put_game gameId (with_phase playing game) s) !! gameId
                = Some (with_phase playing game)).
  { cbn. by rewrite lookup_insert_eq. }
  destruct (handlePlay_ok env _ gameId playerId cardId (with_phase playing game)
              pi ci player card Hg2 Hp Hcur Hc)
    as (gp & next' & Heq' & Hnext' & K1 & K2 & K3 & K4 & K5 & K6 & K7 & K8 & K9 & K10
        & K11 & K12 & K13).
  cbn [players with_phase] in Hnext'. rewrite Hnext in Hnext'. injection Hnext' as <-.
  exists ci, card, g', gp. rewrite Heq, Heq'. cbn [fst snd].
  split; [exact Hc|]. split; [reflexivity|]. split; [apply commit_lookup|].
  split; [exact H3|]. split; [exact H5|]. split; [exact H6|]. split; [exact H7|].
  split; [exact H2|]. split; [reflexivity|].
  cbv zeta in *.
  cbn [g_id phase players currentPlayerId centerPile lastPlayedCard lastPlayerId
       accusingPlayerId revealedCard events turnTimer maxPlayers minPlayers with_phase
       put_game uuid_calls now_calls] in *.
  rewrite K2.
  destruct (bool_decide (length (delete ci (cards player)) = 0)).
  - rewrite bool_decide_eq_true_2 by done.
    apply GameState_ext; congruence.
  - rewrite bool_decide_eq_false_2 by done.
    apply GameState_ext; cbn [g_id phase players currentPlayerId centerPile lastPlayedCard
      lastPlayerId accusingPlayerId revealedCard events turnTimer maxPlayers minPlayers
      with_phase]; congruence.
Qed.

Lemma play_ignores_phase_witness :
  let bob := tiny_player "b" "Bob" [ {| c_id := "k2"; c_type := truth |};
                                     {| c_id := "k3"; c_type := lie |} ] in
  let game := with_phase finished tiny_game in
  ∃ ci card g' gp,
    list_find (λ c, c_id c = "k2") (cards bob) = Some (ci, card) ∧
    (handlePlay sample_env "ROOM01" "b" "k2" tiny_over).1 = Ret (json_game g') ∧
    games (handlePlay sample_env "ROOM01" "b" "k2" tiny_over).2 !! "ROOM01" = Some g' ∧
    players g' = <[1 := with_cardCount (length (delete ci (cards bob)))
                          (with_cards (delete ci (cards bob)) bob)]> (players game) ∧
    centerPile g' = centerPile game ++ [card] ∧
    lastPlayedCard g' = Some card ∧
    lastPlayerId g' = Some "b" ∧
    phase g' = (if bool_decide (length (delete ci (cards bob)) = 0)
                then finished else phase game) ∧
    (handlePlay sample_env "ROOM01" "b" "k2"
       (put_game "ROOM01" (with_phase playing game) tiny_over)).1
      = Ret (json_game gp) ∧
    g' = if bool_decide (phase gp = finished) then gp else with_phase (phase game) gp.
Proof.
  apply (play_ignores_phase sample_env tiny_over "ROOM01" "b" "k2"
           (with_phase finished tiny_game) 1
           (tiny_player "b" "Bob" [ {| c_id := "k2"; c_type := truth |};
                                    {| c_id := "k3"; c_type := lie |} ]));
    [reflexivity | reflexivity | reflexivity | ].
  apply (bool_decide_unpack _). vm_compute. exact I.
Defined.

(** In the finished session the play above goes through: Bob's card moves to
    the pile, the turn passes to Carol and the phase stays finished. *)
Example play_in_finished_session :
  ∃ g', (handlePlay sample_env "ROOM01" "b" "k2" tiny_over).1 = Ret (json_game g') ∧
        phase g' = finished ∧
        currentPlayerId g' = "c" ∧
        c_id <$> centerPile g' = ["k0"; "k2"] ∧
        (λ p, c_id <$> cards p) <$> players g' = [["k1"]; ["k3"]; ["k4"]].
Proof. eexists. split; [vm_compute; reflexivity|]. by vm_compute. Qed.

(** Carol plays her only card on her turn: the game is finished and the turn
    stays with her. *)
Example play_last_card :
  ∃ g', (handlePlay sample_env "ROOM01" "c" "k4"
           (put_game "ROOM01" (with_currentPlayerId "c" tiny_game) init)).1
        = Ret (json_game g') ∧
        phase g' = finished ∧
        currentPlayerId g' = "c" ∧
        cardCount <$> players g' = [1; 2; 0] ∧
        c_id <$> centerPile g' = ["k0"; "k4"].
Proof. eexists. split; [vm_compute; reflexivity|]. by vm_compute. Qed.

(** Carol plays one of two cards: the turn wraps around to Alice. *)
Example play_wraps_around :
  ∃ g', (handlePlay sample_env "ROOM01" "c" "k4"
           (put_game "ROOM01"
              (with_currentPlayerId "c"
                 (with_players
                    [ tiny_player "a" "Alice" [ {| c_id := "k1"; c_type := truth |} ];
                      tiny_player "c" "Carol" [ {| c_id := "k4"; c_type := lie |};
                                                {| c_id := "k5"; c_type := truth |} ] ]
                    tiny_game))
              init)).1
        = Ret (json_game g') ∧
        phase g' = playing ∧
        currentPlayerId g' = "a".
Proof. eexists. split; [vm_compute; reflexivity|]. by vm_compute. Qed.

(** ** The rejections and a play on the small session *)

Lemma play_not_your_turn_witness :
  handlePlay sample_env "ROOM01" "a" "k1" tiny_server
  = (Ret (json_message 400 "Not your turn"), tiny_server).
Proof.
  apply (play_not_your_turn sample_env tiny_server "ROOM01" "a" "k1" tiny_game);
    [reflexivity | apply (bool_decide_unpack _); vm_compute; exact I | discriminate].
Defined.

Lemma accuse_no_card_witness :
  handleAccuse sample_env "ROOM01" "b" "a" tiny_fresh
  = (Ret (json_message 400 "No card to accuse"), tiny_fresh).
Proof.
  apply (accuse_no_card sample_env tiny_fresh "ROOM01" "b" "a"
           (with_lastPlayerId None (with_lastPlayedCard None tiny_game)));
    [reflexivity | left; reflexivity].
Defined.

Lemma play_success_witness :
  ∃ g' s',
    handlePlay sample_env "ROOM01" "b" "k2" tiny_server = (Ret (json_game g'), s') ∧
    ∃ game pi player ci card,
      games tiny_server !! "ROOM01" = Some game ∧
      games s' !! "ROOM01" = Some g' ∧
      list_find (λ p, p_id p = "b") (players game) = Some (pi, player) ∧
      list_find (λ c, c_id c = "k2") (cards player) = Some (ci, card) ∧
      let hand := delete ci (cards player) in
      players g' = <[pi := with_cardCount (length hand) (with_cards hand player)]> (players game) ∧
      centerPile g' = centerPile game ++ [card] ∧
      lastPlayedCard g' = Some card ∧
      lastPlayerId g' = Some "b" ∧
      if bool_decide (length hand = 0)
      then phase g' = finished ∧ currentPlayerId g' = currentPlayerId game
      else phase g' = phase game ∧
           p_id <$> players g' !! ((pi + 1) mod length (players g')) = Some (currentPlayerId g').
Proof.
  eexists _, _. split; [vm_compute; reflexivity|].
  apply (play_success sample_env tiny_server _ "ROOM01" "b" "k2").
  vm_compute. reflexivity.
Defined.

(** ** [AddPlayer] *)

Lemma createDeck_length (env : Oracle) (s : Server) :
  ∃ deck, createDeck env s = (Ret deck, tick 60 59 0 s) ∧ length deck = 60.
Proof.
  destruct (createDeck_counts env s) as (deck & Heq & Hlen & _).
  exists deck. split; [exact Heq|exact Hlen].
Qed.

Lemma addPlayerToGame_ok (env : Oracle) (s : Server) (gameId : string) (player : Player)
    (game : GameState) :
  games s !! gameId = Some game →
  length (players game) < maxPlayers game →
  let starts := bool_decide (minPlayers game ≤ length (players game) + 1)
                && bool_decide (phase game = waiting) in
  ∃ g' deck,
    addPlayerToGame env gameId player s
      = (Ret g', put_game gameId g'
                   (tick (if starts then 62 else 61) 59 (if starts then 2 else 1) s)) ∧
    createDeck env s = (Ret deck, tick 60 59 0 s) ∧
    length deck = 60 ∧
    g_id g' = g_id game ∧
    phase g' = (if starts then playing else phase game) ∧
    players g' = players game ++ [with_cardCount 7 (with_cards (take 7 deck) player)] ∧
    currentPlayerId g' = currentPlayerId game ∧
    centerPile g' = centerPile game ∧
    lastPlayedCard g' = lastPlayedCard game ∧
    lastPlayerId g' = lastPlayerId game ∧
    accusingPlayerId g' = accusingPlayerId game ∧
    revealedCard g' = revealedCard game ∧
    events g' = events game ++
      {| e_id := uuid_at env (uuid_calls s + 60); e_type := join;
         e_playerId := p_id player; e_playerName := p_name player;
         targetId := None; targetName := None; cardType := None;
         timestamp := now_at env (now_calls s);
         message := p_name player +:+ " a rejoint la partie" |} ::
      (if starts
       then [ {| e_id := uuid_at env (uuid_calls s + 61); e_type := game_start;
                 e_playerId := ""; e_playerName := "";
                 targetId := None; targetName := None; cardType := None;
                 timestamp := now_at env (now_calls s + 1);
                 message := "La partie commence avec "
                            +:+ pretty (length (players game) + 1) +:+ " joueurs !" |} ]
       else []) ∧
    turnTimer g' = turnTimer game ∧
    maxPlayers g' = maxPlayers game ∧
    minPlayers g' = minPlayers game.
Proof.
  intros Hg Hroom starts.
  destruct (createDeck_length env s) as (deck & Hdeck & Hlen).
  unfold addPlayerToGame.
  rewrite (bind_ret _ _ _ _ _ (getGame_eq gameId s)), Hg.
  rewrite bool_decide_eq_false_2 by lia.
  rewrite (bind_ret _ _ _ _ _ Hdeck).
  rewrite length_take, Hlen. change (7 `min` 60) with 7.
  rewrite (bind_ret _ _ _ _ _ (randomUUID_eq env _)).
  rewrite (bind_ret _ _ _ _ _ (Date_now_eq env _)).
  unfold start_with_event, start_silently.
  cbn [minPlayers players phase push_event with_players with_phase].
  rewrite length_app. cbn [length]. fold starts.
  cbn [tick uuid_calls now_calls]. rewrite !Nat.add_0_r.
  destruct starts eqn:Hstarts.
  - eexists _, deck. split.
    { cbv [mbind M_bind mret M_ret randomUUID Date_now games_set put_game tick]. cbn.
      rewrite andb_false_r, !Nat.add_0_r, <-!Nat.add_assoc. cbn [Nat.add]. same_outcome. }
    split_and!;
      first [reflexivity | assumption | cbn; rewrite <-app_assoc; reflexivity].
  - eexists _, deck. split.
    { cbv [mbind M_bind mret M_ret games_set put_game tick]. cbn.
      rewrite length_app. cbn [length]. fold starts. rewrite Hstarts, !Nat.add_0_r.
      same_outcome. }
    split_and!; reflexivity || assumption.
Qed.

Lemma put_game_lookup (gameId : string) (g : GameState) (s : Server) :
  games (put_game gameId g s) !! gameId = Some g.
Proof. cbn. by rewrite lookup_insert_eq. Qed.

(** C7: when a player is added to a waiting session that has room and the new
    number of players reaches [minPlayers], the stored and returned session is
    in phase playing and its events are the old ones followed by the join
    event and one game_start event. *)
Theorem join_starts_game (env : Oracle) (s : Server) (gameId : string) (player : Player)
    (game : GameState) :
  games s !! gameId = Some game →
  phase game = waiting →
  length (players game) < maxPlayers game →
  minPlayers game ≤ length (players game) + 1 →
  ∃ g' joined started,
    (addPlayerToGame env gameId player s).1 = Ret g' ∧
    games (addPlayerToGame env gameId player s).2 !! gameId = Some g' ∧
    phase g' = playing ∧
    events g' = events game ++ [joined; started] ∧
    e_type joined = join ∧
    e_type started = game_start.
Proof.
  intros Hg Hwaiting Hroom Hmin.
  destruct (addPlayerToGame_ok env s gameId player game Hg Hroom)
    as (g' & deck & Heq & _ & _ & _ & Hphase & _ & _ & _ & _ & _ & _ & _ & Hevents & _).
  rewrite bool_decide_eq_true_2, bool_decide_eq_true_2 in Heq, Hphase, Hevents by done.
  cbn [andb] in *.
  eexists g', _, _. rewrite Heq. cbn [fst snd].
  split_and!; [done|apply put_game_lookup|done|exact Hevents|done|done].
Qed.

Lemma join_starts_game_witness :
  ∃ g' joined started,
    (addPlayerToGame sample_env "ROOM01" (tiny_player "b" "Bob" []) tiny_lobby).1 = Ret g' ∧
    games (addPlayerToGame sample_env "ROOM01" (tiny_player "b" "Bob" []) tiny_lobby).2
      !! "ROOM01" = Some g' ∧
    phase g' = playing ∧
    events g' = events tiny_lobby_game ++ [joined; started] ∧
    e_type joined = join ∧
    e_type started = game_start.
Proof.
  apply (join_starts_game sample_env tiny_lobby "ROOM01" (tiny_player "b" "Bob" [])
           tiny_lobby_game);
    [reflexivity | reflexivity | cbn; lia | cbn; lia].
Defined.

(** ** [RemovePlayer], [ContinueAfterRevelation], [CreateGame] *)

Lemma removePlayerFromGame_ok (env : Oracle) (s : Server) (gameId playerId : string)
    (game : GameState) (pi : nat) (player : Player) :
  games s !! gameId = Some game →
  list_find (λ p, p_id p = playerId) (players game) = Some (pi, player) →
  ∃ g',
    removePlayerFromGame env gameId playerId s = (Ret g', put_game gameId g' (tick 1 0 1 s)) ∧
    players g' = delete pi (players game) ∧
    phase g' = (if bool_decide (length (delete pi (players game)) < minPlayers game)
                then finished else phase game) ∧
    events g' = events game ++
      [ {| e_id := uuid_at env (uuid_calls s); e_type := leave;
           e_playerId := p_id player; e_playerName := p_name player;
           targetId := None; targetName := None; cardType := None;
           timestamp := now_at env (now_calls s);
           message := p_name player +:+ " a quitté la partie" |} ] ∧
    g_id g' = g_id game.
Proof.
  intros Hg Hp. unfold removePlayerFromGame.
  rewrite (bind_ret _ _ _ _ _ (getGame_eq gameId s)), Hg, Hp.
  eexists. split.
  { cbv [mbind M_bind mret M_ret randomUUID Date_now games_set put_game tick]. cbn.
    same_outcome. }
  cbn [players phase events push_event with_players minPlayers].
  destruct (bool_decide (length (delete pi (players game)) < minPlayers game));
    split_and!; reflexivity.
Qed.

Lemma removePlayerFromGame_fail (env : Oracle) (s : Server) (gameId playerId : string) :
  (games s !! gameId = None ∨
   ∃ game, games s !! gameId = Some game ∧
           list_find (λ p, p_id p = playerId) (players game) = None) →
  ∃ msg, removePlayerFromGame env gameId playerId s = (Throw msg, s).
Proof.
  unfold removePlayerFromGame.
  rewrite (bind_ret _ _ _ _ _ (getGame_eq gameId s)).
  intros [->|(game & -> & ->)]; by eexists.
Qed.

Lemma handleContinue_ok (s : Server) (gameId : string) (game : GameState) :
  games s !! gameId = Some game →
  let g' := with_accusingPlayerId None (with_revealedCard None (with_phase playing game)) in
  handleContinue gameId s = (Ret (json_game g'), commit gameId g' msg_game_state 0 0 0 s).
Proof.
  intros Hg g'. unfold handleContinue, try_catch.
  rewrite (bind_ret _ _ _ _ _ (getGame_eq gameId s)), Hg.
  cbv [mbind M_bind mret M_ret games_set updateGame broadcastToGame commit]. cbn.
  same_outcome.
Qed.

Lemma generateGameId_loop_eq (env : Oracle) (n : nat) (result : string) (s : Server) :
  ∃ id, generateGameId_loop env n result s = (Ret id, tick 0 n 0 s).
Proof.
  revert result s. induction n as [|n IH]; intros result s; cbn [generateGameId_loop].
  - exists result. by rewrite tick_zero.
  - rewrite (bind_ret _ _ _ _ _ (Math_random_eq env s)).
    edestruct IH as (id & Heq). rewrite Heq, tick_tick. by exists id.
Qed.

Lemma createGame_ok (env : Oracle) (s : Server) (hostPlayer : Player) :
  ∃ g' deck,
    createGame env hostPlayer s = (Ret g', put_game (g_id g') g' (tick 61 65 1 s)) ∧
    length deck = 60 ∧
    phase g' = waiting ∧
    players g' = [with_cardCount 7 (with_cards (take 7 deck) hostPlayer)] ∧
    currentPlayerId g' = p_id hostPlayer ∧
    centerPile g' = [] ∧
    lastPlayedCard g' = None ∧
    lastPlayerId g' = None.
Proof.
  unfold createGame, generateGameId.
  destruct (generateGameId_loop_eq env 6 "" s) as (gameId & Hid).
  rewrite (bind_ret _ _ _ _ _ Hid).
  destruct (createDeck_length env (tick 0 6 0 s)) as (deck & Hdeck & Hlen).
  rewrite (bind_ret _ _ _ _ _ Hdeck).
  rewrite length_take, Hlen. change (7 `min` 60) with 7.
  eexists _, deck. split.
  { cbv [mbind M_bind mret M_ret randomUUID Date_now games_set put_game tick]. cbn.
    same_outcome. }
  split_and!; reflexivity || assumption.
Qed.

Lemma new_player_eq (env : Oracle) (playerName : string) (s : Server) :
  new_player env playerName s
  = (Ret {| p_id := uuid_at env (uuid_calls s); p_name := playerName; cardCount := 0;
            cards := []; avatar := toUpperCase env (charAt 0 playerName); isOnline := true |},
     tick 1 0 0 s).
Proof.
  unfold new_player. rewrite (bind_ret _ _ _ _ _ (randomUUID_eq env s)). done.
Qed.

Lemma addPlayerToGame_full (env : Oracle) (s : Server) (gameId : string) (player : Player)
    (game : GameState) :
  games s !! gameId = Some game →
  maxPlayers game ≤ length (players game) →
  addPlayerToGame env gameId player s = (Throw "Game is full", s).
Proof.
  intros Hg Hfull. unfold addPlayerToGame.
  rewrite (bind_ret _ _ _ _ _ (getGame_eq gameId s)), Hg.
  by rewrite bool_decide_eq_true_2.
Qed.

Lemma handleJoin_cases (env : Oracle) (s : Server) (gameId playerName : string) :
  (∃ status msg s',
      handleJoin env gameId playerName s = (Ret (json_message status msg), s') ∧
      games s' = games s) ∨
  (∃ game g' deck player s',
      games s !! gameId = Some game ∧
      handleJoin env gameId playerName s = (Ret (json_joined g' (p_id player)), s') ∧
      games s' = <[gameId := g']> (games s) ∧
      length deck = 60 ∧
      players g' = players game ++ [with_cardCount 7 (with_cards (take 7 deck) player)] ∧
      phase g' = (if bool_decide (minPlayers game ≤ length (players game) + 1)
                     && bool_decide (phase game = waiting)
                  then playing else phase game) ∧
      g_id g' = g_id game).
Proof.
  unfold handleJoin, try_catch.
  rewrite (bind_ret _ _ _ _ _ (getGame_eq gameId s)).
  destruct (games s !! gameId) as [game|] eqn:Hg; [|left; by eexists _, _, _].
  rewrite (bind_ret _ _ _ _ _ (new_player_eq env playerName s)).
  destruct (decide (length (players game) < maxPlayers game)) as [Hroom|Hfull].
  - edestruct (addPlayerToGame_ok env (tick 1 0 0 s) gameId) as
      (g' & deck & Heq & _ & Hlen & Hid & Hphase & Hps & _); [exact Hg|exact Hroom|].
    rewrite (bind_ret _ _ _ _ _ Heq).
    right. eexists game, g', deck, _, _. split_and!; [done|reflexivity|done..].
  - left. erewrite bind_throw;
      [|apply (addPlayerToGame_full env (tick 1 0 0 s) gameId _ game); [exact Hg|lia]].
    by eexists _, _, _.
Qed.

Lemma wsClose_cases (env : Oracle) (s : Server) (gameId playerId : string) :
  (wsClose env gameId playerId s = (Ret (), s)) ∨
  (∃ game pi player g' s',
      games s !! gameId = Some game ∧
      list_find (λ p, p_id p = playerId) (players game) = Some (pi, player) ∧
      wsClose env gameId playerId s = (Ret (), s') ∧
      games s' = <[gameId := g']> (games s) ∧
      players g' = delete pi (players game) ∧
      phase g' = (if bool_decide (length (delete pi (players game)) < minPlayers game)
                  then finished else phase game) ∧
      g_id g' = g_id game).
Proof.
  unfold wsClose.
  destruct (bool_decide (gameId ≠ "") && bool_decide (playerId ≠ "")); [|by left].
  unfold try_catch.
  destruct (games s !! gameId) as [game|] eqn:Hg.
  2: { left. destruct (removePlayerFromGame_fail env s gameId playerId) as [msg Hfail];
         [by left|].
       by rewrite (bind_throw _ _ _ _ _ Hfail). }
  destruct (list_find (λ p, p_id p = playerId) (players game)) as [[pi player]|] eqn:Hp.
  2: { left. destruct (removePlayerFromGame_fail env s gameId playerId) as [msg Hfail];
         [right; eauto|].
       by rewrite (bind_throw _ _ _ _ _ Hfail). }
  destruct (removePlayerFromGame_ok env s gameId playerId game pi player Hg Hp)
    as (g' & Heq & Hps & Hphase & _ & Hid).
  right. rewrite (bind_ret _ _ _ _ _ Heq).
  eexists game, pi, player, g', _. split_and!; [done|done|reflexivity|done..].
Qed.

Lemma handleCreate_ok (env : Oracle) (s : Server) (playerName : string) :
  ∃ g' deck player s',
    handleCreate env playerName s = (Ret (json_joined g' (p_id player)), s') ∧
    games s' = <[g_id g' := g']> (games s) ∧
    length deck = 60 ∧
    phase g' = waiting ∧
    players g' = [with_cardCount 7 (with_cards (take 7 deck) player)].
Proof.
  unfold handleCreate, try_catch.
  rewrite (bind_ret _ _ _ _ _ (new_player_eq env playerName s)).
  edestruct (createGame_ok env (tick 1 0 0 s)) as (g' & deck & Heq & Hlen & Hphase & Hps & _).
  rewrite (bind_ret _ _ _ _ _ Heq).
  eexists g', deck, _, _. split_and!; [reflexivity|done..].
Qed.

(** ** What a command does to the store *)

Lemma fmap_some_eq (m : M Response) (s s' : Server) (r : Response) :
  m s = (Ret r, s') → (Some <$> m) s = (Ret (Some r), s').
Proof. unfold fmap, M_fmap. by intros ->. Qed.

Lemma exec_PlayCard (env : Oracle) (s s' : Server) (gameId playerId cardId : string)
    (r : Response) :
  handlePlay env gameId playerId cardId s = (Ret r, s') →
  exec env (PlayCard gameId playerId cardId) s = (Ret (Some r), s').
Proof. apply fmap_some_eq. Qed.

Lemma exec_AccusePlayer (env : Oracle) (s s' : Server) (gameId accusing accused : string)
    (r : Response) :
  handleAccuse env gameId accusing accused s = (Ret r, s') →
  exec env (AccusePlayer gameId accusing accused) s = (Ret (Some r), s').
Proof. apply fmap_some_eq. Qed.

Lemma exec_JoinGame (env : Oracle) (s s' : Server) (gameId playerName : string)
    (r : Response) :
  handleJoin env gameId playerName s = (Ret r, s') →
  exec env (JoinGame gameId playerName) s = (Ret (Some r), s').
Proof. apply fmap_some_eq. Qed.

Lemma exec_CreateGame (env : Oracle) (s s' : Server) (playerName : string) (r : Response) :
  handleCreate env playerName s = (Ret r, s') →
  exec env (CreateGame playerName) s = (Ret (Some r), s').
Proof. apply fmap_some_eq. Qed.

Lemma exec_Continue (env : Oracle) (s s' : Server) (gameId : string) (r : Response) :
  handleContinue gameId s = (Ret r, s') →
  exec env (ContinueAfterRevelation gameId) s = (Ret (Some r), s').
Proof. apply fmap_some_eq. Qed.

Lemma exec_Disconnect (env : Oracle) (s s' : Server) (gameId playerId : string) :
  wsClose env gameId playerId s = (Ret (), s') →
  exec env (Disconnect gameId playerId) s = (Ret None, s').
Proof. intros H. cbn [exec]. by rewrite (bind_ret _ _ _ _ _ H). Qed.

Lemma handleGet_eq (s : Server) (gameId : string) :
  handleGet gameId s
  = (Ret (match games s !! gameId with
          | Some game => json_game game
          | None => json_message 404 "Game not found"
          end), s).
Proof.
  unfold handleGet, try_catch. rewrite (bind_ret _ _ _ _ _ (getGame_eq gameId s)).
  by destruct (games s !! gameId).
Qed.

Lemma exec_GetGame (env : Oracle) (s : Server) (gameId : string) :
  exec env (GetGame gameId) s
  = (Ret (Some (match games s !! gameId with
                | Some game => json_game game
                | None => json_message 404 "Game not found"
                end)), s).
Proof. apply fmap_some_eq, handleGet_eq. Qed.

Lemma handleContinue_missing (s : Server) (gameId : string) :
  games s !! gameId = None →
  handleContinue gameId s = (Ret (json_message 404 "Game not found"), s).
Proof.
  intros Hg. unfold handleContinue, try_catch.
  by rewrite (bind_ret _ _ _ _ _ (getGame_eq gameId s)), Hg.
Qed.

Lemma commit_games (gameId : string) (g : GameState) (ty : MessageType) (u r t : nat)
    (s : Server) :
  games (commit gameId g ty u r t s) = <[g_id g := g]> (<[gameId := g]> (games s)).
Proof. done. Qed.

(** C2 (as amended): from a finished session, [PlayCard], [AddPlayer] and
    [RemovePlayer] leave the phase finished, whether they succeed or are
    rejected; [AccusePlayer] leaves it finished when rejected and makes it
    revelation when it succeeds; [ContinueAfterRevelation] makes it playing. *)
Theorem finished_phase_after (env : Oracle) (s : Server) (c : Command) (gameId : string)
    (game : GameState) :
  target c = Some gameId →
  games s !! gameId = Some game →
  phase game = finished →
  match c with
  | PlayCard _ _ _ | JoinGame _ _ | Disconnect _ _ | GetGame _ =>
      phase_at gameId (exec env c s).2 = Some finished
  | AccusePlayer _ _ _ =>
      match answered (exec env c s).1 with
      | Some _ => phase_at gameId (exec env c s).2 = Some revelation
      | None => phase_at gameId (exec env c s).2 = Some finished
      end
  | ContinueAfterRevelation _ => phase_at gameId (exec env c s).2 = Some playing
  | CreateGame _ => True
  end.
Proof.
  intros Htarget Hg Hfin.
  assert (Hstay : phase_at gameId s = Some finished).
  { unfold phase_at. by rewrite Hg, <-Hfin. }
  destruct c as [name|gid name|gid|gid playerId cardId|gid accusing accused|gid|gid playerId];
    cbn in Htarget; simplify_eq.
  - destruct (handleJoin_cases env s gameId name)
      as [(status & msg & s' & Heq & Hsame)
         |(game' & g' & deck & player & s' & Hg' & Heq & Hstore & _ & _ & Hphase & _)];
      rewrite (exec_JoinGame _ _ _ _ _ _ Heq); unfold phase_at; cbn [snd].
    + rewrite Hsame, Hg. cbn. by rewrite Hfin.
    + assert (game' = game) as -> by congruence.
      rewrite Hstore, lookup_insert_eq. cbn. rewrite Hphase, Hfin.
      by rewrite andb_false_r.
  - by rewrite exec_GetGame.
  - destruct (handlePlay_cases env s gameId playerId cardId)
      as [(status & msg & Heq)|(game' & pi & player & ci & card & Hg' & Hp & Hcur & Hc)].
    { by rewrite (exec_PlayCard _ _ _ _ _ _ _ Heq). }
    assert (game' = game) as -> by congruence.
    destruct (handlePlay_ok env s gameId playerId cardId game pi ci player card Hg Hp Hcur Hc)
      as (g' & _ & Heq & _ & _ & Hphase & _).
    rewrite (exec_PlayCard _ _ _ _ _ _ _ Heq). unfold phase_at. cbn [snd].
    rewrite commit_lookup. cbn. rewrite Hphase, Hfin. by destruct (bool_decide _).
  - destruct (handleAccuse_cases env s gameId accusing accused)
      as [(status & msg & Heq)
         |(game' & lastCard & ai & ap & di & dp & Hg' & Hcard & Hlast & Ha & Hd)].
    { by rewrite (exec_AccusePlayer _ _ _ _ _ _ _ Heq). }
    assert (game' = game) as -> by congruence.
    destruct (handleAccuse_ok env s gameId accusing accused game lastCard ai di ap dp
                Hg Hcard Hlast Ha Hd)
      as (g' & deck & Heq & _ & _ & _ & Hphase & _).
    rewrite (exec_AccusePlayer _ _ _ _ _ _ _ Heq). unfold phase_at. cbn [snd fst answered].
    rewrite commit_lookup. cbn. by rewrite Hphase.
  - rewrite (exec_Continue _ _ _ _ _ (handleContinue_ok s gameId game Hg)).
    unfold phase_at. cbn [snd]. by rewrite commit_lookup.
  - destruct (wsClose_cases env s gameId playerId)
      as [Heq|(game' & pi & player & g' & s' & Hg' & Hp & Heq & Hstore & _ & Hphase & _)];
      rewrite (exec_Disconnect _ _ _ _ _ Heq); [done|].
    assert (game' = game) as -> by congruence.
    unfold phase_at. cbn [snd]. rewrite Hstore, lookup_insert_eq. cbn.
    rewrite Hphase, Hfin. by destruct (bool_decide _).
Qed.

Lemma finished_phase_after_witness :
  phase_at "ROOM01" (exec sample_env (PlayCard "ROOM01" "b" "k2") tiny_over).2 = Some finished.
Proof.
  apply (finished_phase_after sample_env tiny_over (PlayCard "ROOM01" "b" "k2") "ROOM01"
           (with_phase finished tiny_game));
    reflexivity.
Defined.

(** C2 as stated fails: the session is finished, [ContinueAfterRevelation]
    answers with the session and its phase is playing; an accusation on the
    finished session makes it revelation. *)
Lemma finished_is_left :
  phase_at "ROOM01" tiny_over = Some finished ∧
  phase_at "ROOM01" (handleContinue "ROOM01" tiny_over).2 = Some playing ∧
  phase_at "ROOM01" (handleAccuse sample_env "ROOM01" "b" "a" tiny_over).2 = Some revelation.
Proof. by vm_compute. Qed.

(** ** The stored hand size *)

Lemma dealt_hand_synced (deck : list Card) (p : Player) :
  length deck = 60 → hand_synced (with_cardCount 7 (with_cards (take 7 deck) p)).
Proof. intros Hlen. unfold hand_synced. cbn. rewrite length_take. lia. Qed.

Lemma recounted_hand_synced (hand : list Card) (p : Player) :
  hand_synced (with_cardCount (length hand) (with_cards hand p)).
Proof. done. Qed.

Lemma store_synced_insert (s s' : Server) (k1 k2 : string) (g : GameState) :
  store_synced s → game_synced g →
  games s' = <[k1 := g]> (<[k2 := g]> (games s)) →
  store_synced s'.
Proof.
  unfold store_synced. intros Hs Hg ->.
  apply map_Forall_insert_2; [exact Hg|]. apply map_Forall_insert_2; [exact Hg|exact Hs].
Qed.

Lemma store_synced_same (s s' : Server) :
  store_synced s → games s' = games s → store_synced s'.
Proof. unfold store_synced. by intros Hs ->. Qed.

Lemma exec_synced (env : Oracle) (c : Command) (s : Server) :
  store_synced s →
  store_synced (exec env c s).2 ∧ answer_synced (exec env c s).1.
Proof.
  intros Hs.
  destruct c as [name|gameId name|gameId|gameId playerId cardId|gameId accusing accused
                |gameId|gameId playerId].
  - destruct (handleCreate_ok env s name)
      as (g' & deck & player & s' & Heq & Hstore & Hlen & _ & Hps).
    rewrite (exec_CreateGame _ _ _ _ _ Heq). cbn [fst snd].
    assert (game_synced g').
    { unfold game_synced. rewrite Hps. repeat constructor. by apply dealt_hand_synced. }
    split; [|done].
    apply (store_synced_insert s s' (g_id g') (g_id g') g'); [done..|].
    by rewrite insert_insert_eq.
  - destruct (handleJoin_cases env s gameId name)
      as [(status & msg & s' & Heq & Hsame)
         |(game & g' & deck & player & s' & Hg & Heq & Hstore & Hlen & Hps & _)];
      rewrite (exec_JoinGame _ _ _ _ _ _ Heq); cbn [fst snd].
    { split; [by eapply store_synced_same|done]. }
    assert (game_synced g').
    { unfold game_synced. rewrite Hps. apply Forall_app. split.
      - by apply (Hs gameId).
      - repeat constructor. by apply dealt_hand_synced. }
    split; [|done].
    apply (store_synced_insert s s' gameId gameId g'); [done..|].
    by rewrite insert_insert_eq.
  - rewrite exec_GetGame. cbn [fst snd]. split; [done|].
    unfold answer_synced. destruct (games s !! gameId) as [game|] eqn:Hg; [|done].
    by apply (Hs gameId).
  - destruct (handlePlay_cases env s gameId playerId cardId)
      as [(status & msg & Heq)|(game & pi & player & ci & card & Hg & Hp & Hcur & Hc)].
    { by rewrite (exec_PlayCard _ _ _ _ _ _ _ Heq). }
    destruct (handlePlay_ok env s gameId playerId cardId game pi ci player card Hg Hp Hcur Hc)
      as (g' & _ & Heq & _ & _ & _ & Hps & _).
    rewrite (exec_PlayCard _ _ _ _ _ _ _ Heq). cbn [fst snd].
    assert (game_synced g').
    { unfold game_synced. rewrite Hps. apply Forall_insert; [by apply (Hs gameId)|].
      apply recounted_hand_synced. }
    split; [|done].
    by apply (store_synced_insert s _ (g_id g') gameId g').
  - destruct (handleAccuse_cases env s gameId accusing accused)
      as [(status & msg & Heq)
         |(game & lastCard & ai & ap & di & dp & Hg & Hcard & Hlast & Ha & Hd)].
    { by rewrite (exec_AccusePlayer _ _ _ _ _ _ _ Heq). }
    destruct (handleAccuse_ok env s gameId accusing accused game lastCard ai di ap dp
                Hg Hcard Hlast Ha Hd)
      as (g' & deck & Heq & _ & _ & _ & _ & Hps & _).
    rewrite (exec_AccusePlayer _ _ _ _ _ _ _ Heq). cbn [fst snd].
    assert (game_synced g').
    { unfold game_synced. rewrite Hps. apply Forall_insert; [by apply (Hs gameId)|].
      apply recounted_hand_synced. }
    split; [|done].
    by apply (store_synced_insert s _ (g_id g') gameId g').
  - destruct (games s !! gameId) as [game|] eqn:Hg.
    2: { by rewrite (exec_Continue _ _ _ _ _ (handleContinue_missing s gameId Hg)). }
    rewrite (exec_Continue _ _ _ _ _ (handleContinue_ok s gameId game Hg)). cbn [fst snd].
    assert (game_synced (with_accusingPlayerId None (with_revealedCard None
                           (with_phase playing game)))).
    { unfold game_synced. cbn. by apply (Hs gameId). }
    split; [|done].
    by eapply (store_synced_insert s _ _ gameId).
  - destruct (wsClose_cases env s gameId playerId)
      as [Heq|(game & pi & player & g' & s' & Hg & Hp & Heq & Hstore & Hps & _)];
      rewrite (exec_Disconnect _ _ _ _ _ Heq); [done|]. cbn [fst snd].
    split; [|done].
    apply (store_synced_insert s s' gameId gameId g'); [done| |by rewrite insert_insert_eq].
    unfold game_synced. rewrite Hps. apply Forall_delete. by apply (Hs gameId).
Qed.

Lemma run_snoc (env : Oracle) (cmds : list Command) (c : Command) (s : Server) :
  run env (cmds ++ [c]) s = (exec env c (run env cmds s)).2.
Proof. unfold run. by rewrite foldl_app. Qed.

Lemma run_synced (env : Oracle) (cmds : list Command) :
  store_synced (run env cmds init).
Proof.
  induction cmds as [|c cmds IH] using rev_ind.
  - apply map_Forall_empty.
  - rewrite run_snoc. by apply exec_synced.
Qed.

(** C9: after any sequence of commands from the empty server and one more
    command of any kind (create, join, get, play, accuse, continue,
    disconnect), every player of every stored session, and of the session the
    command answers with, has [cardCount] equal to the length of [cards]. *)
Theorem hands_stay_synced (env : Oracle) (cmds : list Command) (c : Command) :
  store_synced (exec env c (run env cmds init)).2 ∧
  answer_synced (exec env c (run env cmds init)).1.
Proof. apply exec_synced, run_synced. Qed.

(** ** Sessions and their keys *)

Lemma well_keyed_insert (s s' : Server) (k : string) (g : GameState) :
  well_keyed s → g_id g = k →
  games s' = <[g_id g := g]> (<[k := g]> (games s)) →
  well_keyed s'.
Proof.
  unfold well_keyed. intros Hs Hk ->. rewrite Hk, insert_insert_eq.
  by apply map_Forall_insert_2.
Qed.

(** The store the commands build never holds a session under a key other
    than its id, so [updateGame] always writes the entry the route read. *)
Lemma exec_well_keyed (env : Oracle) (c : Command) (s : Server) :
  well_keyed s → well_keyed (exec env c s).2.
Proof.
  intros Hs.
  destruct c as [name|gameId name|gameId|gameId playerId cardId|gameId accusing accused
                |gameId|gameId playerId].
  - destruct (handleCreate_ok env s name) as (g' & deck & player & s' & Heq & Hstore & _).
    rewrite (exec_CreateGame _ _ _ _ _ Heq). cbn [snd].
    apply (well_keyed_insert s s' (g_id g') g'); [done..|].
    by rewrite insert_insert_eq.
  - destruct (handleJoin_cases env s gameId name)
      as [(status & msg & s' & Heq & Hsame)
         |(game & g' & deck & player & s' & Hg & Heq & Hstore & _ & _ & _ & Hid)];
      rewrite (exec_JoinGame _ _ _ _ _ _ Heq); cbn [snd].
    { unfold well_keyed. by rewrite Hsame. }
    pose proof (Hs gameId game Hg) as Hkey. cbn in Hkey.
    apply (well_keyed_insert s s' gameId g'); [done|congruence|].
    rewrite Hstore. replace (g_id g') with gameId by congruence.
    by rewrite insert_insert_eq.
  - by rewrite exec_GetGame.
  - destruct (handlePlay_cases env s gameId playerId cardId)
      as [(status & msg & Heq)|(game & pi & player & ci & card & Hg & Hp & Hcur & Hc)].
    { by rewrite (exec_PlayCard _ _ _ _ _ _ _ Heq). }
    destruct (handlePlay_ok env s gameId playerId cardId game pi ci player card Hg Hp Hcur Hc)
      as (g' & _ & Heq & _ & Hid & _).
    rewrite (exec_PlayCard _ _ _ _ _ _ _ Heq). cbn [snd].
    pose proof (Hs gameId game Hg) as Hkey. cbn in Hkey.
    apply (well_keyed_insert s _ gameId g'); [done|congruence|done].
  - destruct (handleAccuse_cases env s gameId accusing accused)
      as [(status & msg & Heq)
         |(game & lastCard & ai & ap & di & dp & Hg & Hcard & Hlast & Ha & Hd)].
    { by rewrite (exec_AccusePlayer _ _ _ _ _ _ _ Heq). }
    destruct (handleAccuse_ok env s gameId accusing accused game lastCard ai di ap dp
                Hg Hcard Hlast Ha Hd)
      as (g' & deck & Heq & _ & _ & Hid & _).
    rewrite (exec_AccusePlayer _ _ _ _ _ _ _ Heq). cbn [snd].
    pose proof (Hs gameId game Hg) as Hkey. cbn in Hkey.
    apply (well_keyed_insert s _ gameId g'); [done|congruence|done].
  - destruct (games s !! gameId) as [game|] eqn:Hg.
    2: { by rewrite (exec_Continue _ _ _ _ _ (handleContinue_missing s gameId Hg)). }
    rewrite (exec_Continue _ _ _ _ _ (handleContinue_ok s gameId game Hg)). cbn [snd].
    pose proof (Hs gameId game Hg) as Hkey. cbn in Hkey.
    apply (well_keyed_insert s _ gameId
             (with_accusingPlayerId None (with_revealedCard None (with_phase playing game))));
      [done|exact Hkey|done].
  - destruct (wsClose_cases env s gameId playerId)
      as [Heq|(game & pi & player & g' & s' & Hg & Hp & Heq & Hstore & _ & _ & Hid)];
      rewrite (exec_Disconnect _ _ _ _ _ Heq); [done|]. cbn [snd].
    pose proof (Hs gameId game Hg) as Hkey. cbn in Hkey.
    apply (well_keyed_insert s s' gameId g'); [done|congruence|].
    rewrite Hstore. replace (g_id g') with gameId by congruence.
    by rewrite insert_insert_eq.
Qed.

Lemma run_well_keyed (env : Oracle) (cmds : list Command) :
  well_keyed (run env cmds init).
Proof.
  induction cmds as [|c cmds IH] using rev_ind.
  - apply map_Forall_empty.
  - rewrite run_snoc. by apply exec_well_keyed.
Qed.

(** ** A run from the empty server *)

(** Alice creates a game, Bob joins, Alice plays her fourth card (a lie), Bob
    accuses her, the game continues. *)
Example sample_scenario :
  let s1 := run sample_env [CreateGame "Alice"] init in
  let s2 := run sample_env [JoinGame "G0K4O9" "Bob"] s1 in
  let s3 := run sample_env [PlayCard "G0K4O9" "uuid-0" "uuid-47"] s2 in
  let s4 := run sample_env [AccusePlayer "G0K4O9" "uuid-62" "uuid-0"] s3 in
  let s5 := run sample_env [ContinueAfterRevelation "G0K4O9"] s4 in
  let view (s : Server) :=
    (λ g, (phase g, currentPlayerId g, (λ p, (p_name p, cardCount p)) <$> players g,
           length (centerPile g), lastPlayerId g, e_type <$> events g))
      <$> games s !! "G0K4O9" in
  view s1 = Some (waiting, "uuid-0", [("Alice", 7)], 0, None, [join]) ∧
  view s2 = Some (playing, "uuid-0", [("Alice", 7); ("Bob", 7)], 0, None,
                  [join; join; game_start]) ∧
  view s3 = Some (playing, "uuid-62", [("Alice", 6); ("Bob", 7)], 1, Some "uuid-0",
                  [join; join; game_start; card_played]) ∧
  view s4 = Some (revelation, "uuid-62", [("Alice", 9); ("Bob", 7)], 1, Some "uuid-0",
                  [join; join; game_start; card_played; ev_accusation]) ∧
  view s5 = Some (playing, "uuid-62", [("Alice", 9); ("Bob", 7)], 1, Some "uuid-0",
                  [join; join; game_start; card_played; ev_accusation]).
Proof. by vm_compute. Qed.

(** Bob leaves the two-player game, which ends it; continuing makes the
    phase playing again, with Alice alone. *)
Example finished_is_left_in_a_run :
  let over := run sample_env [CreateGame "Alice"; JoinGame "G0K4O9" "Bob";
                              Disconnect "G0K4O9" "uuid-62"] init in
  phase_at "G0K4O9" over = Some finished ∧
  phase_at "G0K4O9" (run sample_env [ContinueAfterRevelation "G0K4O9"] over) = Some playing.
Proof. by vm_compute. Qed.

(** ** The routes, outcome by outcome *)

(** Closes one premise of a [Transition] constructor once the new session is
    an explicit record. *)
Ltac transition_field :=
  first [ done
        | by eexists
        | by (unfold same_settings, same_pile; cbn; split_and!) ].

Lemma handleJoin_missing (env : Oracle) (s : Server) (gameId playerName : string) :
  games s !! gameId = None →
  handleJoin env gameId playerName s = (Ret (json_message 404 "Game not found"), s).
Proof.
  intros Hg. unfold handleJoin, try_catch.
  by rewrite (bind_ret _ _ _ _ _ (getGame_eq gameId s)), Hg.
Qed.

Lemma handleJoin_full (env : Oracle) (s : Server) (gameId playerName : string)
    (game : GameState) :
  games s !! gameId = Some game →
  maxPlayers game ≤ length (players game) →
  handleJoin env gameId playerName s = (Ret (json_message 400 "Game is full"), tick 1 0 0 s).
Proof.
  intros Hg Hfull. unfold handleJoin, try_catch.
  rewrite (bind_ret _ _ _ _ _ (getGame_eq gameId s)), Hg.
  rewrite (bind_ret _ _ _ _ _ (new_player_eq env playerName s)).
  erewrite bind_throw;
    [|apply (addPlayerToGame_full env (tick 1 0 0 s) gameId _ game); [exact Hg|exact Hfull]].
  reflexivity.
Qed.

Lemma handleJoin_added (env : Oracle) (s s1 : Server) (gameId playerName : string)
    (game g' : GameState) :
  games s !! gameId = Some game →
  addPlayerToGame env gameId
    {| p_id := uuid_at env (uuid_calls s); p_name := playerName; cardCount := 0;
       cards := []; avatar := toUpperCase env (charAt 0 playerName); isOnline := true |}
    (tick 1 0 0 s) = (Ret g', s1) →
  handleJoin env gameId playerName s
  = (Ret (json_joined g' (uuid_at env (uuid_calls s))),
     (broadcastToGame gameId msg_player_joined s1).2).
Proof.
  intros Hg Hadd. unfold handleJoin, try_catch.
  rewrite (bind_ret _ _ _ _ _ (getGame_eq gameId s)), Hg.
  rewrite (bind_ret _ _ _ _ _ (new_player_eq env playerName s)).
  rewrite (bind_ret _ _ _ _ _ Hadd).
  reflexivity.
Qed.

Lemma wsClose_removed (env : Oracle) (s s1 : Server) (gameId playerId : string)
    (g' : GameState) :
  gameId ≠ "" → playerId ≠ "" →
  removePlayerFromGame env gameId playerId s = (Ret g', s1) →
  wsClose env gameId playerId s = (Ret (), (broadcastToGame gameId msg_player_left s1).2).
Proof.
  intros Hgid Hpid Hrem. unfold wsClose, try_catch.
  rewrite !bool_decide_eq_true_2 by done. cbn [andb].
  rewrite (bind_ret _ _ _ _ _ Hrem). reflexivity.
Qed.

Lemma wsClose_ignored (env : Oracle) (s : Server) (gameId playerId : string) :
  gameId = "" ∨ playerId = "" → wsClose env gameId playerId s = (Ret (), s).
Proof.
  intros Hempty. unfold wsClose.
  destruct (bool_decide (gameId ≠ "")) eqn:Hg; [|done].
  destruct (bool_decide (playerId ≠ "")) eqn:Hp; [|done].
  apply bool_decide_eq_true in Hg, Hp. by destruct Hempty.
Qed.

Lemma wsClose_failed (env : Oracle) (s : Server) (gameId playerId : string) :
  (games s !! gameId = None ∨
   ∃ game, games s !! gameId = Some game ∧
           list_find (λ p, p_id p = playerId) (players game) = None) →
  wsClose env gameId playerId s = (Ret (), s).
Proof.
  intros Hfail. unfold wsClose.
  destruct (bool_decide (gameId ≠ "") && bool_decide (playerId ≠ "")); [|done].
  destruct (removePlayerFromGame_fail env s gameId playerId Hfail) as [msg Hthrow].
  unfold try_catch. by rewrite (bind_throw _ _ _ _ _ Hthrow).
Qed.

Lemma removePlayerFromGame_full (env : Oracle) (s : Server) (gameId playerId : string)
    (game : GameState) (pi : nat) (player : Player) :
  games s !! gameId = Some game →
  list_find (λ p, p_id p = playerId) (players game) = Some (pi, player) →
  ∃ g',
    removePlayerFromGame env gameId playerId s = (Ret g', put_game gameId g' (tick 1 0 1 s)) ∧
    Transition game g'.
Proof.
  intros Hg Hp. unfold removePlayerFromGame.
  rewrite (bind_ret _ _ _ _ _ (getGame_eq gameId s)), Hg, Hp.
  eexists. split.
  { cbv [mbind M_bind mret M_ret randomUUID Date_now games_set put_game tick]. cbn.
    same_outcome. }
  apply list_find_Some in Hp as (Hpi & _).
  apply (tr_leave _ _ pi player); [done|..];
    destruct (bool_decide (length (delete pi (players game)) < minPlayers game));
    transition_field.
Qed.

Lemma handlePlay_transition (env : Oracle) (s : Server) (gameId playerId cardId : string)
    (game : GameState) (pi ci : nat) (player : Player) (card : Card) :
  games s !! gameId = Some game →
  list_find (λ p, p_id p = playerId) (players game) = Some (pi, player) →
  currentPlayerId game = playerId →
  list_find (λ c, c_id c = cardId) (cards player) = Some (ci, card) →
  ∃ g',
    handlePlay env gameId playerId cardId s
      = (Ret (json_game g'), commit gameId g' msg_card_played 1 0 1 s) ∧
    Transition game g'.
Proof.
  intros Hg Hp Hcur Hc.
  destruct (handlePlay_ok env s gameId playerId cardId game pi ci player card Hg Hp Hcur Hc)
    as (g' & next & Heq & _ & H1 & H2 & H3 & H4 & H5 & H6 & H7 & H8 & H9 & H10
        & H11 & H12 & H13).
  exists g'. split; [exact Heq|].
  apply list_find_Some in Hp as (Hpi & Hid & _). apply list_find_Some in Hc as (Hci & _).
  apply (tr_play _ _ pi ci player card); try done.
  - by congruence.
  - rewrite H10. by eexists.
Qed.

Lemma handleAccuse_transition (env : Oracle) (s : Server) (gameId accusing accused : string)
    (game : GameState) (lastCard : Card) (ai di : nat) (ap dp : Player) :
  games s !! gameId = Some game →
  lastPlayedCard game = Some lastCard →
  falsy (lastPlayerId game) = false →
  list_find (λ p, p_id p = accusing) (players game) = Some (ai, ap) →
  list_find (λ p, p_id p = accused) (players game) = Some (di, dp) →
  ∃ g',
    handleAccuse env gameId accusing accused s
      = (Ret (json_game g'), commit gameId g' msg_accusation 11 10 1 s) ∧
    Transition game g'.
Proof.
  intros Hg Hcard Hlast Ha Hd.
  destruct (handleAccuse_ok env s gameId accusing accused game lastCard ai di ap dp
              Hg Hcard Hlast Ha Hd)
    as (g' & deck & Heq & _ & Hlen & H1 & H2 & H3 & H4 & H5 & H6 & H7 & H8 & H9 & H10
        & H11 & H12 & H13).
  exists g'. split; [exact Heq|].
  apply list_find_Some in Ha as (Hai & _). apply list_find_Some in Hd as (Hdi & _).
  assert (Hthree : length (take 3 deck) = 3) by (rewrite length_take; lia).
  cbv zeta in H3.
  destruct (bool_decide (c_type lastCard = lie)).
  - apply (tr_accuse _ _ di dp (take 3 deck)); try done.
    + unfold same_pile. split_and!; congruence.
    + rewrite H10. by eexists.
  - apply (tr_accuse _ _ ai ap (take 3 deck)); try done.
    + unfold same_pile. split_and!; congruence.
    + rewrite H10. by eexists.
Qed.

Lemma addPlayerToGame_transition (env : Oracle) (s : Server) (gameId : string)
    (player : Player) (game : GameState) :
  games s !! gameId = Some game →
  length (players game) < maxPlayers game →
  ∃ g' u t,
    addPlayerToGame env gameId player s = (Ret g', put_game gameId g' (tick u 59 t s)) ∧
    Transition game g'.
Proof.
  intros Hg Hroom.
  destruct (addPlayerToGame_ok env s gameId player game Hg Hroom)
    as (g' & deck & Heq & _ & Hlen & H1 & H2 & H3 & H4 & H5 & H6 & H7 & H8 & H9 & H10
        & H11 & H12 & H13).
  eexists g', _, _. split; [exact Heq|].
  apply (tr_join _ _ (with_cardCount 7 (with_cards (take 7 deck) player))); try done.
  - cbn. rewrite length_take. lia.
  - rewrite H10. eexists. split; [reflexivity|].
    by destruct (bool_decide (minPlayers game ≤ length (players game) + 1)
                 && bool_decide (phase game = waiting)).
Qed.

Lemma createGame_created (env : Oracle) (s : Server) (hostPlayer : Player) :
  ∃ g',
    createGame env hostPlayer s = (Ret g', put_game (g_id g') g' (tick 61 65 1 s)) ∧
    Created g' ∧
    currentPlayerId g' = p_id hostPlayer.
Proof.
  unfold createGame, generateGameId.
  destruct (generateGameId_loop_eq env 6 "" s) as (gameId & Hid).
  rewrite (bind_ret _ _ _ _ _ Hid).
  destruct (createDeck_length env (tick 0 6 0 s)) as (deck & Hdeck & Hlen).
  rewrite (bind_ret _ _ _ _ _ Hdeck).
  eexists. split.
  { cbv [mbind M_bind mret M_ret randomUUID Date_now games_set put_game tick]. cbn.
    same_outcome. }
  clear Hdeck Hid.
  split; [|reflexivity].
  constructor; cbn.
  - reflexivity.
  - eexists. split; [reflexivity|]. cbn. rewrite length_take, Hlen. by split.
  - by split_and!.
  - eexists. split; reflexivity.
  - by split_and!.
Qed.

Lemma handleCreate_created (env : Oracle) (s : Server) (playerName : string) :
  ∃ g',
    handleCreate env playerName s
      = (Ret (json_joined g' (uuid_at env (uuid_calls s))),
         put_game (g_id g') g' (tick 62 65 1 s)) ∧
    Created g' ∧
    currentPlayerId g' = uuid_at env (uuid_calls s).
Proof.
  destruct (createGame_created env (tick 1 0 0 s)
              {| p_id := uuid_at env (uuid_calls s); p_name := playerName; cardCount := 0;
                 cards := []; avatar := toUpperCase env (charAt 0 playerName);
                 isOnline := true |}) as (g' & Heq & Hcreated & Hcur).
  exists g'. split; [|split; [exact Hcreated|exact Hcur]].
  unfold handleCreate, try_catch.
  rewrite (bind_ret _ _ _ _ _ (new_player_eq env playerName s)), (bind_ret _ _ _ _ _ Heq).
  cbn [p_id]. unfold put_game, tick. cbn. same_outcome.
Qed.

(** What a command does to the store: nothing, a new session, or one
    [Transition] of the session it addresses. *)
Lemma exec_cases (env : Oracle) (c : Command) (s : Server) :
  games (exec env c s).2 = games s ∨
  (∃ g', target c = None ∧ Created g' ∧
         games (exec env c s).2 = <[g_id g' := g']> (games s)) ∨
  (∃ gameId game g',
      target c = Some gameId ∧
      games s !! gameId = Some game ∧
      Transition game g' ∧
      (games (exec env c s).2 = <[gameId := g']> (games s) ∨
       games (exec env c s).2 = <[g_id g' := g']> (<[gameId := g']> (games s)))).
Proof.
  destruct c as [name|gameId name|gameId|gameId playerId cardId|gameId accusing accused
                |gameId|gameId playerId].
  - right; left.
    destruct (handleCreate_created env s name) as (g' & Heq & Hcreated & _).
    exists g'. split; [reflexivity|]. split; [exact Hcreated|].
    rewrite (exec_CreateGame _ _ _ _ _ Heq). reflexivity.
  - destruct (games s !! gameId) as [game|] eqn:Hg.
    2: { left. by rewrite (exec_JoinGame _ _ _ _ _ _ (handleJoin_missing env s gameId name Hg)). }
    destruct (decide (length (players game) < maxPlayers game)) as [Hroom|Hfull].
    2: { left. rewrite (exec_JoinGame _ _ _ _ _ _
                          (handleJoin_full env s gameId name game Hg ltac:(lia))).
         reflexivity. }
    right; right.
    edestruct (addPlayerToGame_transition env (tick 1 0 0 s) gameId) as
      (g' & u & t & Heq & Htr); [exact Hg|exact Hroom|].
    rewrite (exec_JoinGame _ _ _ _ _ _ (handleJoin_added env s _ gameId name game g' Hg Heq)).
    exists gameId, game, g'. split_and!; [done..|]. by left.
  - left. by rewrite exec_GetGame.
  - destruct (handlePlay_cases env s gameId playerId cardId)
      as [(status & msg & Heq)|(game & pi & player & ci & card & Hg & Hp & Hcur & Hc)].
    { left. by rewrite (exec_PlayCard _ _ _ _ _ _ _ Heq). }
    destruct (handlePlay_transition env s gameId playerId cardId game pi ci player card
                Hg Hp Hcur Hc) as (g' & Heq & Htr).
    right; right. rewrite (exec_PlayCard _ _ _ _ _ _ _ Heq).
    exists gameId, game, g'. split_and!; [done..|]. by right.
  - destruct (handleAccuse_cases env s gameId accusing accused)
      as [(status & msg & Heq)
         |(game & lastCard & ai & ap & di & dp & Hg & Hcard & Hlast & Ha & Hd)].
    { left. by rewrite (exec_AccusePlayer _ _ _ _ _ _ _ Heq). }
    destruct (handleAccuse_transition env s gameId accusing accused game lastCard ai di ap dp
                Hg Hcard Hlast Ha Hd) as (g' & Heq & Htr).
    right; right. rewrite (exec_AccusePlayer _ _ _ _ _ _ _ Heq).
    exists gameId, game, g'. split_and!; [done..|]. by right.
  - destruct (games s !! gameId) as [game|] eqn:Hg.
    2: { left. by rewrite (exec_Continue _ _ _ _ _ (handleContinue_missing s gameId Hg)). }
    right; right. rewrite (exec_Continue _ _ _ _ _ (handleContinue_ok s gameId game Hg)).
    eexists gameId, game, _. split_and!; [done|done|by apply tr_continue|]. by right.
  - destruct (decide (gameId = "" ∨ playerId = "")) as [Hempty|Hids].
    { left. by rewrite (exec_Disconnect _ _ _ _ _ (wsClose_ignored env s gameId playerId Hempty)). }
    destruct (games s !! gameId) as [game|] eqn:Hg.
    2: { left. by rewrite (exec_Disconnect _ _ _ _ _
                             (wsClose_failed env s gameId playerId (or_introl Hg))). }
    destruct (list_find (λ p, p_id p = playerId) (players game)) as [[pi player]|] eqn:Hp.
    2: { left. by rewrite (exec_Disconnect _ _ _ _ _
                             (wsClose_failed env s gameId playerId
                                (or_intror (ex_intro _ game (conj Hg Hp))))). }
    destruct (removePlayerFromGame_full env s gameId playerId game pi player Hg Hp)
      as (g' & Heq & Htr).
    right; right.
    assert (gameId ≠ "" ∧ playerId ≠ "") as [Hgid Hpid] by tauto.
    rewrite (exec_Disconnect _ _ _ _ _
               (wsClose_removed env s _ gameId playerId g' Hgid Hpid Heq)).
    exists gameId, game, g'. split_and!; [done..|]. by left.
Qed.

(** ** Invariants of the sessions a server builds *)

Lemma exec_invariant (env : Oracle) (P : GameState → Prop) (c : Command) (s : Server) :
  (∀ g, Created g → P g) →
  (∀ g g', P g → Transition g g' → P g') →
  map_Forall (λ _ g, P g) (games s) →
  map_Forall (λ _ g, P g) (games (exec env c s).2).
Proof.
  intros Hcreated Hstep Hs.
  destruct (exec_cases env c s)
    as [->|[(g' & _ & Hg' & ->)|(gameId & game & g' & _ & Hg & Htr & [->| ->])]].
  - done.
  - apply map_Forall_insert_2; [by apply Hcreated|done].
  - apply map_Forall_insert_2; [|done]. eapply Hstep; [|done]. by apply (Hs gameId).
  - assert (P g') by (eapply Hstep; [|done]; by apply (Hs gameId)).
    by do 2 (apply map_Forall_insert_2; [done|]).
Qed.

Lemma run_invariant (env : Oracle) (P : GameState → Prop) (cmds : list Command) :
  (∀ g, Created g → P g) →
  (∀ g g', P g → Transition g g' → P g') →
  map_Forall (λ _ g, P g) (games (run env cmds init)).
Proof.
  intros Hcreated Hstep. induction cmds as [|c cmds IH] using rev_ind.
  - apply map_Forall_empty.
  - rewrite run_snoc. by apply exec_invariant.
Qed.

(** X1: whatever commands the server has taken, every stored session still
    has the settings [createGame] wrote (a 45 second timer, at most 6 and at
    least 2 players to play) and holds at most 6 players. *)
Theorem sessions_within_capacity (env : Oracle) (cmds : list Command) :
  map_Forall (λ _ g, within_capacity g) (games (run env cmds init)).
Proof.
  apply run_invariant.
  - intros g [_ (host & Hps & _) _ _ (Htimer & Hmax & Hmin)].
    unfold within_capacity. rewrite Hps. cbn. split_and!; [done..|lia].
  - intros g g' (Htimer & Hmax & Hmin & Hlen) Htr. unfold within_capacity.
    destruct Htr as [pi ci player card _ _ (_ & Ht & Hma & Hmi) Hps _ _ _ _ _
                    |i p pcs _ _ (_ & Ht & Hma & Hmi) Hps _ _ _ _
                    |newp Hroom _ (_ & Ht & Hma & Hmi) Hps _ _ _ _
                    |pi player Hpi (_ & Ht & Hma & Hmi) Hps _ _ _ _
                    | ->].
    + rewrite Ht, Hma, Hmi, Hps, length_insert. by split_and!.
    + rewrite Ht, Hma, Hmi, Hps, length_insert. by split_and!.
    + rewrite Ht, Hma, Hmi, Hps, length_app. cbn. rewrite Hmax in Hroom.
      split_and!; [done..|lia].
    + rewrite Ht, Hma, Hmi, Hps. split_and!; [done..|].
      rewrite length_delete by eauto. lia.
    + cbn. by split_and!.
Qed.

(** X2: no route ever assigns the phase accusation: no stored session is in
    it, whatever commands the server has taken. *)
Theorem phase_accusation_never_occurs (env : Oracle) (cmds : list Command) :
  map_Forall (λ _ g, phase g ≠ accusation) (games (run env cmds init)).
Proof.
  apply run_invariant.
  - intros g [Hphase _ _ _ _]. by rewrite Hphase.
  - intros g g' Hg Htr.
    destruct Htr as [pi ci player card _ _ _ _ Hphase _ _ _ _
                    |i p pcs _ _ _ _ Hphase _ _ _
                    |newp _ _ _ _ Hphase _ _ _
                    |pi player _ _ _ Hphase _ _ _
                    | ->]; try rewrite Hphase; try done.
    + by destruct (bool_decide _).
    + by destruct (_ && _).
    + by destruct (bool_decide _).
Qed.

(** X3: in every stored session the last played card is the last card of
    [centerPile] (none when the pile is empty), and [lastPlayerId] is set
    exactly when [lastPlayedCard] is. *)
Theorem last_play_is_top_of_pile (env : Oracle) (cmds : list Command) :
  map_Forall (λ _ g, last_play_on_top g) (games (run env cmds init)).
Proof.
  apply run_invariant.
  - intros g [_ _ (Hpile & Hcard & Hid) _ _]. unfold last_play_on_top.
    rewrite Hpile, Hcard, Hid. split; [done|]. split; intros [? [=]].
  - intros g g' (Htop & Hboth) Htr. unfold last_play_on_top.
    destruct Htr as [pi ci player card _ _ _ _ _ Hpile Hcard Hid _
                    |i p pcs _ _ _ _ _ (Hpile & Hcard & Hid) _ _
                    |newp _ _ _ _ _ (Hpile & Hcard & Hid) _ _
                    |pi player _ _ _ _ (Hpile & Hcard & Hid) _ _
                    | ->]; try (by rewrite Hpile, Hcard, Hid).
    + rewrite Hpile, Hcard, Hid, last_snoc. split; [done|]. split; eauto.
    + by cbn.
Qed.

Lemma generateGameId_loop_counters (env : Oracle) (n : nat) (result : string)
    (s s' : Server) :
  random_calls s = random_calls s' →
  (generateGameId_loop env n result s).1 = (generateGameId_loop env n result s').1.
Proof.
  revert result s s'. induction n as [|n IH]; intros result s s' Hrc; cbn [generateGameId_loop].
  - reflexivity.
  - rewrite (bind_ret _ _ _ _ _ (Math_random_eq env s)),
            (bind_ret _ _ _ _ _ (Math_random_eq env s')), Hrc.
    apply IH. cbn. by rewrite Hrc.
Qed.

Lemma createGame_stored (env : Oracle) (s : Server) (hostPlayer : Player) (id : string) :
  (generateGameId env s).1 = Ret id →
  ∃ g',
    createGame env hostPlayer s = (Ret g', put_game id g' (tick 61 65 1 s)) ∧
    g_id g' = id ∧
    Created g' ∧
    p_id <$> players g' = [p_id hostPlayer].
Proof.
  intros Hgen. unfold createGame. unfold generateGameId in *.
  destruct (generateGameId_loop_eq env 6 "" s) as (gameId & Hid).
  rewrite Hid in Hgen. injection Hgen as ->.
  rewrite (bind_ret _ _ _ _ _ Hid).
  destruct (createDeck_length env (tick 0 6 0 s)) as (deck & Hdeck & Hlen).
  rewrite (bind_ret _ _ _ _ _ Hdeck).
  eexists. split.
  { cbv [mbind M_bind mret M_ret randomUUID Date_now games_set put_game tick]. cbn.
    same_outcome. }
  clear Hdeck Hid.
  split; [reflexivity|]. split; [|reflexivity].
  constructor; cbn.
  - reflexivity.
  - eexists. split; [reflexivity|]. cbn. rewrite length_take, Hlen. by split.
  - by split_and!.
  - eexists. split; reflexivity.
  - by split_and!.
Qed.

(** X4: [createGame] does not test whether the id it generated is in use.
    When a session is stored under that id, [CreateGame] succeeds all the
    same and the session is replaced by the new one, which waits with the
    host alone: the store has the ids it had, the sessions under the other
    ids are untouched, and nothing is broadcast. *)
Theorem create_replaces_session_with_same_id (env : Oracle) (s : Server)
    (playerName id : string) (old : GameState) :
  (generateGameId env s).1 = Ret id →
  games s !! id = Some old →
  ∃ g' s',
    handleCreate env playerName s
      = (Ret (json_joined g' (uuid_at env (uuid_calls s))), s') ∧
    games s' !! id = Some g' ∧
    Created g' ∧
    p_id <$> players g' = [uuid_at env (uuid_calls s)] ∧
    dom (games s') = dom (games s) ∧
    (∀ k, k ≠ id → games s' !! k = games s !! k) ∧
    sent s' = sent s.
Proof.
  intros Hgen Hold.
  assert (Hsame : (generateGameId env s).1 = (generateGameId env (tick 1 0 0 s)).1).
  { apply generateGameId_loop_counters. cbn. lia. }
  rewrite Hsame in Hgen.
  destruct (createGame_stored env (tick 1 0 0 s)
              {| p_id := uuid_at env (uuid_calls s); p_name := playerName; cardCount := 0;
                 cards := []; avatar := toUpperCase env (charAt 0 playerName);
                 isOnline := true |} id Hgen) as (g' & Heq & Hid & Hcreated & Hps).
  eexists g', _. split.
  { unfold handleCreate, try_catch.
    rewrite (bind_ret _ _ _ _ _ (new_player_eq env playerName s)), (bind_ret _ _ _ _ _ Heq).
    reflexivity. }
  cbn [put_game tick games sent].
  split; [by rewrite lookup_insert_eq|]. split; [exact Hcreated|]. split; [exact Hps|].
  split; [|split; [|reflexivity]].
  - rewrite dom_insert_L. apply elem_of_dom_2 in Hold.
    apply set_eq. intros k. rewrite elem_of_union, elem_of_singleton.
    split; [by intros [->|]|by right].
  - intros k Hk. by rewrite lookup_insert_ne.
Qed.

Lemma create_replaces_session_with_same_id_witness :
  let s := run colliding_env [CreateGame "Alice"; JoinGame "AAAAAA" "Bob"] init in
  ∃ old,
    games s !! "AAAAAA" = Some old ∧
    p_name <$> players old = ["Alice"; "Bob"] ∧
    ∃ g' s',
      handleCreate colliding_env "Mallory" s
        = (Ret (json_joined g' (uuid_at colliding_env (uuid_calls s))), s') ∧
      games s' !! "AAAAAA" = Some g' ∧
      Created g' ∧
      p_id <$> players g' = [uuid_at colliding_env (uuid_calls s)] ∧
      dom (games s') = dom (games s) ∧
      (∀ k, k ≠ "AAAAAA" → games s' !! k = games s !! k) ∧
      sent s' = sent s.
Proof.
  intros s. eexists. split; [vm_compute; reflexivity|]. split; [reflexivity|].
  eapply (create_replaces_session_with_same_id colliding_env s "Mallory" "AAAAAA");
    vm_compute; reflexivity.
Defined.

(** X5: in a store that holds every session under its own id, a command
    other than [CreateGame] leaves every session in place with its events
    and its [centerPile] extended at the end or unchanged: nothing is ever
    taken back from the log or from the pile. *)
Theorem history_only_grows (env : Oracle) (c : Command) (s : Server) (k : string)
    (g : GameState) :
  well_keyed s →
  is_Some (target c) →
  games s !! k = Some g →
  ∃ g', games (exec env c s).2 !! k = Some g' ∧
        events g `prefix_of` events g' ∧
        centerPile g `prefix_of` centerPile g'.
Proof.
  intros Hkeys Htarget Hk.
  destruct (exec_cases env c s)
    as [Heq|[(g' & Hnone & _)|(gameId & game & g' & Hc & Hg & Htr & Heq)]].
  - exists g. by rewrite Heq.
  - rewrite Hnone in Htarget. by destruct Htarget.
  - assert (Hgrow : events game `prefix_of` events g' ∧
                    centerPile game `prefix_of` centerPile g' ∧ g_id g' = g_id game).
    { destruct Htr as [pi ci player card _ _ (Hid & _) _ _ Hpile _ _ (e & He & _)
                      |i p pcs _ _ (Hid & _) _ _ (Hpile & _) _ (e & He & _)
                      |newp _ _ (Hid & _) _ _ (Hpile & _) _ (es & He & _)
                      |pi player _ (Hid & _) _ _ (Hpile & _) _ (e & He & _)
                      | ->];
        try (rewrite He, Hpile; split_and!; [by apply prefix_app_r|try done|done]).
      - by apply prefix_app_r.
      - done. }
    destruct Hgrow as (Hevents & Hpile & Hid).
    pose proof (Hkeys gameId game Hg) as Hkey. cbn in Hkey.
    assert (Hstore : games (exec env c s).2 = <[gameId := g']> (games s)).
    { destruct Heq as [->| ->]; [done|].
      replace (g_id g') with gameId by congruence. by rewrite insert_insert_eq. }
    rewrite Hstore. destruct (decide (k = gameId)) as [->|Hne].
    + exists g'. rewrite lookup_insert_eq. by simplify_eq.
    + exists g. by rewrite lookup_insert_ne.
Qed.

Lemma tiny_server_well_keyed : well_keyed tiny_server.
Proof.
  unfold well_keyed, tiny_server. cbn.
  apply map_Forall_insert_2; [reflexivity|apply map_Forall_empty].
Qed.

Lemma history_only_grows_witness :
  ∃ g', games (exec sample_env (PlayCard "ROOM01" "b" "k2") tiny_server).2 !! "ROOM01"
        = Some g' ∧
        events tiny_game `prefix_of` events g' ∧
        centerPile tiny_game `prefix_of` centerPile g'.
Proof.
  apply (history_only_grows sample_env (PlayCard "ROOM01" "b" "k2") tiny_server "ROOM01"
           tiny_game);
    [exact tiny_server_well_keyed | by eexists | reflexivity].
Defined.

(** X6: whatever commands the server has taken, every session is stored
    under its own id, so the [updateGame] of a route always overwrites the
    entry the route read and never another session. *)
Theorem sessions_stored_under_own_id (env : Oracle) (cmds : list Command) :
  well_keyed (run env cmds init).
Proof.
  induction cmds as [|c cmds IH] using rev_ind.
  - apply map_Forall_empty.
  - rewrite run_snoc. apply exec_well_keyed. exact IH.
Qed.

(** ** Rejected and accepted commands *)

Lemma exec_outcome (env : Oracle) (c : Command) (s : Server) :
  (∃ status msg s',
      exec env c s = (Ret (Some (json_message status msg)), s') ∧
      games s' = games s ∧ sent s' = sent s) ∨
  (∃ g s', answered (exec env c s).1 = Some g ∧
           exec env c s = ((exec env c s).1, s') ∧
           sent s' = sent s ++ broadcast_of c) ∨
  (∃ gameId playerId, c = Disconnect gameId playerId).
Proof.
  destruct c as [name|gameId name|gameId|gameId playerId cardId|gameId accusing accused
                |gameId|gameId playerId].
  - right; left. destruct (handleCreate_created env s name) as (g' & Heq & _).
    rewrite (exec_CreateGame _ _ _ _ _ Heq). eexists g', _. split_and!; [done..|].
    cbn. by rewrite app_nil_r.
  - destruct (games s !! gameId) as [game|] eqn:Hg.
    2: { left. rewrite (exec_JoinGame _ _ _ _ _ _ (handleJoin_missing env s gameId name Hg)).
         by eexists _, _, _. }
    destruct (decide (length (players game) < maxPlayers game)) as [Hroom|Hfull].
    2: { left. rewrite (exec_JoinGame _ _ _ _ _ _
                          (handleJoin_full env s gameId name game Hg ltac:(lia))).
         by eexists _, _, _. }
    right; left.
    edestruct (addPlayerToGame_transition env (tick 1 0 0 s) gameId) as
      (g' & u & t & Heq & _); [exact Hg|exact Hroom|].
    rewrite (exec_JoinGame _ _ _ _ _ _ (handleJoin_added env s _ gameId name game g' Hg Heq)).
    eexists g', _. split_and!; done.
  - rewrite exec_GetGame. destruct (games s !! gameId) as [game|].
    + right; left. eexists game, _. split_and!; [done..|]. cbn. by rewrite app_nil_r.
    + left. by eexists _, _, _.
  - destruct (handlePlay_cases env s gameId playerId cardId)
      as [(status & msg & Heq)|(game & pi & player & ci & card & Hg & Hp & Hcur & Hc)].
    { left. rewrite (exec_PlayCard _ _ _ _ _ _ _ Heq). by eexists _, _, _. }
    destruct (handlePlay_transition env s gameId playerId cardId game pi ci player card
                Hg Hp Hcur Hc) as (g' & Heq & _).
    right; left. rewrite (exec_PlayCard _ _ _ _ _ _ _ Heq). eexists g', _. by split_and!.
  - destruct (handleAccuse_cases env s gameId accusing accused)
      as [(status & msg & Heq)
         |(game & lastCard & ai & ap & di & dp & Hg & Hcard & Hlast & Ha & Hd)].
    { left. rewrite (exec_AccusePlayer _ _ _ _ _ _ _ Heq). by eexists _, _, _. }
    destruct (handleAccuse_transition env s gameId accusing accused game lastCard ai di ap dp
                Hg Hcard Hlast Ha Hd) as (g' & Heq & _).
    right; left. rewrite (exec_AccusePlayer _ _ _ _ _ _ _ Heq). eexists g', _. by split_and!.
  - destruct (games s !! gameId) as [game|] eqn:Hg.
    + right; left. rewrite (exec_Continue _ _ _ _ _ (handleContinue_ok s gameId game Hg)).
      eexists _, _. by split_and!.
    + left. rewrite (exec_Continue _ _ _ _ _ (handleContinue_missing s gameId Hg)).
      by eexists _, _, _.
  - right; right. eauto.
Qed.

(** X7: a request answered with an error message (unknown game or player, not
    your turn, card not found, no card to accuse, game full) leaves every
    stored session as it was and broadcasts nothing. *)
Theorem rejected_requests_are_silent (env : Oracle) (c : Command) (s s' : Server)
    (status : nat) (msg : string) :
  exec env c s = (Ret (Some (json_message status msg)), s') →
  games s' = games s ∧ sent s' = sent s.
Proof.
  intros Hrun.
  destruct (exec_outcome env c s)
    as [(status' & msg' & s'' & Heq & Hgames & Hsent)
       |[(g & s'' & Hans & _)|(gameId & playerId & ->)]].
  - rewrite Heq in Hrun. by simplify_eq.
  - rewrite Hrun in Hans. discriminate.
  - cbn [exec] in Hrun. unfold mbind, M_bind in Hrun.
    destruct (wsClose env gameId playerId s) as [[[]|] ?]; discriminate.
Qed.

Lemma rejected_requests_are_silent_witness :
  games (exec sample_env (JoinGame "NOROOM" "Dave") tiny_server).2 = games tiny_server ∧
  sent (exec sample_env (JoinGame "NOROOM" "Dave") tiny_server).2 = sent tiny_server.
Proof.
  apply (rejected_requests_are_silent sample_env (JoinGame "NOROOM" "Dave") tiny_server _
           404 "Game not found").
  vm_compute. reflexivity.
Defined.

(** X8: a request answered with a session broadcasts exactly once to the
    game it names ([player_joined], [card_played], [accusation] or
    [game_state]), except [CreateGame] and [GetGame], which broadcast
    nothing. *)
Theorem accepted_requests_broadcast_once (env : Oracle) (c : Command) (s : Server)
    (g : GameState) :
  answered (exec env c s).1 = Some g →
  sent (exec env c s).2 = sent s ++ broadcast_of c.
Proof.
  intros Hans.
  destruct (exec_outcome env c s)
    as [(status' & msg' & s'' & Heq & _)
       |[(g' & s'' & _ & Heq & Hsent)|(gameId & playerId & ->)]].
  - rewrite Heq in Hans. discriminate.
  - by rewrite Heq.
  - cbn [exec] in Hans. unfold mbind, M_bind in Hans.
    destruct (wsClose env gameId playerId s) as [[[]|] ?]; discriminate.
Qed.

Lemma accepted_requests_broadcast_once_witness :
  sent (exec sample_env (AccusePlayer "ROOM01" "b" "a") tiny_server).2
  = sent tiny_server ++ [("ROOM01", msg_accusation)].
Proof.
  eapply (accepted_requests_broadcast_once sample_env (AccusePlayer "ROOM01" "b" "a")
            tiny_server).
  vm_compute. reflexivity.
Defined.

Lemma find_player_none (playerId : string) (ps : list Player) :
  playerId ∉ p_id <$> ps → list_find (λ p, p_id p = playerId) ps = None.
Proof.
  intros Hnot. apply list_find_None, Forall_forall. intros p Hp Hid.
  apply Hnot, list_elem_of_fmap. by exists p.
Qed.

Lemma find_card_none (cardId : string) (hand : list Card) :
  cardId ∉ c_id <$> hand → list_find (λ c, c_id c = cardId) hand = None.
Proof.
  intros Hnot. apply list_find_None, Forall_forall. intros c Hc Hid.
  apply Hnot, list_elem_of_fmap. by exists c.
Qed.

(** X9: a [PlayCard] in the name of somebody who is not a player of the
    session is answered 404, "Player not found", and changes nothing; the
    membership test comes before the turn test, so this also holds when
    [currentPlayerId] still names a player who has left. *)
Theorem play_by_non_member (env : Oracle) (s : Server) (gameId playerId cardId : string)
    (game : GameState) :
  games s !! gameId = Some game →
  playerId ∉ p_id <$> players game →
  handlePlay env gameId playerId cardId s = (Ret (json_message 404 "Player not found"), s).
Proof.
  intros Hg Hnot. unfold handlePlay, try_catch.
  by rewrite (bind_ret _ _ _ _ _ (getGame_eq gameId s)), Hg, (find_player_none _ _ Hnot).
Qed.

Lemma play_by_non_member_witness :
  handlePlay sample_env "ROOM01" "z" "k1" tiny_server
  = (Ret (json_message 404 "Player not found"), tiny_server).
Proof.
  apply (play_by_non_member sample_env tiny_server "ROOM01" "z" "k1" tiny_game);
    [reflexivity|].
  apply (bool_decide_unpack _). vm_compute. exact I.
Defined.

(** X10: the current player can only play a card of the own hand: with a
    card id that is not in it (a card of another hand, of the pile, or an
    unknown id) [PlayCard] is answered 400, "Card not found", and changes
    nothing. *)
Theorem play_card_not_in_hand (env : Oracle) (s : Server) (gameId playerId cardId : string)
    (game : GameState) (pi : nat) (player : Player) :
  games s !! gameId = Some game →
  list_find (λ p, p_id p = playerId) (players game) = Some (pi, player) →
  currentPlayerId game = playerId →
  cardId ∉ c_id <$> cards player →
  handlePlay env gameId playerId cardId s = (Ret (json_message 400 "Card not found"), s).
Proof.
  intros Hg Hp Hcur Hnot. unfold handlePlay, try_catch.
  rewrite (bind_ret _ _ _ _ _ (getGame_eq gameId s)), Hg, Hp.
  rewrite bool_decide_eq_false_2 by (intros ?; congruence).
  by rewrite (find_card_none _ _ Hnot).
Qed.

Lemma play_card_not_in_hand_witness :
  handlePlay sample_env "ROOM01" "b" "k4" tiny_server
  = (Ret (json_message 400 "Card not found"), tiny_server).
Proof.
  apply (play_card_not_in_hand sample_env tiny_server "ROOM01" "b" "k4" tiny_game 1
           (tiny_player "b" "Bob" [ {| c_id := "k2"; c_type := truth |};
                                    {| c_id := "k3"; c_type := lie |} ]));
    [reflexivity | reflexivity | reflexivity |].
  apply (bool_decide_unpack _). vm_compute. exact I.
Defined.

(** X11: with a card to accuse in the session, an [AccusePlayer] whose
    accusing or accused id names no player is answered 404, "Player not
    found", and changes nothing: no phase change and no penalty. *)
Theorem accuse_by_or_of_non_member (env : Oracle) (s : Server)
    (gameId accusing accused lastId : string) (game : GameState) (lastCard : Card) :
  games s !! gameId = Some game →
  lastPlayedCard game = Some lastCard →
  lastPlayerId game = Some lastId →
  lastId ≠ "" →
  accusing ∉ p_id <$> players game ∨ accused ∉ p_id <$> players game →
  handleAccuse env gameId accusing accused s
  = (Ret (json_message 404 "Player not found"), s).
Proof.
  intros Hg Hcard Hlast Hne Hnot. unfold handleAccuse, try_catch.
  rewrite (bind_ret _ _ _ _ _ (getGame_eq gameId s)), Hg, Hcard, Hlast.
  cbn [falsy]. rewrite bool_decide_eq_false_2 by done.
  destruct Hnot as [Hnot|Hnot]; rewrite (find_player_none _ _ Hnot).
  - done.
  - by destruct (list_find _ _) as [[]|].
Qed.

Lemma accuse_by_or_of_non_member_witness :
  handleAccuse sample_env "ROOM01" "b" "z" tiny_server
  = (Ret (json_message 404 "Player not found"), tiny_server).
Proof.
  apply (accuse_by_or_of_non_member sample_env tiny_server "ROOM01" "b" "z" "a" tiny_game
           {| c_id := "k0"; c_type := lie |});
    [reflexivity | reflexivity | reflexivity | discriminate |].
  right. apply (bool_decide_unpack _). vm_compute. exact I.
Defined.

(** X12: joining a session that already holds [maxPlayers] players is
    answered 400, "Game is full"; the sessions and the broadcast log are
    untouched and the only trace is the identifier drawn for the rejected
    player. *)
Theorem join_full_game (env : Oracle) (s : Server) (gameId playerName : string)
    (game : GameState) :
  games s !! gameId = Some game →
  maxPlayers game ≤ length (players game) →
  ∃ s', handleJoin env gameId playerName s = (Ret (json_message 400 "Game is full"), s') ∧
        games s' = games s ∧ sent s' = sent s ∧
        uuid_calls s' = uuid_calls s + 1 ∧
        random_calls s' = random_calls s ∧ now_calls s' = now_calls s.
Proof.
  intros Hg Hfull. exists (tick 1 0 0 s).
  rewrite (handleJoin_full env s gameId playerName game Hg Hfull).
  cbn. split_and!; try done; lia.
Qed.

Lemma join_full_game_witness :
  ∃ s', handleJoin sample_env "ROOM01" "Dave" tiny_full
        = (Ret (json_message 400 "Game is full"), s') ∧
        games s' = games tiny_full ∧ sent s' = sent tiny_full ∧
        uuid_calls s' = uuid_calls tiny_full + 1 ∧
        random_calls s' = random_calls tiny_full ∧ now_calls s' = now_calls tiny_full.
Proof.
  apply (join_full_game sample_env tiny_full "ROOM01" "Dave" tiny_full_game);
    [reflexivity | cbn; lia].
Defined.

(** ** A closing connection *)

Lemma removePlayerFromGame_fields (env : Oracle) (s : Server) (gameId playerId : string)
    (game : GameState) (pi : nat) (player : Player) :
  games s !! gameId = Some game →
  list_find (λ p, p_id p = playerId) (players game) = Some (pi, player) →
  ∃ g',
    removePlayerFromGame env gameId playerId s = (Ret g', put_game gameId g' (tick 1 0 1 s)) ∧
    players g' = delete pi (players game) ∧
    phase g' = (if bool_decide (length (delete pi (players game)) < minPlayers game)
                then finished else phase game) ∧
    currentPlayerId g' = currentPlayerId game ∧
    centerPile g' = centerPile game.
Proof.
  intros Hg Hp. unfold removePlayerFromGame.
  rewrite (bind_ret _ _ _ _ _ (getGame_eq gameId s)), Hg, Hp.
  eexists. split.
  { cbv [mbind M_bind mret M_ret randomUUID Date_now games_set put_game tick]. cbn.
    same_outcome. }
  cbn [players phase push_event with_players minPlayers].
  destruct (bool_decide (length (delete pi (players game)) < minPlayers game));
    split_and!; reflexivity.
Qed.

(** X13: when the WebSocket of a client that announced a game and one of its
    players closes, the first player with that id leaves [players] with the
    whole hand, [player_left] is broadcast once, the phase becomes finished
    if fewer than [minPlayers] players remain and is kept otherwise, and
    [currentPlayerId] and [centerPile] are not touched. *)
Theorem close_removes_player (env : Oracle) (s : Server) (gameId playerId : string)
    (game : GameState) (pi : nat) (player : Player) :
  gameId ≠ "" → playerId ≠ "" →
  games s !! gameId = Some game →
  list_find (λ p, p_id p = playerId) (players game) = Some (pi, player) →
  ∃ g' s',
    wsClose env gameId playerId s = (Ret (), s') ∧
    games s' = <[gameId := g']> (games s) ∧
    sent s' = sent s ++ [(gameId, msg_player_left)] ∧
    players g' = delete pi (players game) ∧
    total_cards g' + length (cards player) = total_cards game ∧
    phase g' = (if bool_decide (length (players game) - 1 < minPlayers game)
                then finished else phase game) ∧
    currentPlayerId g' = currentPlayerId game ∧
    centerPile g' = centerPile game.
Proof.
  intros Hgid Hpid Hg Hp.
  destruct (removePlayerFromGame_fields env s gameId playerId game pi player Hg Hp)
    as (g' & Heq & Hps & Hphase & Hcur & Hpile).
  apply list_find_Some in Hp as (Hpi & _).
  exists g', (broadcastToGame gameId msg_player_left (put_game gameId g' (tick 1 0 1 s))).2.
  rewrite (wsClose_removed env s _ gameId playerId g' Hgid Hpid Heq).
  rewrite length_delete in Hphase by eauto.
  split_and!; try done.
  unfold total_cards. rewrite Hps, Hpile, list_fmap_delete.
  rewrite <-(take_drop_middle (length ∘ cards <$> players game) pi (length (cards player)))
    at 2 by (by rewrite list_lookup_fmap, Hpi).
  rewrite delete_take_drop, !sum_list_with_app. cbn. lia.
Qed.

Lemma close_removes_player_witness :
  ∃ g' s',
    wsClose sample_env "ROOM01" "b" tiny_server = (Ret (), s') ∧
    games s' = <["ROOM01" := g']> (games tiny_server) ∧
    sent s' = sent tiny_server ++ [("ROOM01", msg_player_left)] ∧
    players g' = delete 1 (players tiny_game) ∧
    total_cards g' + 2 = total_cards tiny_game ∧
    phase g' = playing ∧
    currentPlayerId g' = "b" ∧
    centerPile g' = centerPile tiny_game.
Proof.
  apply (close_removes_player sample_env tiny_server "ROOM01" "b" tiny_game 1
           (tiny_player "b" "Bob" [ {| c_id := "k2"; c_type := truth |};
                                    {| c_id := "k3"; c_type := lie |} ]));
    [discriminate | discriminate | reflexivity | reflexivity].
Defined.

(** X14: the closing of a connection that announced nothing, an unknown game
    or somebody who is not a player of the game changes nothing and
    broadcasts nothing: the error of [removePlayerFromGame] is swallowed. *)
Theorem close_of_stranger_is_ignored (env : Oracle) (s : Server) (gameId playerId : string) :
  gameId = "" ∨ playerId = "" ∨ games s !! gameId = None ∨
  (∃ game, games s !! gameId = Some game ∧ playerId ∉ p_id <$> players game) →
  wsClose env gameId playerId s = (Ret (), s).
Proof.
  intros [Hgid|[Hpid|[Hg|(game & Hg & Hnot)]]].
  - apply wsClose_ignored. by left.
  - apply wsClose_ignored. by right.
  - apply wsClose_failed. by left.
  - apply wsClose_failed. right. exists game. split; [done|]. by apply find_player_none.
Qed.

Lemma close_of_stranger_is_ignored_witness :
  wsClose sample_env "ROOM01" "z" tiny_server = (Ret (), tiny_server).
Proof.
  apply (close_of_stranger_is_ignored sample_env tiny_server "ROOM01" "z").
  right; right; right. exists tiny_game. split; [reflexivity|].
  apply (bool_decide_unpack _). vm_compute. exact I.
Defined.

(** ** Operations in sequence *)

Lemma ids_after_insert (ps : list Player) (i : nat) (p p' : Player) :
  ps !! i = Some p → p_id p' = p_id p → p_id <$> <[i := p']> ps = p_id <$> ps.
Proof.
  intros Hi Hid. rewrite list_fmap_insert, Hid.
  apply list_insert_id. by rewrite list_lookup_fmap, Hi.
Qed.

Lemma handleAccuse_accepted (env : Oracle) (s : Server) (gameId accusing accused : string)
    (game : GameState) (lastCard : Card) :
  games s !! gameId = Some game →
  lastPlayedCard game = Some lastCard →
  falsy (lastPlayerId game) = false →
  accusing ∈ p_id <$> players game →
  accused ∈ p_id <$> players game →
  ∃ g',
    handleAccuse env gameId accusing accused s
      = (Ret (json_game g'), commit gameId g' msg_accusation 11 10 1 s) ∧
    phase g' = revelation ∧
    revealedCard g' = Some lastCard ∧
    accusingPlayerId g' = Some accusing ∧
    lastPlayedCard g' = Some lastCard ∧
    lastPlayerId g' = lastPlayerId game ∧
    p_id <$> players g' = p_id <$> players game ∧
    total_cards g' = total_cards game + 3.
Proof.
  intros Hg Hcard Hlast Ha Hd.
  destruct (find_player_member _ _ Ha) as (ai & ap & Hfa).
  destruct (find_player_member _ _ Hd) as (di & dp & Hfd).
  destruct (handleAccuse_ok env s gameId accusing accused game lastCard ai di ap dp
              Hg Hcard Hlast Hfa Hfd)
    as (g' & deck & Heq & _ & Hlen & _ & Hphase & Hps & _ & Hpile & Hlc & Hlp & Hacc & Hrev & _).
  exists g'. split; [exact Heq|].
  apply list_find_Some in Hfa as (Hai & _). apply list_find_Some in Hfd as (Hdi & _).
  cbv zeta in Hps.
  split_and!; try done.
  - rewrite Hps. destruct (bool_decide (c_type lastCard = lie));
      by (eapply ids_after_insert; [done|]).
  - destruct (bool_decide (c_type lastCard = lie)).
    + pose proof (total_cards_insert game g' di dp _ Hdi Hps) as Htotal.
      cbn [cards with_cards with_cardCount] in Htotal.
      rewrite Hpile, length_app, length_take in Htotal. lia.
    + pose proof (total_cards_insert game g' ai ap _ Hai Hps) as Htotal.
      cbn [cards with_cards with_cardCount] in Htotal.
      rewrite Hpile, length_app, length_take in Htotal. lia.
Qed.

(** X16: [ContinueAfterRevelation] puts the phase back to playing and clears
    [revealedCard] and [accusingPlayerId] but keeps the last play, so the
    accusation that was just resolved can be made again with the same
    arguments: it succeeds again, reveals the same card, and deals three more
    penalty cards. *)
Theorem accusation_can_be_repeated (env : Oracle) (s s1 : Server)
    (gameId accusing accused : string) (g1 : GameState) :
  handleAccuse env gameId accusing accused s = (Ret (json_game g1), s1) →
  ∃ g2 s2 g3 s3,
    handleContinue gameId s1 = (Ret (json_game g2), s2) ∧
    phase g2 = playing ∧ revealedCard g2 = None ∧ accusingPlayerId g2 = None ∧
    lastPlayedCard g2 = lastPlayedCard g1 ∧
    handleAccuse env gameId accusing accused s2 = (Ret (json_game g3), s3) ∧
    phase g3 = revelation ∧
    revealedCard g3 = revealedCard g1 ∧
    total_cards g3 = total_cards g1 + 3.
Proof.
  intros Hrun.
  destruct (handleAccuse_cases env s gameId accusing accused)
    as [(status & msg & Hfail)
       |(game & lastCard & ai & ap & di & dp & Hg & Hcard & Hlast & Ha & Hd)].
  { rewrite Hfail in Hrun. discriminate. }
  assert (Hma : accusing ∈ p_id <$> players game).
  { apply list_find_Some in Ha as (Hi & Hid & _). apply list_elem_of_fmap.
    exists ap. split; [done|]. by eapply list_elem_of_lookup_2. }
  assert (Hmd : accused ∈ p_id <$> players game).
  { apply list_find_Some in Hd as (Hi & Hid & _). apply list_elem_of_fmap.
    exists dp. split; [done|]. by eapply list_elem_of_lookup_2. }
  destruct (handleAccuse_accepted env s gameId accusing accused game lastCard
              Hg Hcard Hlast Hma Hmd)
    as (g1' & Heq & _ & Hrev1 & _ & Hlc1 & Hlp1 & Hids1 & _).
  rewrite Heq in Hrun. injection Hrun as -> <-.
  pose proof (commit_lookup gameId g1 msg_accusation 11 10 1 s) as Hg1.
  pose proof (handleContinue_ok _ gameId g1 Hg1) as Hcont. cbv zeta in Hcont.
  set (g2 := with_accusingPlayerId None (with_revealedCard None (with_phase playing g1)))
    in Hcont.
  pose proof (commit_lookup gameId g2 msg_game_state 0 0 0
                (commit gameId g1 msg_accusation 11 10 1 s)) as Hg2.
  destruct (handleAccuse_accepted env _ gameId accusing accused g2 lastCard Hg2)
    as (g3 & Heq3 & Hphase3 & Hrev3 & _ & _ & _ & _ & Htotal3);
    [done| by (cbn; rewrite Hlp1) | by (cbn; rewrite Hids1) | by (cbn; rewrite Hids1) |].
  eexists g2, _, g3, _. split; [exact Hcont|].
  split_and!; try done. congruence.
Qed.

Lemma accusation_can_be_repeated_witness :
  ∃ g1 s1,
    handleAccuse sample_env "ROOM01" "b" "a" tiny_server = (Ret (json_game g1), s1) ∧
    ∃ g2 s2 g3 s3,
      handleContinue "ROOM01" s1 = (Ret (json_game g2), s2) ∧
      phase g2 = playing ∧ revealedCard g2 = None ∧ accusingPlayerId g2 = None ∧
      lastPlayedCard g2 = lastPlayedCard g1 ∧
      handleAccuse sample_env "ROOM01" "b" "a" s2 = (Ret (json_game g3), s3) ∧
      phase g3 = revelation ∧
      revealedCard g3 = revealedCard g1 ∧
      total_cards g3 = total_cards g1 + 3.
Proof.
  eexists _, _. split; [vm_compute; reflexivity|].
  apply (accusation_can_be_repeated sample_env tiny_server _ "ROOM01" "b" "a").
  vm_compute. reflexivity.
Defined.

Lemma createGame_fields (env : Oracle) (s : Server) (hostPlayer : Player) :
  ∃ g' deck,
    createGame env hostPlayer s = (Ret g', put_game (g_id g') g' (tick 61 65 1 s)) ∧
    length deck = 60 ∧
    phase g' = waiting ∧
    players g' = [ with_cardCount 7 (with_cards (take 7 deck) hostPlayer) ] ∧
    currentPlayerId g' = p_id hostPlayer ∧
    maxPlayers g' = 6 ∧ minPlayers g' = 2 ∧
    e_type <$> events g' = [join].
Proof.
  unfold createGame, generateGameId.
  destruct (generateGameId_loop_eq env 6 "" s) as (gameId & Hid).
  rewrite (bind_ret _ _ _ _ _ Hid).
  destruct (createDeck_length env (tick 0 6 0 s)) as (deck & Hdeck & Hlen).
  rewrite (bind_ret _ _ _ _ _ Hdeck).
  rewrite length_take, Hlen. change (7 `min` 60) with 7.
  clear Hdeck Hid.
  eexists _, deck. split.
  { cbv [mbind M_bind mret M_ret randomUUID Date_now games_set put_game tick]. cbn.
    same_outcome. }
  split_and!; reflexivity || assumption.
Qed.

Lemma handleCreate_fields (env : Oracle) (s : Server) (playerName : string) :
  ∃ g' deck,
    handleCreate env playerName s
      = (Ret (json_joined g' (uuid_at env (uuid_calls s))),
         put_game (g_id g') g' (tick 62 65 1 s)) ∧
    length deck = 60 ∧
    phase g' = waiting ∧
    players g' =
      [ with_cardCount 7
          (with_cards (take 7 deck)
             {| p_id := uuid_at env (uuid_calls s); p_name := playerName; cardCount := 0;
                cards := []; avatar := toUpperCase env (charAt 0 playerName);
                isOnline := true |}) ] ∧
    currentPlayerId g' = uuid_at env (uuid_calls s) ∧
    maxPlayers g' = 6 ∧ minPlayers g' = 2 ∧
    e_type <$> events g' = [join].
Proof.
  edestruct (createGame_fields env (tick 1 0 0 s)) as (g' & deck & Heq & Hrest).
  exists g', deck. split; [|exact Hrest].
  unfold handleCreate, try_catch.
  rewrite (bind_ret _ _ _ _ _ (new_player_eq env playerName s)), (bind_ret _ _ _ _ _ Heq).
  cbn [p_id]. unfold put_game, tick. cbn. same_outcome.
Qed.

(** X17: a game created by one player and joined by a second starts at once:
    after [CreateGame] the session waits with the host alone; after
    [JoinGame] on its id it is playing, the host has the first turn, both
    players hold 7 cards and the events are join, join, game_start. *)
Theorem create_then_join (env : Oracle) (s : Server) (hostName guestName : string) :
  ∃ g1 s1 g2 s2,
    handleCreate env hostName s = (Ret (json_joined g1 (uuid_at env (uuid_calls s))), s1) ∧
    phase g1 = waiting ∧
    games s1 !! g_id g1 = Some g1 ∧
    handleJoin env (g_id g1) guestName s1
      = (Ret (json_joined g2 (uuid_at env (uuid_calls s + 62))), s2) ∧
    games s2 !! g_id g1 = Some g2 ∧
    phase g2 = playing ∧
    currentPlayerId g2 = uuid_at env (uuid_calls s) ∧
    p_id <$> players g2 = [uuid_at env (uuid_calls s); uuid_at env (uuid_calls s + 62)] ∧
    p_name <$> players g2 = [hostName; guestName] ∧
    (λ p, (cardCount p, length (cards p))) <$> players g2 = [(7, 7); (7, 7)] ∧
    e_type <$> events g2 = [join; join; game_start].
Proof.
  destruct (handleCreate_fields env s hostName)
    as (g1 & deck1 & Hcreate & Hlen1 & Hphase1 & Hps1 & Hcur1 & Hmax1 & Hmin1 & Hev1).
  set (s1 := put_game (g_id g1) g1 (tick 62 65 1 s)) in *.
  assert (Hg1 : games s1 !! g_id g1 = Some g1) by apply put_game_lookup.
  assert (Hroom : length (players (g1)) < maxPlayers g1) by (rewrite Hps1, Hmax1; cbn; lia).
  destruct (addPlayerToGame_ok env (tick 1 0 0 s1) (g_id g1)
              {| p_id := uuid_at env (uuid_calls s1); p_name := guestName; cardCount := 0;
                 cards := []; avatar := toUpperCase env (charAt 0 guestName);
                 isOnline := true |} g1 Hg1 Hroom)
    as (g2 & deck2 & Hadd & _ & Hlen2 & _ & Hphase2 & Hps2 & Hcur2 & _ & _ & _ & _ & _
        & Hev2 & _).
  pose proof (handleJoin_added env s1 _ (g_id g1) guestName g1 g2 Hg1 Hadd) as Hjoin.
  assert (Hstarts : bool_decide (minPlayers g1 ≤ length (players g1) + 1)
                    && bool_decide (phase g1 = waiting) = true).
  { rewrite Hmin1, Hps1, Hphase1. reflexivity. }
  rewrite Hstarts in Hphase2, Hev2.
  assert (Huuid : uuid_calls s1 = uuid_calls s + 62) by reflexivity.
  rewrite Huuid in Hjoin, Hps2.
  eexists g1, s1, g2, _. split; [exact Hcreate|].
  split; [exact Hphase1|]. split; [exact Hg1|]. split; [exact Hjoin|].
  split_and!.
  - cbn. by rewrite lookup_insert_eq.
  - exact Hphase2.
  - by rewrite Hcur2.
  - by rewrite Hps2, Hps1.
  - by rewrite Hps2, Hps1.
  - rewrite Hps2, Hps1. cbn. rewrite !length_take, Hlen1, Hlen2. reflexivity.
  - rewrite Hev2, fmap_app, Hev1. reflexivity.
Qed.

(** ** Game codes *)

Lemma string_length_app (a b : string) :
  String.length (a +:+ b) = String.length a + String.length b.
Proof. induction a as [|c a IH]; simpl; [done|]. by f_equal. Qed.

Lemma string_forall_app (P : Ascii.ascii → bool) (a b : string) :
  string_forall P (a +:+ b) = string_forall P a && string_forall P b.
Proof. induction a as [|c a IH]; simpl; [done|]. by rewrite IH, andb_assoc. Qed.

Lemma floor_times_chars (m : N) :
  (m < two53)%N → floor_times m (str_length chars) < 36.
Proof. intros Hm. apply (floor_times_lt m 36 Hm); [lia|done]. Qed.

Lemma charAt_chars (j : nat) :
  j < 36 → String.length (charAt j chars) = 1 ∧ string_forall code_char (charAt j chars) = true.
Proof.
  intros Hj.
  do 36 (destruct j as [|j]; [by split|]). lia.
Qed.

Lemma generateGameId_loop_format (env : Oracle) (n : nat) (result : string) (s : Server) :
  string_forall code_char result = true →
  ∃ id, generateGameId_loop env n result s = (Ret id, tick 0 n 0 s) ∧
        String.length id = String.length result + n ∧
        string_forall code_char id = true.
Proof.
  revert result s. induction n as [|n IH]; intros result s Hres; cbn [generateGameId_loop].
  - exists result. rewrite tick_zero. split_and!; [done|lia|done].
  - rewrite (bind_ret _ _ _ _ _ (Math_random_eq env s)).
    destruct (charAt_chars _ (floor_times_chars _ (random_in_range env (random_calls s))))
      as [Hone Hcode].
    edestruct IH as (id & Heq & Hlen & Hid).
    { rewrite string_forall_app, Hres. exact Hcode. }
    rewrite Heq, tick_tick. exists id. split_and!; [done| |done].
    rewrite Hlen, string_length_app, Hone. lia.
Qed.

(** X18: the id of a new game is always 6 characters long, each an upper-case
    letter or a digit, and is made from 6 calls of [Math.random]. *)
Theorem generateGameId_format (env : Oracle) (s : Server) :
  ∃ id, generateGameId env s = (Ret id, tick 0 6 0 s) ∧
        String.length id = 6 ∧
        string_forall code_char id = true.
Proof.
  destruct (generateGameId_loop_format env 6 "" s eq_refl) as (id & Heq & Hlen & Hcode).
  by exists id.
Qed.

Lemma upper_ascii_code_char (c : Ascii.ascii) : code_char c = true → upper_ascii c = c.
Proof. by destruct c as [[] [] [] [] [] [] [] []]. Qed.

Lemma code_char_ascii (c : Ascii.ascii) :
  code_char c = true → (Ascii.N_of_ascii c <? 128)%N = true.
Proof. by destruct c as [[] [] [] [] [] [] [] []]. Qed.

(** No white space starts or ends with an upper-case letter or a digit. *)
Lemma skip_one_code_char (c : Ascii.ascii) (bs : list N) :
  code_char c = true →
  skip_one white_space (Ascii.N_of_ascii c :: bs) = None ∧
  skip_one (reverse <$> white_space) (Ascii.N_of_ascii c :: bs) = None.
Proof. destruct c as [[] [] [] [] [] [] [] []]; intros Hc; try done; by split. Qed.

Lemma bytes_code (s : string) :
  string_forall code_char s = true → Forall code_byte (bytes s).
Proof.
  induction s as [|c s IH]; cbn; [constructor|]. intros [Hc Hs]%andb_true_iff.
  constructor; [by exists c|by apply IH].
Qed.

Lemma skip_all_code (steps : nat) (bs : list N) :
  Forall code_byte bs →
  skip_all white_space steps bs = bs ∧
  skip_all (reverse <$> white_space) steps bs = bs.
Proof.
  intros Hbs. destruct steps as [|steps]; [done|].
  destruct Hbs as [|b bs (c & -> & Hc) _]; [done|].
  destruct (skip_one_code_char c bs Hc) as [Hfront Hback].
  cbn [skip_all]. by rewrite Hfront, Hback.
Qed.

Lemma of_bytes_bytes (s : string) : of_bytes (bytes s) = s.
Proof.
  unfold of_bytes, bytes. induction s as [|c s IH]; cbn; [done|].
  by rewrite Ascii.ascii_N_embedding, IH.
Qed.

Lemma toUpperCase_ascii_code (s : string) :
  string_forall code_char s = true → toUpperCase_ascii s = s.
Proof.
  induction s as [|c s IH]; cbn; [done|]. intros [Hc Hs]%andb_true_iff.
  by rewrite (upper_ascii_code_char c Hc), IH.
Qed.

Lemma is_ascii_code (s : string) : string_forall code_char s = true → is_ascii s = true.
Proof.
  unfold is_ascii. induction s as [|c s IH]; cbn; [done|]. intros [Hc Hs]%andb_true_iff.
  rewrite (code_char_ascii c Hc). exact (IH Hs).
Qed.

Lemma toUpperCase_code (env : Oracle) (s : string) :
  string_forall code_char s = true → toUpperCase env s = s.
Proof.
  intros Hs. unfold toUpperCase. by rewrite (is_ascii_code s Hs), (toUpperCase_ascii_code s Hs).
Qed.

Lemma trim_code (s : string) : string_forall code_char s = true → trim s = s.
Proof.
  intros Hs. pose proof (bytes_code s Hs) as Hbs. unfold trim, trim_start, trim_end.
  rewrite (proj1 (skip_all_code _ _ Hbs)).
  rewrite (proj2 (skip_all_code _ _ (proj2 (Forall_reverse _ _) Hbs))).
  by rewrite reverse_involutive, of_bytes_bytes.
Qed.

(** X19: the lobby trims and upper-cases the game code a player types before
    it asks to join; every id the server generates passes through unchanged,
    so the code shown to the host is the code that joins the game. *)
Theorem typed_code_of_generated_id (env : Oracle) (s : Server) :
  ∃ id, (generateGameId env s).1 = Ret id ∧ typed_game_code env id = id.
Proof.
  destruct (generateGameId_loop_format env 6 "" s eq_refl) as (id & Heq & _ & Hcode).
  exists id. unfold generateGameId. rewrite Heq. split; [done|].
  unfold typed_game_code. by rewrite (trim_code id Hcode), (toUpperCase_code env id Hcode).
Qed.

(** The lobby also accepts the code in lower case and with blanks around,
    a no-break space (U+00A0) among them. *)
Example typed_code_is_normalised (env : Oracle) :
  typed_game_code env (" " +:+ of_bytes [194; 160]%N +:+ " g0k4o9 ") = "G0K4O9".
Proof. reflexivity. Qed.

(** [charAt] counts code units: the character U+1F600 takes two, and
    [charAt(0)] is its first surrogate alone. *)
Example charAt_counts_code_units :
  charAt 0 "😀x" = of_bytes [237; 160; 189]%N ∧
  charAt 2 "😀x" = "x" ∧
  charAt 1 "éx" = "x" ∧
  charAt 3 "😀x" = "".
Proof. split_and!; reflexivity. Qed.

(** The avatar of a name is its first character in upper case; with the
    Latin-1 table of the sample runtime, É for élodie. *)
Example avatar_of_names :
  toUpperCase sample_env (charAt 0 "alice") = "A" ∧
  toUpperCase sample_env (charAt 0 "élodie") = "É" ∧
  toUpperCase sample_env (charAt 0 "") = "".
Proof. split_and!; reflexivity. Qed.

(** ** Penalty cards *)

Lemma penalty_card_shift (env : Oracle) (s : Server) (k : nat) :
  penalty_card env (tick 0 1 0 (tick 1 0 0 s)) k = penalty_card env s (S k).
Proof.
  unfold penalty_card. cbn.
  replace (uuid_calls s + 1 + 0 + k) with (uuid_calls s + S k) by lia.
  replace (random_calls s + 0 + 1 + k) with (random_calls s + S k) by lia.
  reflexivity.
Qed.

Lemma penalty_loop_cards (env : Oracle) (n : nat) (cs : list Card) (s : Server) :
  penalty_loop env n cs s = (Ret (cs ++ (penalty_card env s <$> seq 0 n)), tick n n 0 s).
Proof.
  revert cs s. induction n as [|n IH]; intros cs s; cbn [penalty_loop].
  - cbn. by rewrite app_nil_r, tick_zero.
  - rewrite (bind_ret _ _ _ _ _ (randomUUID_eq env s)).
    rewrite (bind_ret _ _ _ _ _ (Math_random_eq env _)).
    rewrite IH, <-app_assoc.
    assert (Hshift : penalty_card env (tick 0 1 0 (tick 1 0 0 s)) <$> seq 0 n
                     = penalty_card env s <$> seq 1 n).
    { rewrite <-fmap_S_seq, <-list_fmap_compose. apply list_fmap_ext.
      intros i k _. apply penalty_card_shift. }
    rewrite Hshift, !tick_tick. cbn [seq fmap list_fmap app].
    unfold penalty_card at 2. cbn [tick uuid_calls random_calls].
    by rewrite !Nat.add_0_r.
Qed.

Lemma createPenaltyCards_cards (env : Oracle) (s : Server) :
  createPenaltyCards env s = (Ret (penalty_card env s <$> seq 0 10), tick 10 10 0 s).
Proof. unfold createPenaltyCards. by rewrite penalty_loop_cards. Qed.

Lemma take_three_penalty_cards (env : Oracle) (s : Server) :
  take 3 (penalty_card env s <$> seq 0 10)
  = [penalty_card env s 0; penalty_card env s 1; penalty_card env s 2].
Proof. reflexivity. Qed.

(** X20: the three cards an accusation adds to the penalised hand are the
    first three of the ten cards [createPenaltyCards] makes: their ids are the
    next three values of [randomUUID], each is a truth when its
    [Math.random()] is above 0.5 and a lie otherwise, and the other seven
    cards are dropped. *)
Theorem accuse_deals_first_three (env : Oracle) (s : Server)
    (gameId accusing accused lastId : string) (game : GameState) (lastCard : Card)
    (ai di : nat) (ap dp : Player) :
  games s !! gameId = Some game →
  lastPlayedCard game = Some lastCard →
  lastPlayerId game = Some lastId →
  lastId ≠ "" →
  list_find (λ p, p_id p = accusing) (players game) = Some (ai, ap) →
  list_find (λ p, p_id p = accused) (players game) = Some (di, dp) →
  ∃ g',
    (handleAccuse env gameId accusing accused s).1 = Ret (json_game g') ∧
    uuid_calls (handleAccuse env gameId accusing accused s).2 = uuid_calls s + 11 ∧
    random_calls (handleAccuse env gameId accusing accused s).2 = random_calls s + 10 ∧
    cards <$> players g' !! (if bool_decide (c_type lastCard = lie) then di else ai)
    = Some (cards (if bool_decide (c_type lastCard = lie) then dp else ap)
            ++ [penalty_card env s 0; penalty_card env s 1; penalty_card env s 2]).
Proof.
  intros Hg Hcard Hlast Hne Ha Hd.
  assert (Hfalsy : falsy (lastPlayerId game) = false).
  { rewrite Hlast. cbn. by apply bool_decide_eq_false_2. }
  destruct (handleAccuse_ok env s gameId accusing accused game lastCard ai di ap dp
              Hg Hcard Hfalsy Ha Hd)
    as (g' & deck & Heq & Hdeck & _ & _ & _ & Hps & _).
  assert (Hthree : take 3 deck
                   = [penalty_card env s 0; penalty_card env s 1; penalty_card env s 2]).
  { rewrite createPenaltyCards_cards in Hdeck. injection Hdeck as <-.
    apply take_three_penalty_cards. }
  clear Hdeck. cbv zeta in Hps. rewrite Hthree in Hps. clear Hthree.
  exists g'. rewrite Heq. clear Heq. cbn [fst snd commit uuid_calls random_calls].
  split; [reflexivity|]. split; [reflexivity|]. split; [reflexivity|].
  apply list_find_Some in Ha as (Hai & _). apply list_find_Some in Hd as (Hdi & _).
  rewrite Hps.
  destruct (bool_decide (c_type lastCard = lie));
    (rewrite list_lookup_insert_eq by (by eapply lookup_lt_Some)); reflexivity.
Qed.

Lemma accuse_deals_first_three_witness :
  ∃ g',
    (handleAccuse sample_env "ROOM01" "b" "a" tiny_server).1 = Ret (json_game g') ∧
    uuid_calls (handleAccuse sample_env "ROOM01" "b" "a" tiny_server).2 = 0 + 11 ∧
    random_calls (handleAccuse sample_env "ROOM01" "b" "a" tiny_server).2 = 0 + 10 ∧
    cards <$> players g' !! 0
    = Some ([ {| c_id := "k1"; c_type := truth |} ]
            ++ [penalty_card sample_env tiny_server 0; penalty_card sample_env tiny_server 1;
                penalty_card sample_env tiny_server 2]).
Proof.
  apply (accuse_deals_first_three sample_env tiny_server "ROOM01" "b" "a" "a" tiny_game
           {| c_id := "k0"; c_type := lie |} 1 0
           (tiny_player "b" "Bob" [ {| c_id := "k2"; c_type := truth |};
                                    {| c_id := "k3"; c_type := lie |} ])
           (tiny_player "a" "Alice" [ {| c_id := "k1"; c_type := truth |} ]));
    [reflexivity | reflexivity | reflexivity | discriminate | reflexivity | reflexivity].
Defined.

(** ** The client helpers against the server *)

Lemma getPlayerById_after_insert (g : GameState) (ps : list Player) (playerId : string)
    (pi : nat) (player player' : Player) :
  list_find (λ p, p_id p = playerId) ps = Some (pi, player) →
  p_id player' = p_id player →
  players g = <[pi := player']> ps →
  getPlayerById g playerId = Some player'.
Proof.
  intros Hp Hid Hps. unfold getPlayerById. rewrite Hps.
  erewrite list_find_insert_same; [done|exact Hp|].
  apply list_find_Some in Hp as (_ & Hpid & _). cbn. congruence.
Qed.

(** X21: after a play that leaves cards in the player's hand the turn is
    with the player [getNextPlayer] names, computed on the session before or
    after the play; after a play of the last card the game is finished and
    the turn stays with the winner. *)
Theorem turn_passes_to_getNextPlayer (env : Oracle) (s s' : Server)
    (gameId playerId cardId : string) (game g' : GameState) :
  games s !! gameId = Some game →
  handlePlay env gameId playerId cardId s = (Ret (json_game g'), s') →
  ∃ player', getPlayerById g' playerId = Some player' ∧
    if bool_decide (cards player' = [])
    then phase g' = finished ∧ currentPlayerId g' = playerId
    else p_id <$> getNextPlayer game playerId = Some (currentPlayerId g') ∧
         p_id <$> getNextPlayer g' playerId = Some (currentPlayerId g').
Proof.
  intros Hg Hrun.
  destruct (handlePlay_cases env s gameId playerId cardId)
    as [(status & msg & Hfail)|(game' & pi & player & ci & card & Hg' & Hp & Hcur & Hc)].
  { rewrite Hfail in Hrun. discriminate. }
  assert (game' = game) as -> by congruence.
  destruct (handlePlay_ok env s gameId playerId cardId game pi ci player card Hg Hp Hcur Hc)
    as (g'' & next & Heq & Hnext & _ & Hphase & Hps & Hcurrent & _).
  rewrite Heq in Hrun. injection Hrun as -> <-. cbv zeta in *.
  set (hand := delete ci (cards player)) in *.
  set (player' := with_cardCount (length hand) (with_cards hand player)) in *.
  exists player'. split.
  { by apply (getPlayerById_after_insert g' (players game) playerId pi player). }
  assert (Hempty : bool_decide (cards player' = []) = bool_decide (length hand = 0)).
  { apply bool_decide_ext. cbn. by destruct hand. }
  rewrite Hempty. destruct (bool_decide (length hand = 0)); [by rewrite Hcurrent|].
  pose proof Hp as Hp0. apply list_find_Some in Hp0 as (Hpi & _).
  assert (Hids : p_id <$> players g' = p_id <$> players game).
  { rewrite Hps. by apply (ids_after_insert _ _ player). }
  assert (Hlen : length (players g') = length (players game)).
  { by rewrite <-(length_fmap p_id), Hids, length_fmap. }
  assert (Hp' : list_find (λ p, p_id p = playerId) (players g') = Some (pi, player')).
  { rewrite Hps. eapply list_find_insert_same; [exact Hp|].
    apply list_find_Some in Hp as (_ & Hid & _). exact Hid. }
  rewrite length_insert in Hnext.
  unfold getNextPlayer. rewrite Hp, Hp', Hlen. cbn zeta. rewrite Hcurrent.
  split.
  - rewrite <-list_lookup_fmap, <-Hids, Hps, list_lookup_fmap, Hnext. done.
  - rewrite Hps, Hnext. done.
Qed.

Lemma turn_passes_to_getNextPlayer_witness :
  ∃ g' s',
    handlePlay sample_env "ROOM01" "b" "k2" tiny_server = (Ret (json_game g'), s') ∧
    ∃ player', getPlayerById g' "b" = Some player' ∧
      if bool_decide (cards player' = [])
      then phase g' = finished ∧ currentPlayerId g' = "b"
      else p_id <$> getNextPlayer tiny_game "b" = Some (currentPlayerId g') ∧
           p_id <$> getNextPlayer g' "b" = Some (currentPlayerId g').
Proof.
  eexists _, _. split; [vm_compute; reflexivity|].
  eapply (turn_passes_to_getNextPlayer sample_env tiny_server _ "ROOM01" "b" "k2" tiny_game);
    [reflexivity | vm_compute; reflexivity].
Defined.

(** X22: an accusation that [canPlayerAccuse] allows is one the server
    accepts: when it holds for a player of the session and the player who
    played last is still in it, [AccusePlayer] by that player against
    [lastPlayerId] succeeds and opens the revelation. *)
Theorem offered_accusation_is_accepted (env : Oracle) (s : Server)
    (gameId playerId : string) (game : GameState) :
  games s !! gameId = Some game →
  canPlayerAccuse game playerId = true →
  playerId ∈ p_id <$> players game →
  (∀ lastId, lastPlayerId game = Some lastId → lastId ∈ p_id <$> players game) →
  ∃ lastId g',
    lastPlayerId game = Some lastId ∧
    lastId ≠ playerId ∧
    (handleAccuse env gameId playerId lastId s).1 = Ret (json_game g') ∧
    phase g' = revelation ∧
    revealedCard g' = lastPlayedCard game.
Proof.
  intros Hg Hcan Hmember Hlast. unfold canPlayerAccuse in Hcan.
  apply andb_true_iff in Hcan as [Hcan Hcard]. apply andb_true_iff in Hcan as [Hcan _].
  apply andb_true_iff in Hcan as [Hset Hother].
  apply bool_decide_eq_true in Hcard as [lastCard Hcard].
  apply bool_decide_eq_true in Hother. apply negb_true_iff in Hset.
  destruct (lastPlayerId game) as [lastId|] eqn:Hid; [|discriminate].
  destruct (handleAccuse_accepted env s gameId playerId lastId game lastCard Hg Hcard)
    as (g' & Heq & Hphase & Hrev & _); [by rewrite Hid|done|by apply Hlast|].
  exists lastId, g'. rewrite Heq. split_and!; try done; congruence.
Qed.

Lemma offered_accusation_is_accepted_witness :
  ∃ lastId g',
    lastPlayerId tiny_game = Some lastId ∧
    lastId ≠ "b" ∧
    (handleAccuse sample_env "ROOM01" "b" lastId tiny_server).1 = Ret (json_game g') ∧
    phase g' = revelation ∧
    revealedCard g' = lastPlayedCard tiny_game.
Proof.
  apply (offered_accusation_is_accepted sample_env tiny_server "ROOM01" "b" tiny_game);
    [reflexivity | reflexivity | apply (bool_decide_unpack _); vm_compute; exact I |].
  intros lastId [= <-]. apply (bool_decide_unpack _). vm_compute. exact I.
Defined.

(** X23: [formatGameEvent] never announces the winner: it renders the event
    of a play as "... a joué une carte", which is the message the server
    wrote when cards remain in the hand, and differs from it when the play
    emptied the hand and the server wrote "... a gagné la partie !". *)
Theorem formatGameEvent_shows_a_win_as_a_play (env : Oracle) (s s' : Server)
    (gameId playerId cardId : string) (g' : GameState) :
  handlePlay env gameId playerId cardId s = (Ret (json_game g'), s') →
  ∃ e player',
    last (events g') = Some e ∧
    getPlayerById g' playerId = Some player' ∧
    formatGameEvent e = e_playerName e +:+ " a joué une carte" ∧
    (formatGameEvent e = message e ↔ cards player' ≠ []).
Proof.
  intros Hrun.
  destruct (handlePlay_cases env s gameId playerId cardId)
    as [(status & msg & Hfail)|(game & pi & player & ci & card & Hg & Hp & Hcur & Hc)].
  { rewrite Hfail in Hrun. discriminate. }
  destruct (handlePlay_ok env s gameId playerId cardId game pi ci player card Hg Hp Hcur Hc)
    as (g'' & next & Heq & _ & _ & _ & Hps & _ & _ & _ & _ & _ & _ & Hev & _).
  rewrite Heq in Hrun. injection Hrun as -> <-. cbv zeta in *.
  set (hand := delete ci (cards player)) in *.
  eexists _, (with_cardCount (length hand) (with_cards hand player)).
  rewrite Hev, last_snoc. split; [reflexivity|]. split.
  { by apply (getPlayerById_after_insert g' (players game) playerId pi player). }
  split; [reflexivity|]. cbn.
  destruct hand as [|c hand]; cbn.
  - split; [|done]. intros Heqs. by apply (inj (String.app _)) in Heqs.
  - done.
Qed.

Lemma formatGameEvent_shows_a_win_as_a_play_witness :
  ∃ g' s',
    handlePlay sample_env "ROOM01" "c" "k4"
      (put_game "ROOM01" (with_currentPlayerId "c" tiny_game) init)
    = (Ret (json_game g'), s') ∧
    ∃ e player',
      last (events g') = Some e ∧
      getPlayerById g' "c" = Some player' ∧
      formatGameEvent e = e_playerName e +:+ " a joué une carte" ∧
      (formatGameEvent e = message e ↔ cards player' ≠ []).
Proof.
  eexists _, _. split; [vm_compute; reflexivity|].
  eapply (formatGameEvent_shows_a_win_as_a_play sample_env
            (put_game "ROOM01" (with_currentPlayerId "c" tiny_game) init) _
            "ROOM01" "c" "k4").
  vm_compute. reflexivity.
Defined.

(** ** The users of the storage *)

Lemma getUser_users_set_eq (users : list (string * User)) (id : string) (user : User) :
  getUser (users_set id user users) id = Some user.
Proof.
  unfold getUser. induction users as [|[id' user'] users IH]; cbn.
  - by rewrite decide_True.
  - destruct (decide (id' = id)) as [->|Hne]; cbn.
    + by rewrite decide_True.
    + rewrite decide_False by done. cbn in *.
      destruct (list_find _ (users_set id user users)) as [[i [k u]]|]; by simplify_eq/=.
Qed.

Lemma getUser_users_set_ne (users : list (string * User)) (id id' : string) (user : User) :
  id' ≠ id → getUser (users_set id user users) id' = getUser users id'.
Proof.
  intros Hne. unfold getUser. induction users as [|[k u] users IH]; cbn.
  - by rewrite decide_False.
  - destruct (decide (k = id)) as [->|Hk]; cbn.
    + by rewrite !decide_False by done.
    + destruct (decide (k = id')); [done|]. cbn in *.
      destruct (list_find _ (users_set id user users)) as [[i [k1 u1]]|],
               (list_find _ users) as [[j [k2 u2]]|]; by simplify_eq/=.
Qed.

Lemma users_set_fresh (users : list (string * User)) (id : string) (user : User) :
  id ∉ users.*1 → users_set id user users = users ++ [(id, user)].
Proof.
  induction users as [|[k u] users IH]; cbn; [done|].
  intros Hnot. apply not_elem_of_cons in Hnot as [Hne Hnot].
  rewrite decide_False by done. by rewrite IH.
Qed.

(** X24: [createUser] gives the new user the next [randomUUID] as id and
    keeps the name and the password; afterwards [getUser] finds exactly this
    user under that id and every other id answers as before. *)
Theorem createUser_then_getUser (env : Oracle) (insertUser : InsertUser)
    (users : list (string * User)) (s : Server) :
  ∃ user users',
    createUser env insertUser users s = (Ret (user, users'), tick 1 0 0 s) ∧
    u_id user = uuid_at env (uuid_calls s) ∧
    username user = ins_username insertUser ∧
    password user = ins_password insertUser ∧
    getUser users' (u_id user) = Some user ∧
    ∀ id, id ≠ u_id user → getUser users' id = getUser users id.
Proof.
  unfold createUser. rewrite (bind_ret _ _ _ _ _ (randomUUID_eq env s)).
  eexists _, _. split; [reflexivity|]. cbn [u_id username password].
  split_and!; try done.
  - apply getUser_users_set_eq.
  - intros id Hne. by apply getUser_users_set_ne.
Qed.

(** X25: user names are not kept unique: [createUser] accepts a name that is
    taken, and [getUserByUsername] goes on answering with the user who took
    it first; the new user is found by name only when nobody had it (the new
    id being unused so far). *)
Theorem first_user_keeps_the_name (env : Oracle) (insertUser : InsertUser)
    (users : list (string * User)) (s : Server) (name : string) :
  uuid_at env (uuid_calls s) ∉ users.*1 →
  ∃ user users',
    (createUser env insertUser users s).1 = Ret (user, users') ∧
    getUserByUsername users' name =
      match getUserByUsername users name with
      | Some first => Some first
      | None => if decide (ins_username insertUser = name) then Some user else None
      end.
Proof.
  intros Hfresh. unfold createUser. rewrite (bind_ret _ _ _ _ _ (randomUUID_eq env s)).
  eexists _, _. split; [reflexivity|].
  rewrite (users_set_fresh _ _ _ Hfresh). unfold getUserByUsername.
  rewrite fmap_app. cbn [fmap list_fmap snd].
  destruct (list_find (λ user, username user = name) users.*2) as [[i first]|] eqn:Hfind.
  - by erewrite list_find_app_l.
  - rewrite list_find_app_r by done. cbn.
    destruct (decide (ins_username insertUser = name)); done.
Qed.

Lemma first_user_keeps_the_name_witness :
  ∃ user users',
    (createUser sample_env {| ins_username := "ann"; ins_password := "second" |}
       [("u7", {| u_id := "u7"; username := "ann"; password := "first" |})] init).1
    = Ret (user, users') ∧
    getUserByUsername users' "ann"
    = Some {| u_id := "u7"; username := "ann"; password := "first" |}.
Proof.
  apply (first_user_keeps_the_name sample_env
           {| ins_username := "ann"; ins_password := "second" |}
           [("u7", {| u_id := "u7"; username := "ann"; password := "first" |})] init "ann").
  apply (bool_decide_unpack _). vm_compute. exact I.
Defined.

(** ** Reconnecting *)

Lemma onclose_delay (a : nat) :
  (2000 ≤ N.min (1000 * 2 ^ N.of_nat (a + 1)) 10000 ≤ 10000)%N.
Proof.
  split; [|apply N.le_min_r].
  apply N.min_glb; [|done].
  replace (N.of_nat (a + 1)) with (N.succ (N.of_nat a)) by lia.
  rewrite N.pow_succ_r'.
  assert (Hpos : (2 ^ N.of_nat a ≠ 0)%N) by (by apply N.pow_nonzero).
  generalize dependent (2 ^ N.of_nat a)%N. intros x Hx. lia.
Qed.

(** X26: however often the socket closes without opening, the hook calls
    [connect] again only while fewer than five attempts were made since the
    last opening, so at most five times in a row, and always after a delay
    between 2 and 10 seconds. *)
Theorem reconnects_are_bounded (n reconnectAttempts : nat) :
  length (closes n reconnectAttempts) = n `min` (maxReconnectAttempts - reconnectAttempts) ∧
  Forall (λ delay, (2000 ≤ delay ≤ 10000)%N) (closes n reconnectAttempts).
Proof.
  revert reconnectAttempts. induction n as [|n IH]; intros a; [by split|].
  cbn [closes]. unfold onclose, maxReconnectAttempts.
  destruct (a <? 5) eqn:Hlt.
  - apply Nat.ltb_lt in Hlt. destruct (IH (a + 1)) as [Hlen Hall].
    unfold maxReconnectAttempts in Hlen. split.
    + cbn [length]. rewrite Hlen. lia.
    + constructor; [apply onclose_delay|exact Hall].
  - apply Nat.ltb_ge in Hlt. split; [|constructor].
    replace (5 - a) with 0 by lia. by rewrite Nat.min_0_r.
Qed.

(** From the first failure on the delays are 2, 4, 8, 10 and 10 seconds. *)
Example reconnect_delays (n : nat) :
  closes n (onopen 3) = take n [2000; 4000; 8000; 10000; 10000]%N.
Proof. do 6 (destruct n as [|n]; [reflexivity|]). reflexivity. Qed.

(** ** Player ids *)

Lemma exec_ids (env : Oracle) (c : Command) (s : Server) :
  uuid_calls s ≤ uuid_calls (exec env c s).2 ∧
  (games (exec env c s).2 = games s ∨
   ∃ k1 k2 g',
     games (exec env c s).2 = <[k1 := g']> (<[k2 := g']> (games s)) ∧
     ((uuid_calls s < uuid_calls (exec env c s).2 ∧
       p_id <$> players g' = [uuid_at env (uuid_calls s)]) ∨
      ∃ game,
        games s !! k2 = Some game ∧
        ((uuid_calls s < uuid_calls (exec env c s).2 ∧
          p_id <$> players g' = (p_id <$> players game) ++ [uuid_at env (uuid_calls s)]) ∨
         p_id <$> players g' `sublist_of` p_id <$> players game))).
Proof.
  destruct c as [name|gameId name|gameId|gameId playerId cardId|gameId accusing accused
                |gameId|gameId playerId].
  - destruct (handleCreate_fields env s name) as (g' & deck & Heq & _ & _ & Hps & _).
    rewrite (exec_CreateGame _ _ _ _ _ Heq). cbn [snd put_game tick uuid_calls games].
    split; [lia|]. right. exists (g_id g'), (g_id g'), g'.
    split; [by rewrite insert_insert_eq|]. left. split; [lia|]. by rewrite Hps.
  - destruct (games s !! gameId) as [game|] eqn:Hg.
    2: { rewrite (exec_JoinGame _ _ _ _ _ _ (handleJoin_missing env s gameId name Hg)).
         split; [done|by left]. }
    destruct (decide (length (players game) < maxPlayers game)) as [Hroom|Hfull].
    2: { rewrite (exec_JoinGame _ _ _ _ _ _
                    (handleJoin_full env s gameId name game Hg ltac:(lia))).
         cbn. split; [lia|by left]. }
    edestruct (addPlayerToGame_ok env (tick 1 0 0 s) gameId) as
      (g' & deck & Heq & _ & _ & _ & _ & Hps & _); [exact Hg|exact Hroom|].
    rewrite (exec_JoinGame _ _ _ _ _ _ (handleJoin_added env s _ gameId name game g' Hg Heq)).
    cbn [snd broadcastToGame put_game tick uuid_calls games].
    split; [lia|]. right. exists gameId, gameId, g'.
    split; [by rewrite insert_insert_eq|]. right. exists game. split; [done|]. left.
    split; [lia|]. by rewrite Hps, fmap_app.
  - rewrite exec_GetGame. split; [done|by left].
  - destruct (handlePlay_cases env s gameId playerId cardId)
      as [(status & msg & Heq)|(game & pi & player & ci & card & Hg & Hp & Hcur & Hc)].
    { rewrite (exec_PlayCard _ _ _ _ _ _ _ Heq). split; [done|by left]. }
    destruct (handlePlay_ok env s gameId playerId cardId game pi ci player card Hg Hp Hcur Hc)
      as (g' & _ & Heq & _ & _ & _ & Hps & _).
    rewrite (exec_PlayCard _ _ _ _ _ _ _ Heq). cbn [snd commit uuid_calls games].
    split; [lia|]. right. exists (g_id g'), gameId, g'. split; [done|].
    right. exists game. split; [done|]. right.
    apply list_find_Some in Hp as (Hpi & _).
    rewrite Hps, (ids_after_insert _ _ player) by done. done.
  - destruct (handleAccuse_cases env s gameId accusing accused)
      as [(status & msg & Heq)
         |(game & lastCard & ai & ap & di & dp & Hg & Hcard & Hlast & Ha & Hd)].
    { rewrite (exec_AccusePlayer _ _ _ _ _ _ _ Heq). split; [done|by left]. }
    destruct (handleAccuse_ok env s gameId accusing accused game lastCard ai di ap dp
                Hg Hcard Hlast Ha Hd)
      as (g' & deck & Heq & _ & _ & _ & _ & Hps & _).
    rewrite (exec_AccusePlayer _ _ _ _ _ _ _ Heq). cbn [snd commit uuid_calls games].
    split; [lia|]. right. exists (g_id g'), gameId, g'. split; [done|].
    right. exists game. split; [done|]. right.
    apply list_find_Some in Ha as (Hai & _). apply list_find_Some in Hd as (Hdi & _).
    cbv zeta in Hps. rewrite Hps.
    destruct (bool_decide (c_type lastCard = lie));
      by (erewrite ids_after_insert; [done|done|done]).
  - destruct (games s !! gameId) as [game|] eqn:Hg.
    2: { rewrite (exec_Continue _ _ _ _ _ (handleContinue_missing s gameId Hg)).
         split; [done|by left]. }
    rewrite (exec_Continue _ _ _ _ _ (handleContinue_ok s gameId game Hg)).
    cbn [snd commit uuid_calls games]. split; [lia|]. right.
    eexists _, gameId, _. split; [done|]. right. exists game. split; [done|]. by right.
  - destruct (decide (gameId = "" ∨ playerId = "")) as [Hempty|Hids].
    { rewrite (exec_Disconnect _ _ _ _ _ (wsClose_ignored env s gameId playerId Hempty)).
      split; [done|by left]. }
    destruct (games s !! gameId) as [game|] eqn:Hg.
    2: { rewrite (exec_Disconnect _ _ _ _ _
                    (wsClose_failed env s gameId playerId (or_introl Hg))).
         split; [done|by left]. }
    destruct (list_find (λ p, p_id p = playerId) (players game)) as [[pi player]|] eqn:Hp.
    2: { rewrite (exec_Disconnect _ _ _ _ _
                    (wsClose_failed env s gameId playerId
                       (or_intror (ex_intro _ game (conj Hg Hp))))).
         split; [done|by left]. }
    destruct (removePlayerFromGame_ok env s gameId playerId game pi player Hg Hp)
      as (g' & Heq & Hps & _).
    assert (gameId ≠ "" ∧ playerId ≠ "") as [Hgid Hpid] by tauto.
    rewrite (exec_Disconnect _ _ _ _ _
               (wsClose_removed env s _ gameId playerId g' Hgid Hpid Heq)).
    cbn [snd broadcastToGame put_game tick uuid_calls games].
    split; [lia|]. right. exists gameId, gameId, g'.
    split; [by rewrite insert_insert_eq|]. right. exists game. split; [done|]. right.
    rewrite Hps, list_fmap_delete. apply sublist_delete.
Qed.

Lemma ids_drawn_later (env : Oracle) (s s' : Server) (g : GameState) :
  uuid_calls s ≤ uuid_calls s' → ids_drawn env s g → ids_drawn env s' g.
Proof.
  intros Hle [Hnodup Hdrawn]. split; [done|].
  eapply Forall_impl; [exact Hdrawn|]. intros id (i & Hi & ->). exists i. split; [lia|done].
Qed.

Lemma exec_ids_drawn (env : Oracle) (c : Command) (s : Server) :
  Inj (=) (=) (uuid_at env) →
  map_Forall (λ _ g, ids_drawn env s g) (games s) →
  map_Forall (λ _ g, ids_drawn env (exec env c s).2 g) (games (exec env c s).2).
Proof.
  intros Hinj Hs.
  destruct (exec_ids env c s) as [Hle Hcases].
  assert (Hold : map_Forall (λ _ g, ids_drawn env (exec env c s).2 g) (games s)).
  { intros k g Hk. eapply ids_drawn_later; [exact Hle|]. by apply (Hs k). }
  destruct Hcases as [->|(k1 & k2 & g' & -> & Hnew)]; [done|].
  assert (Hg' : ids_drawn env (exec env c s).2 g').
  { destruct Hnew as [[Hlt Hids]|(game & Hgame & [[Hlt Hids]|Hsub])].
    - split; rewrite Hids.
      + apply NoDup_singleton.
      + repeat constructor. by exists (uuid_calls s).
    - destruct (Hs k2 game Hgame) as [Hnodup Hdrawn]. split; rewrite Hids.
      + apply NoDup_app. split_and!; [done| |apply NoDup_singleton].
        intros id Hin ->%list_elem_of_singleton.
        rewrite Forall_forall in Hdrawn. destruct (Hdrawn _ Hin) as (i & Hi & Heq).
        apply Hinj in Heq. lia.
      + apply Forall_app. split.
        * eapply Forall_impl; [exact Hdrawn|].
          intros id (i & Hi & ->). exists i. split; [lia|done].
        * repeat constructor. by exists (uuid_calls s).
    - destruct (Hold k2 game Hgame) as [Hnodup Hdrawn]. split.
      + by eapply sublist_NoDup.
      + rewrite Forall_forall in Hdrawn |- *. intros id Hin. apply Hdrawn.
        by eapply sublist_subseteq. }
  by do 2 (apply map_Forall_insert_2; [done|]).
Qed.

(** X27: as long as [randomUUID] never returns the same value twice, the
    players of every stored session have pairwise distinct ids, whatever
    commands the server has taken; so a player id names one player of the
    session. *)
Theorem player_ids_are_distinct (env : Oracle) (cmds : list Command) :
  Inj (=) (=) (uuid_at env) →
  map_Forall (λ _ g, NoDup (p_id <$> players g)) (games (run env cmds init)).
Proof.
  intros Hinj.
  assert (Hall : map_Forall (λ _ g, ids_drawn env (run env cmds init) g)
                   (games (run env cmds init))).
  { induction cmds as [|c cmds IH] using rev_ind.
    - apply map_Forall_empty.
    - rewrite run_snoc. by apply exec_ids_drawn. }
  intros k g Hk. by destruct (Hall k g Hk).
Qed.

Lemma sample_uuids_distinct : Inj (=) (=) (uuid_at sample_env).
Proof. intros i j Heq. cbn in Heq. by apply (inj (String.app _)), (inj pretty) in Heq. Qed.

Lemma player_ids_are_distinct_witness :
  map_Forall (λ _ g, NoDup (p_id <$> players g))
    (games (run sample_env [CreateGame "Alice"; JoinGame "G0K4O9" "Bob";
                            JoinGame "G0K4O9" "Carol"] init)).
Proof.
  apply (player_ids_are_distinct sample_env
           [CreateGame "Alice"; JoinGame "G0K4O9" "Bob"; JoinGame "G0K4O9" "Carol"]).
  exact sample_uuids_distinct.
Defined.

(** ** Joining a game that has started *)



(** ** A turn that nobody can take *)

Lemma turn_lost_games (gid p : string) (s s' : Server) :
  games s' = games s → turn_lost gid p s → turn_lost gid p s'.
Proof. unfold turn_lost. by intros ->. Qed.

Lemma turn_lost_update (gid p gameId : string) (s s' : Server) (game g' : GameState) :
  turn_lost gid p s →
  games s !! gameId = Some game →
  games s' = <[gameId := g']> (games s) →
  (gameId = gid →
   currentPlayerId g' = currentPlayerId game ∧
   (p ∉ p_id <$> players game → p ∉ p_id <$> players g')) →
  turn_lost gid p s'.
Proof.
  intros (g & Hg & Hcur & Hgone) Hgame Hstore Hsame.
  destruct (decide (gameId = gid)) as [->|Hne].
  - assert (game = g) as -> by congruence. destruct (Hsame eq_refl) as [Hc Hp].
    exists g'. rewrite Hstore, lookup_insert_eq. split; [done|]. split; [congruence|auto].
  - exists g. rewrite Hstore, lookup_insert_ne by done. done.
Qed.

Lemma commit_store (gameId : string) (game g' : GameState) (ty : MessageType) (u r t : nat)
    (s : Server) :
  well_keyed s → games s !! gameId = Some game → g_id g' = g_id game →
  games (commit gameId g' ty u r t s) = <[gameId := g']> (games s).
Proof.
  intros Hkeys Hg Hid. cbn. rewrite Hid, (Hkeys gameId game Hg). cbn.
  by rewrite insert_insert_eq.
Qed.

(** Once the turn is lost it stays lost: no request other than [CreateGame]
    moves the turn or brings the player back, as long as the identifier of a
    player who joins is not that of the player who left. *)
Lemma exec_turn_lost (env : Oracle) (c : Command) (s : Server) (gid p : string) :
  well_keyed s → target c ≠ None → uuid_at env (uuid_calls s) ≠ p →
  turn_lost gid p s → turn_lost gid p (exec env c s).2.
Proof.
  intros Hkeys Htarget Hfresh Hlost.
  destruct c as [name|gameId name|gameId|gameId playerId cardId|gameId accusing accused
                |gameId|gameId playerId].
  - done.
  - destruct (games s !! gameId) as [game|] eqn:Hg.
    2: { by rewrite (exec_JoinGame _ _ _ _ _ _ (handleJoin_missing env s gameId name Hg)). }
    destruct (decide (length (players game) < maxPlayers game)) as [Hroom|Hfull].
    2: { rewrite (exec_JoinGame _ _ _ _ _ _
                    (handleJoin_full env s gameId name game Hg ltac:(lia))).
         by apply (turn_lost_games gid p s). }
    edestruct (addPlayerToGame_ok env (tick 1 0 0 s) gameId) as
      (g' & deck & Heq & _ & _ & _ & _ & Hps & Hcur & _); [exact Hg|exact Hroom|].
    rewrite (exec_JoinGame _ _ _ _ _ _ (handleJoin_added env s _ gameId name game g' Hg Heq)).
    apply (turn_lost_update gid p gameId s _ game g' Hlost Hg); [reflexivity|].
    intros _. split; [exact Hcur|]. intros Hgone. rewrite Hps, fmap_app. cbn.
    rewrite elem_of_app, list_elem_of_singleton. intros [Hin| ->]; [by apply Hgone|done].
  - by rewrite exec_GetGame.
  - destruct (handlePlay_cases env s gameId playerId cardId)
      as [(status & msg & Heq)|(game & pi & player & ci & card & Hg & Hp & Hcur & Hc)].
    { by rewrite (exec_PlayCard _ _ _ _ _ _ _ Heq). }
    destruct (handlePlay_ok env s gameId playerId cardId game pi ci player card Hg Hp Hcur Hc)
      as (g' & next & Heq & _ & Hid & _).
    rewrite (exec_PlayCard _ _ _ _ _ _ _ Heq). cbn [snd].
    apply (turn_lost_update gid p gameId s _ game g' Hlost Hg);
      [by apply (commit_store gameId game)|].
    intros ->. exfalso. destruct Hlost as (g & Hg' & Hturn & Hgone).
    assert (g = game) as -> by congruence. apply Hgone.
    apply list_find_Some in Hp as (Hpi & Hpid & _).
    apply list_elem_of_fmap. exists player. split; [congruence|].
    by eapply list_elem_of_lookup_2.
  - destruct (handleAccuse_cases env s gameId accusing accused)
      as [(status & msg & Heq)
         |(game & lastCard & ai & ap & di & dp & Hg & Hcard & Hlast & Ha & Hd)].
    { by rewrite (exec_AccusePlayer _ _ _ _ _ _ _ Heq). }
    destruct (handleAccuse_ok env s gameId accusing accused game lastCard ai di ap dp
                Hg Hcard Hlast Ha Hd)
      as (g' & deck & Heq & _ & _ & Hid & _ & Hps & Hcur & _).
    rewrite (exec_AccusePlayer _ _ _ _ _ _ _ Heq). cbn [snd].
    apply (turn_lost_update gid p gameId s _ game g' Hlost Hg);
      [by apply (commit_store gameId game)|].
    intros _. split; [exact Hcur|].
    apply list_find_Some in Ha as (Hai & _). apply list_find_Some in Hd as (Hdi & _).
    cbv zeta in Hps. rewrite Hps.
    destruct (bool_decide (c_type lastCard = lie));
      by (erewrite ids_after_insert; [|done|done]).
  - destruct (games s !! gameId) as [game|] eqn:Hg.
    2: { by rewrite (exec_Continue _ _ _ _ _ (handleContinue_missing s gameId Hg)). }
    rewrite (exec_Continue _ _ _ _ _ (handleContinue_ok s gameId game Hg)). cbn [snd].
    eapply (turn_lost_update gid p gameId s _ game _ Hlost Hg);
      [by apply (commit_store gameId game)|].
    intros _. by split.
  - destruct (decide (gameId = "" ∨ playerId = "")) as [Hempty|Hids].
    { by rewrite (exec_Disconnect _ _ _ _ _ (wsClose_ignored env s gameId playerId Hempty)). }
    destruct (games s !! gameId) as [game|] eqn:Hg.
    2: { by rewrite (exec_Disconnect _ _ _ _ _
                       (wsClose_failed env s gameId playerId (or_introl Hg))). }
    destruct (list_find (λ p, p_id p = playerId) (players game)) as [[pi player]|] eqn:Hp.
    2: { by rewrite (exec_Disconnect _ _ _ _ _
                       (wsClose_failed env s gameId playerId
                          (or_intror (ex_intro _ game (conj Hg Hp))))). }
    destruct (removePlayerFromGame_fields env s gameId playerId game pi player Hg Hp)
      as (g' & Heq & Hps & _ & Hcur & _).
    assert (gameId ≠ "" ∧ playerId ≠ "") as [Hgid Hpid] by tauto.
    rewrite (exec_Disconnect _ _ _ _ _
               (wsClose_removed env s _ gameId playerId g' Hgid Hpid Heq)).
    apply (turn_lost_update gid p gameId s _ game g' Hlost Hg); [reflexivity|].
    intros _. split; [exact Hcur|]. intros Hgone Hin. apply Hgone.
    rewrite Hps, list_fmap_delete in Hin. by eapply list_elem_of_delete_inv.
Qed.

Lemma run_turn_lost (env : Oracle) (cmds : list Command) (s : Server) (gid p : string) :
  well_keyed s →
  Forall (λ c, target c ≠ None) cmds →
  (∀ k, uuid_calls s ≤ k → uuid_at env k ≠ p) →
  turn_lost gid p s →
  well_keyed (run env cmds s) ∧
  uuid_calls s ≤ uuid_calls (run env cmds s) ∧
  turn_lost gid p (run env cmds s).
Proof.
  intros Hkeys Hcmds Hfresh Hlost.
  induction cmds as [|c cmds IH] using rev_ind.
  - by split_and!.
  - apply Forall_app in Hcmds as [Hcmds Hc]. apply Forall_cons_1 in Hc as [Hc _].
    destruct (IH Hcmds) as (Hkeys' & Hle & Hlost'). rewrite run_snoc.
    split_and!.
    + by apply exec_well_keyed.
    + destruct (exec_ids env c (run env cmds s)) as [Hle' _]. lia.
    + apply exec_turn_lost; [done|done|by apply Hfresh|done].
Qed.

(** X15: nothing hands the turn on when the player whose turn it is
    disconnects.  In a store that holds every session under its own id,
    after that player's connection closed and after any further requests
    other than [CreateGame] (joins, plays, accusations, continuations and
    disconnections, on this session or another), [currentPlayerId] still names
    the player who left, who is not among the players, and every [PlayCard]
    on the session, by anybody and with any card, is rejected without effect.
    This needs that the players of the session had distinct ids and that
    [randomUUID] does not return the id of the player who left again. *)
Theorem turn_is_lost_when_current_player_leaves (env : Oracle) (s : Server)
    (gameId : string) (game : GameState) (cmds : list Command) :
  gameId ≠ "" → currentPlayerId game ≠ "" →
  well_keyed s →
  games s !! gameId = Some game →
  NoDup (p_id <$> players game) →
  currentPlayerId game ∈ p_id <$> players game →
  (∀ k, uuid_calls s ≤ k → uuid_at env k ≠ currentPlayerId game) →
  Forall (λ c, target c ≠ None) cmds →
  let s' := run env cmds (wsClose env gameId (currentPlayerId game) s).2 in
  turn_lost gameId (currentPlayerId game) s' ∧
  ∀ playerId cardId, ∃ status msg,
    handlePlay env gameId playerId cardId s' = (Ret (json_message status msg), s').
Proof.
  intros Hgid Hcurrent Hkeys Hg Hnodup Hmember Hfresh Hcmds s'.
  destruct (find_player_member _ _ Hmember) as (pi & player & Hp).
  destruct (removePlayerFromGame_fields env s gameId _ game pi player Hg Hp)
    as (g' & Hrem & Hps & _ & Hcur & _).
  pose proof (wsClose_removed env s _ gameId _ g' Hgid Hcurrent Hrem) as Hclose.
  set (s1 := (wsClose env gameId (currentPlayerId game) s).2) in *.
  assert (Hs1 : s1 = (exec env (Disconnect gameId (currentPlayerId game)) s).2).
  { unfold s1. by rewrite (exec_Disconnect _ _ _ _ _ Hclose), Hclose. }
  assert (Hgone : currentPlayerId game ∉ p_id <$> players g').
  { rewrite Hps, list_fmap_delete.
    apply list_find_Some in Hp as (Hpi & Hid & _).
    assert (Hidx : (p_id <$> players game) !! pi = Some (currentPlayerId game))
      by (by rewrite list_lookup_fmap, Hpi; cbn; rewrite Hid).
    intros Hin. apply list_elem_of_lookup in Hin as [j Hj].
    destruct (decide (j < pi)) as [Hlt|Hge].
    - rewrite list_lookup_delete_lt in Hj by done.
      pose proof (NoDup_lookup _ _ _ _ Hnodup Hj Hidx). lia.
    - rewrite list_lookup_delete_ge in Hj by lia.
      pose proof (NoDup_lookup _ _ _ _ Hnodup Hj Hidx). lia. }
  assert (Hlost1 : turn_lost gameId (currentPlayerId game) s1).
  { exists g'. unfold s1. rewrite Hclose. cbn. by rewrite lookup_insert_eq. }
  assert (Hkeys1 : well_keyed s1) by (rewrite Hs1; by apply exec_well_keyed).
  assert (Hle1 : uuid_calls s ≤ uuid_calls s1).
  { rewrite Hs1. by destruct (exec_ids env (Disconnect gameId (currentPlayerId game)) s). }
  destruct (run_turn_lost env cmds s1 gameId (currentPlayerId game) Hkeys1 Hcmds)
    as (_ & _ & Hlost); [intros k Hk; apply Hfresh; lia|exact Hlost1|].
  fold s' in Hlost. split; [exact Hlost|].
  intros playerId cardId.
  destruct (handlePlay_cases env s' gameId playerId cardId)
    as [Hrej|(game' & pi' & player' & ci & card & Hg'' & Hp' & Hcur' & _)]; [done|].
  exfalso. destruct Hlost as (g & Hg2 & Hturn & Hout).
  assert (game' = g) as -> by congruence.
  apply Hout. rewrite <-Hturn, Hcur'. apply list_find_Some in Hp' as (Hpi' & Hid' & _).
  apply list_elem_of_fmap. exists player'. split; [done|]. by eapply list_elem_of_lookup_2.
Qed.

Lemma sample_uuid_is_no_letter (k : nat) (id : string) :
  String.length id = 1 → uuid_at sample_env k ≠ id.
Proof. intros Hlen Heq. rewrite <-Heq in Hlen. simpl in Hlen. discriminate Hlen. Qed.

Lemma turn_is_lost_when_current_player_leaves_witness :
  let cmds := [ JoinGame "ROOM01" "Dave"; PlayCard "ROOM01" "c" "k4";
                AccusePlayer "ROOM01" "c" "a"; ContinueAfterRevelation "ROOM01";
                Disconnect "ROOM01" "a" ] in
  let s' := run sample_env cmds (wsClose sample_env "ROOM01" "b" tiny_server).2 in
  turn_lost "ROOM01" "b" s' ∧
  ∀ playerId cardId, ∃ status msg,
    handlePlay sample_env "ROOM01" playerId cardId s' = (Ret (json_message status msg), s').
Proof.
  apply (turn_is_lost_when_current_player_leaves sample_env tiny_server "ROOM01" tiny_game);
    [discriminate | discriminate | exact tiny_server_well_keyed | reflexivity
    | apply (bool_decide_unpack _); vm_compute; exact I
    | apply (bool_decide_unpack _); vm_compute; exact I
    | intros k _; by apply sample_uuid_is_no_letter
    | repeat constructor; discriminate ].
Defined.
